(** * TXM texture analysis pipeline: a shallow embedding of
      [core/texture_processor.py], [core/texture_worker.py] and
      [core/texture_runner.py], with the properties of the duplicate
      detector, of the cancellation channel and of the result ordering. *)

From Stdlib Require Import QArith Qround Lqa.
From stdpp Require Import list strings sorting.
From Stdlib Require Import Ascii DecimalString DecimalNat.
From Stdlib Require DecimalFacts.
Close Scope Q_scope.

(** ** Text helpers standing for Python's [str] operations *)

Module Tekst.

(** [str(n)] of a non-negative [int]. *)
Definition dec (n : nat) : string := NilEmpty.string_of_uint (Nat.to_uint n).

(** [f"{n:02d}"]: decimal, left-padded with zeros to a width of at least two. *)
Definition format_02d (n : nat) : string :=
let s := dec n in
if (String.length s <? 2)%nat then "0" +:+ s else s.

(** Truth value of a [str]: non-empty. *)
Definition niepusty (s : string) : bool :=
match s with "" => false | _ => true end.

(** [c.lower()] on the ASCII range; bytes above 127 (the UTF-8 encoding of
  other letters) are left as they are. *)
Definition lower_ascii (c : ascii) : ascii :=
let n := nat_of_ascii c in
if ((65 <=? n) && (n <=? 90))%nat then ascii_of_nat (n + 32) else c.

Fixpoint lower (s : string) : string :=
match s with
| "" => ""
| String c s' => String (lower_ascii c) (lower s')
end.

(** [s.rfind(c)] counted from position [i] of the whole string: the last
  index holding [c], or [-1]. *)
Fixpoint rfind_od (c : ascii) (s : string) (i : Z) : Z :=
match s with
| "" => (-1)%Z
| String a s' =>
    let r := rfind_od c s' (i + 1)%Z in
    if (0 <=? r)%Z then r else if Ascii.eqb a c then i else (-1)%Z
end.

Definition rfind (c : ascii) (s : string) : Z := rfind_od c s 0%Z.

(** [p[:k]] and [p[k:]] for [0 <= k]. *)
Definition do_indeksu (k : Z) (p : string) : string := String.substring 0 (Z.to_nat k) p.
Definition od_indeksu (k : Z) (p : string) : string :=
String.substring (Z.to_nat k) (String.length p - Z.to_nat k) p.

(** [os.path.basename] (posixpath): what follows the last separator. *)
Definition basename (p : string) : string :=
od_indeksu (rfind "/"%char p + 1)%Z p.

(** The [while] loop of [genericpath._splitext]: is there a character other
  than the dot in [p[filenameIndex:dotIndex]]?  [n] counts the positions
  left to look at. *)
Fixpoint nie_same_kropki (p : string) (filenameIndex : nat) (n : nat) : bool :=
match n with
| 0 => false
| S n' =>
    match String.get filenameIndex p with
    | Some c => if Ascii.eqb c "."%char
                then nie_same_kropki p (S filenameIndex) n'
                else true
    | None => false
    end
end.

(** [os.path.splitext] (posixpath, through [genericpath._splitext]). *)
Definition splitext (p : string) : string * string :=
let sepIndex := rfind "/"%char p in
let dotIndex := rfind "."%char p in
if (sepIndex <? dotIndex)%Z then
  let filenameIndex := (sepIndex + 1)%Z in
  if nie_same_kropki p (Z.to_nat filenameIndex) (Z.to_nat (dotIndex - filenameIndex))
  then (do_indeksu dotIndex p, od_indeksu dotIndex p)
  else (p, "")
else (p, "").

(** [s.split("-")[0]]: what precedes the first dash. *)
Fixpoint przed_myślnikiem (s : string) : string :=
match s with
| "" => ""
| String c s' => if Ascii.eqb c "-"%char then "" else String c (przed_myślnikiem s')
end.

End Tekst.

Export Tekst.

(** ** Insertion-ordered dictionaries of lists

    The passes build [dict]s whose values are lists and later iterate over
    them; a Python [dict] iterates in insertion order, so the model is an
    association list kept in the order in which the keys were first seen. *)

Module Słownik.

Definition t (V : Type) : Type := list (string * list V).

(** [if k not in d: d[k] = []] followed by [d[k].append(v)]. *)
Fixpoint dopisz {V} (k : string) (v : V) (d : t V) : t V :=
match d with
| [] => [(k, [v])]
| (k', g) :: d' =>
    if decide (k' = k) then (k', g ++ [v]) :: d' else (k', g) :: dopisz k v d'
end.

(** The grouping loop [for x in xs: dopisz(klucz(x), x)]. *)
Definition grupuj {V} (klucz : V → string) (xs : list V) : t V :=
fold_left (λ d x, dopisz (klucz x) x d) xs [].

(** [if k not in d: d[k] = 0] followed by [d[k] += 1]. *)
Fixpoint zwiększ (k : string) (d : list (string * nat)) : list (string * nat) :=
match d with
| [] => [(k, 1)]
| (k', n) :: d' =>
    if decide (k' = k) then (k', S n) :: d' else (k', n) :: zwiększ k d'
end.

End Słownik.

(** [enumerate(l)] *)
Definition enumerate {A} (l : list A) : list (nat * A) := imap pair l.

(** ** Data model *)

(** [MetadanePliku] (FileRecord).  [data_utworzenia] and [data_modyfikacji]
    hold a local date and time which the source keeps rendered as
    ["%Y-%m-%d %H:%M:%S"] and reads back with [strptime] under the same
    format whenever it compares two of them; the model keeps the date itself,
    as a count of whole seconds, which orders the same way.  [rozmiar_mb] is
    the size as the source rounds it. *)
Record MetadanePliku := {
  ścieżka : string;
  rozszerzenie : string;
  rozmiar_mb : Q;
  data_utworzenia : nat;
  data_modyfikacji : nat;
  hash_sha256 : string;
  szerokość : option nat;
  wysokość : option nat;
  kanał_alpha : option bool;
  głębia_bitowa : option nat;
  profil_koloru : option string;
  flaga : string;
  id_grupy : string;
  narzędzie_analizy : string;
  błąd_analizy : string;
  nazwa : string;
}.

(** The values of [flaga]. *)
Definition ORYGINAŁ : string := "oryginał".
Definition MOŻLIWY_DUPLIKAT : string := "możliwy duplikat".
Definition DUPLIKAT : string := "duplikat".

(** The constructor call of [utwórz_metadane_pliku], with the dataclass
    defaults and [__post_init__]. *)
Definition nowe_MetadanePliku (ścieżka rozszerzenie : string) (rozmiar_mb : Q)
    (data_utworzenia data_modyfikacji : nat) (hash_sha256 : string) : MetadanePliku :=
  {| ścieżka := ścieżka; rozszerzenie := rozszerzenie; rozmiar_mb := rozmiar_mb;
     data_utworzenia := data_utworzenia; data_modyfikacji := data_modyfikacji;
     hash_sha256 := hash_sha256;
     szerokość := None; wysokość := None; kanał_alpha := None;
     głębia_bitowa := None; profil_koloru := None;
     flaga := ""; id_grupy := ""; narzędzie_analizy := ""; błąd_analizy := "";
     nazwa := basename ścieżka |}.

(** Attribute assignments [m.pole = v]. *)
Definition z_flagą (v : string) (m : MetadanePliku) : MetadanePliku :=
  {| ścieżka := ścieżka m; rozszerzenie := rozszerzenie m; rozmiar_mb := rozmiar_mb m;
     data_utworzenia := data_utworzenia m; data_modyfikacji := data_modyfikacji m;
     hash_sha256 := hash_sha256 m;
     szerokość := szerokość m; wysokość := wysokość m; kanał_alpha := kanał_alpha m;
     głębia_bitowa := głębia_bitowa m; profil_koloru := profil_koloru m;
     flaga := v; id_grupy := id_grupy m;
     narzędzie_analizy := narzędzie_analizy m; błąd_analizy := błąd_analizy m;
     nazwa := nazwa m |}.

Definition z_id_grupy (v : string) (m : MetadanePliku) : MetadanePliku :=
  {| ścieżka := ścieżka m; rozszerzenie := rozszerzenie m; rozmiar_mb := rozmiar_mb m;
     data_utworzenia := data_utworzenia m; data_modyfikacji := data_modyfikacji m;
     hash_sha256 := hash_sha256 m;
     szerokość := szerokość m; wysokość := wysokość m; kanał_alpha := kanał_alpha m;
     głębia_bitowa := głębia_bitowa m; profil_koloru := profil_koloru m;
     flaga := flaga m; id_grupy := v;
     narzędzie_analizy := narzędzie_analizy m; błąd_analizy := błąd_analizy m;
     nazwa := nazwa m |}.

Definition z_hashem (v : string) (m : MetadanePliku) : MetadanePliku :=
  {| ścieżka := ścieżka m; rozszerzenie := rozszerzenie m; rozmiar_mb := rozmiar_mb m;
     data_utworzenia := data_utworzenia m; data_modyfikacji := data_modyfikacji m;
     hash_sha256 := v;
     szerokość := szerokość m; wysokość := wysokość m; kanał_alpha := kanał_alpha m;
     głębia_bitowa := głębia_bitowa m; profil_koloru := profil_koloru m;
     flaga := flaga m; id_grupy := id_grupy m;
     narzędzie_analizy := narzędzie_analizy m; błąd_analizy := błąd_analizy m;
     nazwa := nazwa m |}.

Definition z_narzędziem (v : string) (m : MetadanePliku) : MetadanePliku :=
  {| ścieżka := ścieżka m; rozszerzenie := rozszerzenie m; rozmiar_mb := rozmiar_mb m;
     data_utworzenia := data_utworzenia m; data_modyfikacji := data_modyfikacji m;
     hash_sha256 := hash_sha256 m;
     szerokość := szerokość m; wysokość := wysokość m; kanał_alpha := kanał_alpha m;
     głębia_bitowa := głębia_bitowa m; profil_koloru := profil_koloru m;
     flaga := flaga m; id_grupy := id_grupy m;
     narzędzie_analizy := v; błąd_analizy := błąd_analizy m;
     nazwa := nazwa m |}.

Definition z_błędem (v : string) (m : MetadanePliku) : MetadanePliku :=
  {| ścieżka := ścieżka m; rozszerzenie := rozszerzenie m; rozmiar_mb := rozmiar_mb m;
     data_utworzenia := data_utworzenia m; data_modyfikacji := data_modyfikacji m;
     hash_sha256 := hash_sha256 m;
     szerokość := szerokość m; wysokość := wysokość m; kanał_alpha := kanał_alpha m;
     głębia_bitowa := głębia_bitowa m; profil_koloru := profil_koloru m;
     flaga := flaga m; id_grupy := id_grupy m;
     narzędzie_analizy := narzędzie_analizy m; błąd_analizy := v;
     nazwa := nazwa m |}.

(** The dictionary both metadata backends return on success. *)
Record MetadaneGraficzne := {
  mg_szerokość : option nat;
  mg_wysokość : option nat;
  mg_kanał_alpha : bool;
  mg_głębia_bitowa : option nat;
  mg_profil_koloru : option string;
}.

(** [m.__dict__.update(metadane)] *)
Definition z_metadanymi (d : MetadaneGraficzne) (m : MetadanePliku) : MetadanePliku :=
  {| ścieżka := ścieżka m; rozszerzenie := rozszerzenie m; rozmiar_mb := rozmiar_mb m;
     data_utworzenia := data_utworzenia m; data_modyfikacji := data_modyfikacji m;
     hash_sha256 := hash_sha256 m;
     szerokość := mg_szerokość d; wysokość := mg_wysokość d;
     kanał_alpha := Some (mg_kanał_alpha d);
     głębia_bitowa := mg_głębia_bitowa d; profil_koloru := mg_profil_koloru d;
     flaga := flaga m; id_grupy := id_grupy m;
     narzędzie_analizy := narzędzie_analizy m; błąd_analizy := błąd_analizy m;
     nazwa := nazwa m |}.

(** [StatusPostępu] (ProgressEvent); [postęp] is the exact quotient the
    source computes in floating point. *)
Record StatusPostępu := {
  etap : string;
  postęp : Q;
  wiadomość : string;
  szczegóły : list (string * nat);
}.

(** Formaty plików, które uznajemy za graficzne *)
Definition GRAFICZNE_ROZSZERZENIA : list string :=
  [".jpg"; ".jpeg"; ".png"; ".gif"; ".bmp"; ".tiff"; ".tif"; ".webp"; ".svg";
   ".exr"; ".hdr"; ".tx"; ".tga"; ".psd"; ".heic"; ".heif"; ".dds"; ".ico";
   ".raw"; ".cr2"; ".nef"].

(** Formaty plików wymagające oiiotool *)
Definition FORMATY_OIIOTOOL : list string := [".exr"; ".hdr"; ".tx"].

Definition POZOSTAŁE : string := "pozostałe".

(** ** Progress reporting as state passing

    [_raportuj_status] calls the callback for its effect and drops what it
    returns; a stage is a function of the callback's state [S]. *)

Definition Stan (S A : Type) : Type := S → A * S.

Definition zwróć {S A} (a : A) : Stan S A := λ s, (a, s).

Definition potem {S A B} (m : Stan S A) (k : A → Stan S B) : Stan S B :=
  λ s, let '(a, s') := m s in k a s'.

Notation "x <- m ;; k" := (potem m (λ x, k))
  (at level 100, m at next level, right associativity).
Notation "m ;; k" := (potem m (λ _, k))
  (at level 100, right associativity).

(** A [for] loop whose body updates the loop variables [b]. *)
Fixpoint dla_każdego {S A B} (ciało : B → A → Stan S B) (xs : list A) (b : B) : Stan S B :=
  match xs with
  | [] => zwróć b
  | x :: xs' => b' <- ciało b x ;; dla_każdego ciało xs' b'
  end.

Definition gdy {S} (warunek : bool) (m : Stan S unit) : Stan S unit :=
  if warunek then m else zwróć tt.

(** [a / b] on non-negative integers, as an exact quotient. *)
Definition iloraz (a b : nat) : Q :=
  (inject_Z (Z.of_nat a) / inject_Z (Z.of_nat b))%Q.

(** ** Stable sort by creation date

    [grupa.sort(key=...)] is stable; so is insertion from the right with a
    strict comparison, and a stable sort has one possible result. *)
Section Sortowanie.
Context {A : Type} (klucz : A → nat).

Fixpoint wstaw (x : A) (s : list A) : list A :=
  match s with
  | [] => [x]
  | y :: s' => if klucz y <? klucz x then y :: wstaw x s' else x :: y :: s'
  end.

Definition sortuj (g : list A) : list A := foldr wstaw [] g.
End Sortowanie.

(** The sort key of both duplicate passes: [x[1].data_utworzenia]. *)
Definition klucz_daty (x : nat * MetadanePliku) : nat := data_utworzenia x.2.

(** [metadane_plików[idx].pole = v].  Every index the passes use comes from
    [enumerate] over the same list, which is never resized, so the
    [IndexError] of an index out of range cannot occur; [alter] leaves the
    list as it is there. *)
Definition ustaw_flagę (idx : nat) (v : string) (l : list MetadanePliku) :=
  alter (z_flagą v) idx l.
Definition ustaw_id_grupy (idx : nat) (v : string) (l : list MetadanePliku) :=
  alter (z_id_grupy v) idx l.
Definition ustaw_hash (idx : nat) (v : string) (l : list MetadanePliku) :=
  alter (z_hashem v) idx l.

(** ** The result dictionaries *)

(** A value of [stats_narzędzia]: a counter or a nested dictionary of
    counters. *)
Inductive Wartość :=
  | Liczba (n : nat)
  | Podsłownik (d : list (string * nat)).

Definition StatsNarzędzia : Type := list (string * Wartość).

Module Dict.
(** [d[k]]; [None] is [KeyError]. *)
Fixpoint szukaj {V} (k : string) (d : list (string * V)) : option V :=
  match d with
  | [] => None
  | (k', v) :: d' => if decide (k' = k) then Some v else szukaj k d'
  end.

(** [d[k] = v] for a key that is present. *)
Fixpoint podmień {V} (k : string) (v : V) (d : list (string * V)) : list (string * V) :=
  match d with
  | [] => []
  | (k', v') :: d' =>
      if decide (k' = k) then (k', v) :: d' else (k', v') :: podmień k v d'
  end.

(** [d[k] += 1]; [None] when the key is missing or holds no number. *)
Definition dodaj_jeden (k : string) (d : StatsNarzędzia) : option StatsNarzędzia :=
  match szukaj k d with
  | Some (Liczba n) => Some (podmień k (Liczba (n + 1)) d)
  | _ => None
  end.

(** [d[k1][k2] += 1]; [None] when either key is missing. *)
Definition dodaj_jeden_w (k1 k2 : string) (d : StatsNarzędzia) : option StatsNarzędzia :=
  match szukaj k1 d with
  | Some (Podsłownik p) =>
      match szukaj k2 p with
      | Some n => Some (podmień k1 (Podsłownik (podmień k2 (n + 1) p)) d)
      | None => None
      end
  | _ => None
  end.
End Dict.

Record Statystyki := {
  liczba_plików_ogółem : nat;
  liczba_plików_graficznych : nat;
  liczba_pozostałych_plików : nat;
  liczba_oryginałów : nat;
  liczba_duplikatów : nat;
  liczba_możliwych_duplikatów : nat;
  liczba_grup_duplikatów : nat;
  rozszerzenia : list (string * nat);
  narzędzia_analizy : StatsNarzędzia;
  liczba_plików_specjalistycznych : nat;
  rozszerzenia_z_błędami : list (string * nat);
}.

Record Konfiguracja := {
  k_oiiotool_dostępny : bool;
  k_ścieżka_oiiotool : string;
  k_formaty_specjalistyczne : list string;
}.

(** The dictionary handed from the processor to the worker and on to the
    runner; a key that is absent is [None].  [pliki] holds the records
    themselves: [to_dict] only reorders their keys. *)
Record Wyniki := {
  sukces : option bool;
  komunikat : option string;
  pliki_według_rozszerzeń : option (list (string * nat));
  pliki : option (list MetadanePliku);
  statystyki : option Statystyki;
  konfiguracja : option Konfiguracja;
  ścieżki_raportów : option (list (string * string));
  ścieżka_statystyk : option string;
}.

Definition puste_Wyniki : Wyniki :=
  {| sukces := None; komunikat := None; pliki_według_rozszerzeń := None;
     pliki := None; statystyki := None; konfiguracja := None;
     ścieżki_raportów := None; ścieżka_statystyk := None |}.

(** [{"sukces": False, "komunikat": k}] *)
Definition niepowodzenie (k : string) : Wyniki :=
  {| sukces := Some false; komunikat := Some k; pliki_według_rozszerzeń := None;
     pliki := None; statystyki := None; konfiguracja := None;
     ścieżki_raportów := None; ścieżka_statystyk := None |}.

Inductive Wyjątek :=
  | ValueError (s : string)
  | AttributeError (s : string)
  | OSError (s : string).

(** [str(e)] *)
Definition str_wyjątku (e : Wyjątek) : string :=
  match e with ValueError s | AttributeError s | OSError s => s end.

(** ** What the pipeline asks of its surroundings

    The file system, the hashing of a file's bytes and the two metadata
    backends are outside the repository; every call to them is a field of
    [Otoczenie].  [None] stands for a raised exception. *)

(** What [Image.open] and the attribute reads that follow it yield. *)
Inductive WynikPIL :=
  | PIL_obraz (szer wys : nat) (tryb : string) (icc_profile : bool)
  | PIL_ImportError (e : string)
  | PIL_wyjątek (e : string).

(** What [_pobierz_metadane_oiiotool] returns: the dictionary built from the
    parsed report of the tool, or one of its failure messages. *)
Inductive WynikOiiotool :=
  | OIIO_metadane (d : MetadaneGraficzne)
  | OIIO_błąd (komunikat : string).

Record Otoczenie := {
  (** [os.path.isdir] *)
  isdir : string → bool;
  (** [pliki_do_przetworzenia]: the joined paths that [os.walk] (recursive)
      or [os.listdir] filtered by [os.path.isfile] enumerate, in their order *)
  pliki_folderu : string → bool → list string;
  (** [os.stat]: the size as the source rounds it, in MB, and the time
      stamps [st_ctime] and [st_mtime], seconds since the epoch *)
  stat : string → option (Q * Q * Q);
  (** [datetime.datetime.fromtimestamp(t).strftime("%Y-%m-%d %H:%M:%S")] as
      [strptime] reads it back: the date and time the local clock showed at
      the time stamp [t], cut to whole seconds.  It need not grow with [t]:
      the local clock is set back at the end of summer time and whenever
      the zone changes.  A time stamp that cannot be converted fails the
      [try] around it as a failing [os.stat] does; [stat] answers [None]
      for such a file. *)
  fromtimestamp : Q → nat;
  (** the hexadecimal SHA-256 digest of the file's bytes *)
  sha256 : string → option string;
  (** [_sprawdz_oiiotool]: the path it settles on and whether the probe ran *)
  sprawdz_oiiotool : string → string * bool;
  oiiotool : string → WynikOiiotool;
  pil : string → WynikPIL;
  (** the order in which [as_completed] hands over [n] futures *)
  kolejność_ukończenia : nat → list nat;
  (** [zapisz_wyniki_do_json]: the dictionary of written paths, or of the
      error, that it returns *)
  zapisz_wyniki_do_json : Wyniki → string → bool → list (string * string);
  (** the runner's [get_raport_folder] followed by [os.makedirs] when the
      folder is missing, and the dated file name it joins to it *)
  przygotuj_folder_raportów : Wyjątek + string;
  (** the runner's [json.dump] of the statistics into that file *)
  zapisz_statystyki : string → Statystyki → option Wyjątek;
  ŚCIEŻKA_OIIOTOOL : string;
}.

(** ** [TextureProcessor] *)

Section TextureProcessor.
Context {S : Type}.
Variable ot : Otoczenie.
(** The attributes of [self]. *)
Variable ścieżka_oiiotool : string.
Variable _callback_statusu : option (StatusPostępu → S → S).
Variable oiiotool_dostępny : bool.

Definition _raportuj_status (etap : string) (postęp : Q) (wiadomość : string)
    (szczegóły : list (string * nat)) : Stan S unit :=
  λ s, match _callback_statusu with
       | Some callback =>
           (tt, callback {| etap := etap; postęp := postęp;
                            wiadomość := wiadomość; szczegóły := szczegóły |} s)
       | None => (tt, s)
       end.

(** *** Etap 1: discovery and classification *)

Definition przetwórz_plik (ścieżka_pliku : string) : string * string :=
  let rozszerzenie := lower (splitext ścieżka_pliku).2 in
  let kategoria :=
    if bool_decide (rozszerzenie ∈ GRAFICZNE_ROZSZERZENIA) then rozszerzenie
    else POZOSTAŁE in
  (kategoria, ścieżka_pliku).

Definition _znajdź_i_posortuj_pliki (ścieżka_folderu : string)
    (przeszukuj_podfoldery : bool) : Stan S (Słownik.t string) :=
  let pliki_do_przetworzenia := pliki_folderu ot ścieżka_folderu przeszukuj_podfoldery in
  let total_files := length pliki_do_przetworzenia in
  r <- dla_każdego
         (λ '(pliki_według_rozszerzeń, liczba_znalezionych) '(i, (kategoria, ścieżka)),
            let pliki_według_rozszerzeń :=
              Słownik.dopisz kategoria ścieżka pliki_według_rozszerzeń in
            let liczba_znalezionych := liczba_znalezionych + 1 in
            gdy ((i mod 50 =? 0) || (i =? total_files - 1))
              (_raportuj_status "wyszukiwanie"
                 (if 0 <? total_files then iloraz (i + 1) total_files else 1%Q)
                 ("Znaleziono " +:+ dec liczba_znalezionych +:+ " plików...")
                 [("znalezione", liczba_znalezionych)]) ;;
            zwróć (pliki_według_rozszerzeń, liczba_znalezionych))
         (enumerate (przetwórz_plik <$> pliki_do_przetworzenia))
         ([], 0) ;;
  zwróć r.1.

(** *** Etap 2: base metadata *)

Definition utwórz_metadane_pliku (args : string * string) : option MetadanePliku :=
  let '(ścieżka, rozszerzenie) := args in
  match stat ot ścieżka with
  | Some (rozmiar_mb, st_ctime, st_mtime) =>
      let data_utworzenia := fromtimestamp ot st_ctime in
      let data_modyfikacji := fromtimestamp ot st_mtime in
      Some (nowe_MetadanePliku ścieżka rozszerzenie rozmiar_mb
              data_utworzenia data_modyfikacji "")
  | None => None
  end.

Definition _utwórz_podstawowe_metadane
    (pliki_według_rozszerzeń : Słownik.t string) : Stan S (list MetadanePliku) :=
  let wszystkie_pliki :=
    flat_map (λ '(rozszerzenie, ścieżki), (λ ścieżka, (ścieżka, rozszerzenie)) <$> ścieżki)
             pliki_według_rozszerzeń in
  let total_files := length wszystkie_pliki in
  dla_każdego
    (λ metadane '(i, metadane_pliku),
       let metadane :=
         match metadane_pliku with
         | Some m => metadane ++ [m]
         | None => metadane
         end in
       gdy ((i mod 50 =? 0) || (i =? total_files - 1))
         (_raportuj_status "metadane_podstawowe"
            (if 0 <? total_files then iloraz (i + 1) total_files else 1%Q)
            ("Przetworzono podstawowe metadane dla " +:+ dec (i + 1) +:+ " z "
               +:+ dec total_files +:+ " plików...")
            []) ;;
       zwróć metadane)
    (enumerate (utwórz_metadane_pliku <$> wszystkie_pliki))
    [].

(** *** Etap 3: possible duplicates, by name *)

Definition nazwa_bez_rozszerzenia (meta : MetadanePliku) : string :=
  (splitext (basename (ścieżka meta))).1.

(** The body of [if len(grupa) > 1] in the name pass.  The empty case is
    out of reach under that test. *)
Definition oznacz_grupę_nazw (grupa : list (nat * MetadanePliku))
    (metadane_plików : list MetadanePliku) : list MetadanePliku :=
  match sortuj klucz_daty grupa with
  | [] => metadane_plików
  | (idx0, _) :: reszta =>
      fold_left (λ lst '(idx, _), ustaw_flagę idx MOŻLIWY_DUPLIKAT lst) reszta
                (ustaw_flagę idx0 ORYGINAŁ metadane_plików)
  end.

Definition _oznacz_możliwe_duplikaty
    (metadane_plików : list MetadanePliku) : Stan S (list MetadanePliku) :=
  let n := length metadane_plików in
  grupy_plików <-
    dla_każdego
      (λ grupy_plików '(i, meta),
         let grupy_plików :=
           Słownik.dopisz (nazwa_bez_rozszerzenia meta) (i, meta) grupy_plików in
         gdy ((i mod 100 =? 0) || (i =? n - 1))
           (_raportuj_status "możliwe_duplikaty"
              (iloraz (i + 1) n * (1 # 2))%Q
              ("Grupowanie plików według nazwy: " +:+ dec (i + 1) +:+ " z "
                 +:+ dec n +:+ "...")
              []) ;;
         zwróć grupy_plików)
      (enumerate metadane_plików) [] ;;
  let liczba_grup := length grupy_plików in
  dla_każdego
    (λ metadane_plików '(i, (nazwa, grupa)),
       let metadane_plików :=
         if 1 <? length grupa then oznacz_grupę_nazw grupa metadane_plików
         else metadane_plików in
       gdy ((i mod 50 =? 0) || (i =? liczba_grup - 1))
         (_raportuj_status "możliwe_duplikaty"
            ((1 # 2) + iloraz (i + 1) liczba_grup * (1 # 2))%Q
            ("Oznaczanie możliwych duplikatów: " +:+ dec (i + 1) +:+ " z "
               +:+ dec liczba_grup +:+ " grup...")
            []) ;;
       zwróć metadane_plików)
    (enumerate grupy_plików) metadane_plików.

(** *** Etap 4: content hashes *)

Definition oblicz_hash_pliku (index_meta : nat * MetadanePliku) : nat * string :=
  let '(index, meta) := index_meta in
  match sha256 ot (ścieżka meta) with
  | Some hexdigest => (index, hexdigest)
  | None => (index, "")
  end.

Definition _oblicz_hashe
    (metadane_plików : list MetadanePliku) : Stan S (list MetadanePliku) :=
  let total_files := length metadane_plików in
  dla_każdego
    (λ metadane_plików '(i, (index, hash_value)),
       let metadane_plików := ustaw_hash index hash_value metadane_plików in
       gdy ((i mod 20 =? 0) || (i =? total_files - 1))
         (_raportuj_status "hash"
            (iloraz (i + 1) total_files)
            ("Obliczono hash dla " +:+ dec (i + 1) +:+ " z " +:+ dec total_files
               +:+ " plików...")
            []) ;;
       zwróć metadane_plików)
    (enumerate (oblicz_hash_pliku <$> enumerate metadane_plików))
    metadane_plików.

(** *** Etap 5: exact duplicates, by hash *)

(** The body of [if len(grupa) > 1] in the hash pass, after the counter
    has been advanced to [licznik_grup]. *)
Definition oznacz_grupę_hash (licznik_grup : nat) (grupa : list (nat * MetadanePliku))
    (metadane_plików : list MetadanePliku) : list MetadanePliku :=
  let id_grupy := format_02d licznik_grup in
  match sortuj klucz_daty grupa with
  | [] => metadane_plików
  | (org_idx, _) :: reszta =>
      fold_left
        (λ lst '(j, (dup_idx, _)),
           ustaw_id_grupy dup_idx (id_grupy +:+ "-D" +:+ dec (j + 1))
             (ustaw_flagę dup_idx DUPLIKAT lst))
        (enumerate reszta)
        (ustaw_id_grupy org_idx (id_grupy +:+ "-o")
           (ustaw_flagę org_idx ORYGINAŁ metadane_plików))
  end.

(** The loop [for hash_value, grupa in hashe.items()] on the loop variables
    [(licznik_grup, metadane_plików)]. *)
Definition oznacz_grupy_hash (hashe : Słownik.t (nat * MetadanePliku))
    (stan : nat * list MetadanePliku) : nat * list MetadanePliku :=
  fold_left
    (λ '(licznik_grup, metadane_plików) '(hash_value, grupa),
       if 1 <? length grupa then
         let licznik_grup := licznik_grup + 1 in
         (licznik_grup, oznacz_grupę_hash licznik_grup grupa metadane_plików)
       else (licznik_grup, metadane_plików))
    hashe stan.

Definition _oznacz_dokładne_duplikaty
    (metadane_plików : list MetadanePliku) : Stan S (list MetadanePliku) :=
  let n := length metadane_plików in
  pliki_według_rozszerzeń <-
    dla_każdego
      (λ pliki_według_rozszerzeń '(i, meta),
         let pliki_według_rozszerzeń :=
           if niepusty (hash_sha256 meta)
           then Słownik.dopisz (rozszerzenie meta) (i, meta) pliki_według_rozszerzeń
           else pliki_według_rozszerzeń in
         gdy ((i mod 100 =? 0) || (i =? n - 1))
           (_raportuj_status "dokładne_duplikaty"
              (iloraz (i + 1) n * (3 # 10))%Q
              ("Grupowanie plików według rozszerzeń: " +:+ dec (i + 1) +:+ " z "
                 +:+ dec n +:+ "...")
              []) ;;
         zwróć pliki_według_rozszerzeń)
      (enumerate metadane_plików) [] ;;
  let liczba_rozszerzeń := length pliki_według_rozszerzeń in
  r <- dla_każdego
         (λ stan '(i, (rozszerzenie, pliki)),
            let hashe := Słownik.grupuj (λ x, hash_sha256 x.2) pliki in
            let stan := oznacz_grupy_hash hashe stan in
            _raportuj_status "dokładne_duplikaty"
              ((3 # 10) + iloraz (i + 1) liczba_rozszerzeń * (7 # 10))%Q
              ("Oznaczanie dokładnych duplikatów dla rozszerzenia " +:+ rozszerzenie
                 +:+ "...")
              [] ;;
            zwróć stan)
         (enumerate pliki_według_rozszerzeń)
         (0, metadane_plików) ;;
  zwróć r.2.

(** *** Etap 6: image metadata *)

Definition zawiera_znak (c : ascii) (s : string) : bool :=
  bool_decide (c ∈ String.list_ascii_of_string s).

Definition kończy_się_na (c : ascii) (s : string) : bool :=
  bool_decide (last (String.list_ascii_of_string s) = Some c).

(** Both backends catch every exception themselves and answer with a
    triple (dictionary or [None], tool name, error text). *)
Definition _pobierz_metadane_pil (meta : MetadanePliku)
    : option MetadaneGraficzne * string * string :=
  match pil ot (ścieżka meta) with
  | PIL_obraz szer wys img_mode icc_profile =>
      let ma_alpha :=
        kończy_się_na "A" img_mode || zawiera_znak "A" img_mode
          || bool_decide (img_mode ∈ ["RGBA"; "LA"]) in
      let głębia :=
        if bool_decide (img_mode ∈ ["I"; "F"]) then 32
        else if bool_decide (img_mode ∈ ["I;16"; "RGB;16"; "LA;16"]) then 16
        else 8 in
      let profil := if icc_profile then "Embedded ICC" else "sRGB" in
      (Some {| mg_szerokość := Some szer; mg_wysokość := Some wys;
               mg_kanał_alpha := ma_alpha; mg_głębia_bitowa := Some głębia;
               mg_profil_koloru := Some profil |},
       "PIL", "")
  | PIL_ImportError _ => (None, "brak", "Biblioteka PIL jest niedostępna")
  | PIL_wyjątek e => (None, "błąd", "PIL: " +:+ e)
  end.

Definition _pobierz_metadane_oiiotool (meta : MetadanePliku)
    : option MetadaneGraficzne * string * string :=
  match oiiotool ot (ścieżka meta) with
  | OIIO_metadane d => (Some d, "oiiotool", "")
  | OIIO_błąd komunikat => (None, "błąd", komunikat)
  end.

(** With both backends total, none of the [except] clauses of the source
    function is ever entered. *)
Definition _pobierz_metadane_graficzne_pliku (index_meta : nat * MetadanePliku)
    : nat * option MetadaneGraficzne * string * string :=
  let '(index, meta) := index_meta in
  if decide (rozszerzenie meta = POZOSTAŁE) then (index, None, "", "")
  else
    let przez_pil :=
      let '(metadane, narzędzie, błąd) := _pobierz_metadane_pil meta in
      (index, metadane, narzędzie, błąd) in
    if oiiotool_dostępny then
      let '(metadane, narzędzie, błąd) := _pobierz_metadane_oiiotool meta in
      match metadane with
      | Some _ => (index, metadane, narzędzie, błąd)
      | None => przez_pil
      end
    else przez_pil.

Definition stats_początkowe : StatsNarzędzia :=
  [("oiiotool", Liczba 0); ("PIL", Liczba 0); ("brak", Liczba 0); ("błąd", Liczba 0);
   ("formaty_oiiotool", Podsłownik [("poprawnie", 0); ("niepoprawnie", 0)])].

(** [except Exception: stats_narzędzia["błąd"] += 1].  The key is there
    from [stats_początkowe] on and is never removed. *)
Definition po_wyjątku (stats_narzędzia : StatsNarzędzia) : StatsNarzędzia :=
  match Dict.dodaj_jeden "błąd" stats_narzędzia with
  | Some s => s
  | None => stats_narzędzia
  end.

(** The body of [for future in as_completed(futures)]: the assignments to
    the record come first and stay when a later statement raises. *)
Definition zbierz_wynik (stan : list MetadanePliku * StatsNarzędzia)
    (wynik : nat * option MetadaneGraficzne * string * string)
    : list MetadanePliku * StatsNarzędzia :=
  let '(metadane_plików, stats_narzędzia) := stan in
  let '(index, metadane, narzędzie, błąd) := wynik in
  match metadane with
  | Some d =>
      let metadane_plików := alter (z_metadanymi d) index metadane_plików in
      let metadane_plików := alter (z_narzędziem narzędzie) index metadane_plików in
      if niepusty błąd then
        let metadane_plików := alter (z_błędem błąd) index metadane_plików in
        match Dict.dodaj_jeden "błąd" stats_narzędzia with
        | Some s => (metadane_plików, s)
        | None => (metadane_plików, po_wyjątku stats_narzędzia)
        end
      else
        match
          (if decide (narzędzie = "oiiotool")
           then Dict.dodaj_jeden_w "formaty_oiiotool" "poprawnie" stats_narzędzia
           else Dict.dodaj_jeden_w "formaty_pil" "poprawnie" stats_narzędzia)
        with
        | Some s => (metadane_plików, s)
        | None => (metadane_plików, po_wyjątku stats_narzędzia)
        end
  | None => (metadane_plików, stats_narzędzia)
  end.

Definition _pobierz_metadane_graficzne (metadane_plików : list MetadanePliku)
    : list MetadanePliku * StatsNarzędzia :=
  let futures := _pobierz_metadane_graficzne_pliku <$> enumerate metadane_plików in
  fold_left
    (λ stan k,
       match futures !! k with
       | Some wynik => zbierz_wynik stan wynik
       | None => stan
       end)
    (kolejność_ukończenia ot (length futures))
    (metadane_plików, stats_początkowe).

(** *** Statistics *)

Definition _generuj_statystyki (metadane_plików : list MetadanePliku)
    (stats_narzędzia : StatsNarzędzia) : Statystyki :=
  {| liczba_plików_ogółem := length metadane_plików;
     liczba_plików_graficznych :=
       length (filter (λ m, rozszerzenie m ≠ POZOSTAŁE) metadane_plików);
     liczba_pozostałych_plików :=
       length (filter (λ m, rozszerzenie m = POZOSTAŁE) metadane_plików);
     liczba_oryginałów := length (filter (λ m, flaga m = ORYGINAŁ) metadane_plików);
     liczba_duplikatów := length (filter (λ m, flaga m = DUPLIKAT) metadane_plików);
     liczba_możliwych_duplikatów :=
       length (filter (λ m, flaga m = MOŻLIWY_DUPLIKAT) metadane_plików);
     liczba_grup_duplikatów :=
       length (remove_dups
                 ((λ m, przed_myślnikiem (id_grupy m))
                    <$> filter (λ m, id_grupy m ≠ "") metadane_plików));
     rozszerzenia :=
       fold_left (λ d m, Słownik.zwiększ (rozszerzenie m) d) metadane_plików [];
     narzędzia_analizy := stats_narzędzia;
     liczba_plików_specjalistycznych :=
       length (filter (λ m, lower (rozszerzenie m) ∈ FORMATY_OIIOTOOL) metadane_plików);
     rozszerzenia_z_błędami :=
       fold_left
         (λ d m, if decide (narzędzie_analizy m = "błąd")
                 then Słownik.zwiększ (rozszerzenie m) d else d)
         metadane_plików [] |}.

(** *** The orchestrator *)

Definition przetwarzaj_folder (ścieżka_folderu : string)
    (przeszukuj_podfoldery : bool) : Stan S Wyniki :=
  _raportuj_status "wyszukiwanie" 0%Q "Rozpoczęcie wyszukiwania plików..." [] ;;
  pliki_wg <- _znajdź_i_posortuj_pliki ścieżka_folderu przeszukuj_podfoldery ;;
  _raportuj_status "metadane_podstawowe" 0%Q "Tworzenie podstawowych metadanych..." [] ;;
  metadane_plików <- _utwórz_podstawowe_metadane pliki_wg ;;
  _raportuj_status "możliwe_duplikaty" 0%Q
    "Wykrywanie możliwych duplikatów na podstawie nazwy..." [] ;;
  metadane_plików <- _oznacz_możliwe_duplikaty metadane_plików ;;
  _raportuj_status "hash" 0%Q "Obliczanie hash'y plików..." [] ;;
  metadane_plików <- _oblicz_hashe metadane_plików ;;
  _raportuj_status "dokładne_duplikaty" 0%Q "Wykrywanie dokładnych duplikatów..." [] ;;
  metadane_plików <- _oznacz_dokładne_duplikaty metadane_plików ;;
  _raportuj_status "metadane_graficzne" 0%Q
    "Pobieranie szczegółowych metadanych graficznych..." [] ;;
  let '(metadane_plików, stats_narzędzia) := _pobierz_metadane_graficzne metadane_plików in
  let wyniki :=
    {| sukces := None; komunikat := None;
       pliki_według_rozszerzeń := Some ((λ '(k, v), (k, length v)) <$> pliki_wg);
       pliki := Some metadane_plików;
       statystyki := Some (_generuj_statystyki metadane_plików stats_narzędzia);
       konfiguracja :=
         Some {| k_oiiotool_dostępny := oiiotool_dostępny;
                 k_ścieżka_oiiotool := if oiiotool_dostępny then ścieżka_oiiotool else "";
                 k_formaty_specjalistyczne := FORMATY_OIIOTOOL |};
       ścieżki_raportów := None; ścieżka_statystyk := None |} in
  _raportuj_status "zakończono" 1%Q "Przetwarzanie zakończone." [] ;;
  zwróć wyniki.

End TextureProcessor.

(** ** The module-level entry point of the processor *)

Section Wejście.
Context {S : Type}.
Variable ot : Otoczenie.

Definition przetwarzaj_folder_tekstur (ścieżka_folderu : string)
    (ścieżka_wyjściowa : option string) (przeszukuj_podfoldery : bool)
    (ścieżka_oiiotool : string) (callback_statusu : option (StatusPostępu → S → S))
    (rozdziel_raporty : bool) : Stan S (Wyjątek + Wyniki) :=
  if negb (isdir ot ścieżka_folderu) then
    zwróć (inl (ValueError ("Podana ścieżka '" +:+ ścieżka_folderu
                              +:+ "' nie jest folderem lub nie istnieje.")))
  else
    (* procesor = TextureProcessor(ścieżka_oiiotool) *)
    let '(ścieżka_oiiotool, oiiotool_dostępny) := sprawdz_oiiotool ot ścieżka_oiiotool in
    wyniki <- przetwarzaj_folder ot ścieżka_oiiotool callback_statusu oiiotool_dostępny
                ścieżka_folderu przeszukuj_podfoldery ;;
    match ścieżka_wyjściowa with
    | Some ścieżka =>
        if niepusty ścieżka then
          let zapisane_pliki := zapisz_wyniki_do_json ot wyniki ścieżka rozdziel_raporty in
          zwróć (inr {| sukces := sukces wyniki; komunikat := komunikat wyniki;
                        pliki_według_rozszerzeń := pliki_według_rozszerzeń wyniki;
                        pliki := pliki wyniki; statystyki := statystyki wyniki;
                        konfiguracja := konfiguracja wyniki;
                        ścieżki_raportów := Some zapisane_pliki;
                        ścieżka_statystyk := ścieżka_statystyk wyniki |})
        else zwróć (inr wyniki)
    | None => zwróć (inr wyniki)
    end.
End Wejście.

(** ** [TextureWorker] *)

(** What a call of the caller's callback does: it returns [False], returns
    anything else, or raises. *)
Inductive Odpowiedź :=
  | Zwrócono_False
  | Zwrócono_inne
  | Rzucono (e : Wyjątek).

(** The attributes of the worker that change during a run, the cell
    [canceled[0]] of [przetwarzaj_folder], and whatever state the caller's
    callback keeps. *)
Record TextureWorker (U : Type) := {
  postęp_globalny : Q;
  etap_obecny : string;
  wiadomość_obecna : string;
  wyniki : option Wyniki;
  canceled : bool;
  stan_callbacku : U;
}.
Arguments postęp_globalny {U}.
Arguments etap_obecny {U}.
Arguments wiadomość_obecna {U}.
Arguments wyniki {U}.
Arguments canceled {U}.
Arguments stan_callbacku {U}.

(** [needle in hay] on strings. *)
Fixpoint zawiera (needle hay : string) : bool :=
  String.prefix needle hay
  || match hay with
     | String _ hay' => zawiera needle hay'
     | EmptyString => false
     end.

Section Worker.
Context {U : Type}.
Variable ot : Otoczenie.
Definition Callback : Type := string → Q → string → U → Odpowiedź * U.
Variable callback_aktualizacji : option Callback.

(** [TextureWorker()] *)
Definition nowy_TextureWorker (u : U) : TextureWorker U :=
  {| postęp_globalny := 0%Q; etap_obecny := ""; wiadomość_obecna := "";
     wyniki := None; canceled := false; stan_callbacku := u |}.

Definition z_obecnym_stanem (e : string) (p : Q) (m : string)
    (w : TextureWorker U) : TextureWorker U :=
  {| postęp_globalny := p; etap_obecny := e; wiadomość_obecna := m;
     wyniki := wyniki w; canceled := canceled w; stan_callbacku := stan_callbacku w |}.

Definition z_stanem_callbacku (u : U) (w : TextureWorker U) : TextureWorker U :=
  {| postęp_globalny := postęp_globalny w; etap_obecny := etap_obecny w;
     wiadomość_obecna := wiadomość_obecna w;
     wyniki := wyniki w; canceled := canceled w; stan_callbacku := u |}.

Definition z_canceled (b : bool) (w : TextureWorker U) : TextureWorker U :=
  {| postęp_globalny := postęp_globalny w; etap_obecny := etap_obecny w;
     wiadomość_obecna := wiadomość_obecna w;
     wyniki := wyniki w; canceled := b; stan_callbacku := stan_callbacku w |}.

Definition z_wynikami (r : option Wyniki) (w : TextureWorker U) : TextureWorker U :=
  {| postęp_globalny := postęp_globalny w; etap_obecny := etap_obecny w;
     wiadomość_obecna := wiadomość_obecna w;
     wyniki := r; canceled := canceled w; stan_callbacku := stan_callbacku w |}.

(** Returns [kontynuuj]; an exception of the callback is swallowed and
    answered with [True]. *)
Definition _obsługa_aktualizacji_statusu (status : StatusPostępu)
    : Stan (TextureWorker U) bool :=
  λ w,
    let w := z_obecnym_stanem (etap status) (postęp status) (wiadomość status) w in
    match callback_aktualizacji with
    | Some callback =>
        let '(wynik, u) :=
          callback (etap status) (postęp status) (wiadomość status) (stan_callbacku w) in
        let w := z_stanem_callbacku u w in
        match wynik with
        | Zwrócono_False => (false, w)
        | Zwrócono_inne => (true, w)
        | Rzucono _ => (true, w)
        end
    | None => (true, w)
    end.

(** The closure handed to the processor, as the effect it has on the
    worker. *)
Definition callback_z_obsługą_anulowania (status : StatusPostępu)
    (w : TextureWorker U) : TextureWorker U :=
  let '(result, w) := _obsługa_aktualizacji_statusu status w in
  if result then w else z_canceled true w.

(** [TextureWorker.przetwarzaj_folder] *)
Definition worker_przetwarzaj_folder (ścieżka_folderu : string)
    (przeszukuj_podfoldery : bool) (ścieżka_wyjściowa : option string)
    (ścieżka_oiiotool : string) : Stan (TextureWorker U) (Wyjątek + Wyniki) :=
  λ w,
    let w := z_obecnym_stanem "inicjalizacja" 0%Q
               "Inicjalizacja przetwarzania tekstur..." w in
    let w := z_canceled false w in
    match przetwarzaj_folder_tekstur ot ścieżka_folderu ścieżka_wyjściowa
            przeszukuj_podfoldery ścieżka_oiiotool
            (Some callback_z_obsługą_anulowania) true w with
    | (inr r, w) =>
        let w := z_wynikami (Some r) w in
        if canceled w then
          let w := z_obecnym_stanem "anulowano" (postęp_globalny w)
                     "Operacja została anulowana przez użytkownika" w in
          (inr (niepowodzenie "Operacja anulowana przez użytkownika"), w)
        else (inr r, w)
    | (inl (AttributeError e), w) =>
        if zawiera "GeMaxThreadCount" e then
          let w := z_obecnym_stanem "błąd" (postęp_globalny w)
                     "Błąd modułu threading. Używam alternatywnej metody." w in
          match callback_aktualizacji with
          | Some callback =>
              let '(wynik, u) :=
                callback (etap_obecny w) (postęp_globalny w) (wiadomość_obecna w)
                         (stan_callbacku w) in
              let w := z_stanem_callbacku u w in
              match wynik with
              | Rzucono e' => (inl e', w)
              | _ => (inr (niepowodzenie "Błąd modułu threading. Spróbuj ponownie."), w)
              end
          | None => (inr (niepowodzenie "Błąd modułu threading. Spróbuj ponownie."), w)
          end
        else (inl (AttributeError e), w)
    | (inl e, w) =>
        let w := z_obecnym_stanem "błąd" (postęp_globalny w)
                   ("Wystąpił błąd: " +:+ str_wyjątku e) w in
        match callback_aktualizacji with
        | Some callback =>
            let '(wynik, u) :=
              callback (etap_obecny w) (postęp_globalny w) (wiadomość_obecna w)
                       (stan_callbacku w) in
            let w := z_stanem_callbacku u w in
            match wynik with
            | Rzucono e' => (inl e', w)
            | _ => (inl e, w)
            end
        | None => (inl e, w)
        end
    end.
End Worker.

(** ** The runner: [analizuj_folder_tekstur] *)

Section Runner.
Context {U : Type}.
Variable ot : Otoczenie.

(** [aktualizacja_statusu]: logs and returns [True]. *)
Definition aktualizacja_statusu : @Callback U :=
  λ etap postęp wiadomość u, (Zwrócono_inne, u).

(** [adapter_callback]: forwards to the caller's callback and answers
    [True] when it raises. *)
Definition adapter_callback (callback_statusu : @Callback U) : @Callback U :=
  λ etap postep wiadomosc u,
    match callback_statusu etap postep wiadomosc u with
    | (Rzucono _, u) => (Zwrócono_inne, u)
    | odpowiedź => odpowiedź
    end.

Definition analizuj_folder_tekstur (ścieżka_folderu : string)
    (przeszukuj_podfoldery : bool) (callback_statusu : option (@Callback U))
    : Stan U (Wyjątek + Wyniki) :=
  λ u,
    if negb (isdir ot ścieżka_folderu) then
      (inr (niepowodzenie ("Podany folder nie istnieje: " +:+ ścieżka_folderu)), u)
    else
      match przygotuj_folder_raportów ot with
      | inl e => (inl e, u)
      | inr ścieżka_wyjściowa =>
          let callback :=
            match callback_statusu with
            | Some c => adapter_callback c
            | None => aktualizacja_statusu
            end in
          match worker_przetwarzaj_folder ot (Some callback) ścieżka_folderu
                  przeszukuj_podfoldery None (ŚCIEŻKA_OIIOTOOL ot)
                  (nowy_TextureWorker u) with
          | (inl e, w) =>
              (inr (niepowodzenie ("Błąd podczas przetwarzania: " +:+ str_wyjątku e)),
               stan_callbacku w)
          | (inr r, w) =>
              let zapis :=
                match statystyki r with
                | Some st => zapisz_statystyki ot ścieżka_wyjściowa st
                | None => None
                end in
              match zapis with
              | Some e =>
                  (inr (niepowodzenie ("Błąd podczas przetwarzania: " +:+ str_wyjątku e)),
                   stan_callbacku w)
              | None =>
                  (inr {| sukces := Some true; komunikat := komunikat r;
                          pliki_według_rozszerzeń := pliki_według_rozszerzeń r;
                          pliki := pliki r; statystyki := statystyki r;
                          konfiguracja := konfiguracja r;
                          ścieżki_raportów := ścieżki_raportów r;
                          ścieżka_statystyk := Some ścieżka_wyjściowa |},
                   stan_callbacku w)
              end
          end
      end.
End Runner.

(** ** The groups the duplicate passes go through

    The same loops as in the passes, without the progress reports: the
    dictionaries they build and the groups in the order in which the marking
    loops visit them. *)

(** [pliki_według_rozszerzeń] of the hash pass. *)
Definition kubełki (l : list MetadanePliku) : Słownik.t (nat * MetadanePliku) :=
  Słownik.grupuj (λ x, rozszerzenie x.2)
    (filter (λ x, niepusty (hash_sha256 x.2) = true) (enumerate l)).

(** Every [grupa] of every [hashe], bucket after bucket. *)
Definition grupy_hash (l : list MetadanePliku) : list (list (nat * MetadanePliku)) :=
  flat_map (λ b, (Słownik.grupuj (λ x, hash_sha256 x.2) b.2).*2) (kubełki l).

(** Those with [len(grupa) > 1]: the hash-duplicate groups. *)
Definition grupy_dokładne (l : list MetadanePliku) : list (list (nat * MetadanePliku)) :=
  filter (λ g, 1 < length g) (grupy_hash l).

(** [grupy_plików] of the name pass. *)
Definition grupy_nazw (l : list MetadanePliku) : Słownik.t (nat * MetadanePliku) :=
  Słownik.grupuj (λ x, nazwa_bez_rozszerzenia x.2) (enumerate l).

(** The two assignments the hash pass makes to an original and to the
    [j]-th duplicate of group number [n]. *)
Definition jako_oryginał (n : nat) (m : MetadanePliku) : MetadanePliku :=
  z_id_grupy (format_02d n +:+ "-o") (z_flagą ORYGINAŁ m).

Definition jako_duplikat (n j : nat) (m : MetadanePliku) : MetadanePliku :=
  z_id_grupy (format_02d n +:+ "-D" +:+ dec j) (z_flagą DUPLIKAT m).

(** The role of the member at position [p] of a sorted group. *)
Definition rola (n p : nat) : MetadanePliku → MetadanePliku :=
  match p with
  | 0 => jako_oryginał n
  | S _ => jako_duplikat n p
  end.

(** One turn of [for hash_value, grupa in hashe.items()]. *)
Definition krok_hash (stan : nat * list MetadanePliku) (grupa : list (nat * MetadanePliku))
    : nat * list MetadanePliku :=
  if 1 <? length grupa
  then (stan.1 + 1, oznacz_grupę_hash (stan.1 + 1) grupa stan.2)
  else stan.

(** The records that share an extension bucket [e] and a hash [h], with
    their indices, in the order of the list. *)
Definition grupa_hash (l : list MetadanePliku) (e h : string) : list (nat * MetadanePliku) :=
  filter (λ x, rozszerzenie x.2 = e ∧ hash_sha256 x.2 = h) (enumerate l).

(** One turn of the marking loop on a group that has more than one member. *)
Definition krok_dokładny (stan : nat * list MetadanePliku)
    (grupa : list (nat * MetadanePliku)) : nat * list MetadanePliku :=
  (stan.1 + 1, oznacz_grupę_hash (stan.1 + 1) grupa stan.2).

(** The records that share a file name without extension, with their
    indices, in the order of the list. *)
Definition grupa_nazw (l : list MetadanePliku) (nazwa : string) : list (nat * MetadanePliku) :=
  filter (λ x, nazwa_bez_rozszerzenia x.2 = nazwa) (enumerate l).

(** The groups of the name pass with [len(grupa) > 1]. *)
Definition grupy_możliwe (l : list MetadanePliku) : list (list (nat * MetadanePliku)) :=
  filter (λ g, 1 < length g) (grupy_nazw l).*2.

(** The assignment the name pass makes to the member at position [p] of a
    sorted group. *)
Definition rola_nazw (p : nat) : MetadanePliku → MetadanePliku :=
  match p with
  | 0 => z_flagą ORYGINAŁ
  | S _ => z_flagą MOŻLIWY_DUPLIKAT
  end.

(** One turn of [for i, (nazwa, grupa) in enumerate(grupy_plików.items())]. *)
Definition krok_nazw (metadane_plików : list MetadanePliku)
    (grupa : list (nat * MetadanePliku)) : list MetadanePliku :=
  if 1 <? length grupa then oznacz_grupę_nazw grupa metadane_plików else metadane_plików.

(** What the duplicate passes read and write of a record, and its path. *)
Definition oznaczenia (m : MetadanePliku) : string * string * string * string * string * nat :=
  (ścieżka m, rozszerzenie m, flaga m, id_grupy m, hash_sha256 m, data_utworzenia m).

(** The bucket of a path: [przetwórz_plik(ścieżka)[0]]. *)
Definition kategoria (ścieżka_pliku : string) : string := (przetwórz_plik ścieżka_pliku).1.

(** ** The stages one after another

    The lists that [przetwarzaj_folder] hands from stage to stage, read off
    a run that has no callback. *)
Section Etapy.
Variable ot : Otoczenie.
Variable oiiotool_dostępny : bool.
Variables (ścieżka_folderu : string) (przeszukuj_podfoldery : bool).

Definition pliki_wg_rozszerzeń : Słownik.t string :=
  (_znajdź_i_posortuj_pliki (S := unit) ot None ścieżka_folderu przeszukuj_podfoldery tt).1.

Definition rekordy_podstawowe : list MetadanePliku :=
  (_utwórz_podstawowe_metadane (S := unit) ot None pliki_wg_rozszerzeń tt).1.

Definition rekordy_po_nazwach : list MetadanePliku :=
  (_oznacz_możliwe_duplikaty (S := unit) None rekordy_podstawowe tt).1.

Definition rekordy_po_hashach : list MetadanePliku :=
  (_oblicz_hashe (S := unit) ot None rekordy_po_nazwach tt).1.

Definition rekordy_po_duplikatach : list MetadanePliku :=
  (_oznacz_dokładne_duplikaty (S := unit) None rekordy_po_hashach tt).1.

Definition rekordy_końcowe : list MetadanePliku :=
  (_pobierz_metadane_graficzne ot oiiotool_dostępny rekordy_po_duplikatach).1.
End Etapy.

(** ** Runs against a callback

    [wykonaj] feeds a list of events to a callback, one after another. *)
Definition wykonaj {S} (cb : option (StatusPostępu → S → S))
    (zdarzenia : list StatusPostępu) (s : S) : S :=
  fold_left (λ s e, match cb with Some f => f e s | None => s end) zdarzenia s.

(** The callback that only records what it is given. *)
Definition rejestruj : option (StatusPostępu → list StatusPostępu → list StatusPostępu) :=
  Some (λ e s, s ++ [e]).

Definition Pisarz {A} (m : ∀ S, option (StatusPostępu → S → S) → Stan S A) : Prop :=
  ∃ a zdarzenia, ∀ S cb s, m S cb s = (a, wykonaj cb zdarzenia s).

(** The progress events of a whole run, in the order in which the callback
    receives them. *)
Definition zdarzenia_procesora (ot : Otoczenie) (ścieżka_oiiotool : string)
    (oiiotool_dostępny : bool) (ścieżka_folderu : string) (przeszukuj_podfoldery : bool)
    : list StatusPostępu :=
  (przetwarzaj_folder ot ścieżka_oiiotool rejestruj oiiotool_dostępny
     ścieżka_folderu przeszukuj_podfoldery []).2.

(** The result of a whole run. *)
Definition wyniki_procesora (ot : Otoczenie) (ścieżka_oiiotool : string)
    (oiiotool_dostępny : bool) (ścieżka_folderu : string) (przeszukuj_podfoldery : bool)
    : Wyniki :=
  (przetwarzaj_folder (S := unit) ot ścieżka_oiiotool None oiiotool_dostępny
     ścieżka_folderu przeszukuj_podfoldery tt).1.

(** A record no hash group has touched: no group id, and a flag the name
    pass can give. *)
Definition bez_grupy (m : MetadanePliku) : Prop :=
  id_grupy m = ""
  ∧ (flaga m = "" ∨ flaga m = ORYGINAŁ ∨ flaga m = MOŻLIWY_DUPLIKAT).

(** Ascending by key and, among equal keys, by position: the order a
    stable sort by [klucz] gives to a list whose positions are [poz]. *)
Definition wcześniej {A} (klucz poz : A → nat) (x y : A) : Prop :=
  klucz x < klucz y ∨ (klucz x = klucz y ∧ poz x < poz y).

(** ** The callback of the caller, event after event *)

(** The state of the caller's callback after it has been given the events,
    and the answers it gave. *)
Fixpoint stan_po {U} (cb : @Callback U) (zdarzenia : list StatusPostępu) (u : U) : U :=
  match zdarzenia with
  | [] => u
  | e :: es => stan_po cb es (cb (etap e) (postęp e) (wiadomość e) u).2
  end.

Fixpoint odpowiedzi {U} (cb : @Callback U) (zdarzenia : list StatusPostępu) (u : U)
    : list Odpowiedź :=
  match zdarzenia with
  | [] => []
  | e :: es =>
      let '(o, u') := cb (etap e) (postęp e) (wiadomość e) u in
      o :: odpowiedzi cb es u'
  end.

(** ** A sample directory

    [a.png] and [a.jpg] share a name, [b.png] and [c.png] share their bytes,
    and so do [x.txt] and [y.doc]; [a.png] and [b.png] are the older files.
    The specialised tool is absent, the generic decoder fails on [a.jpg]. *)
Definition ot_przykład : Otoczenie :=
  {| isdir := λ p, bool_decide (p = "/t");
     pliki_folderu := λ _ _,
       ["/t/a.png"; "/t/a.jpg"; "/t/b.png"; "/t/c.png"; "/t/x.txt"; "/t/y.doc"];
     stat := λ p,
       Some (1%Q, if bool_decide (p ∈ ["/t/a.png"; "/t/b.png"]) then 10%Q else 20%Q, 30%Q);
     fromtimestamp := λ t, Z.to_nat (Qfloor t);
     sha256 := λ p,
       if bool_decide (p ∈ ["/t/b.png"; "/t/c.png"]) then Some "bb"
       else if bool_decide (p ∈ ["/t/x.txt"; "/t/y.doc"]) then Some "cc"
       else Some p;
     sprawdz_oiiotool := λ p, (p, false);
     oiiotool := λ _, OIIO_błąd "oiiotool: brak";
     pil := λ p,
       if bool_decide (p = "/t/a.jpg") then PIL_wyjątek "cannot identify image file"
       else PIL_obraz 4 4 "RGBA" false;
     kolejność_ukończenia := λ n, seq 0 n;
     zapisz_wyniki_do_json := λ _ _ _, [];
     przygotuj_folder_raportów := inr "/r/statystyki_tekstur.json";
     zapisz_statystyki := λ _ _, None;
     ŚCIEŻKA_OIIOTOOL := "oiiotool.exe" |}.

(** A callback that keeps the names of the stages it was told about and
    answers [False] every time. *)
Definition cb_przerywa : @Callback (list string) :=
  λ etap postęp wiadomość u, (Zwrócono_False, u ++ [etap]).

(** The records the sample pipeline hands to the hash pass. *)
Definition l_przykład : list MetadanePliku := rekordy_po_hashach ot_przykład "/t" false.

(** ** Progress events, stage by stage *)

(** An event of the stage [nazwa] whose progress lies between 0 and 1. *)
Definition w_etapie (nazwa : string) (e : StatusPostępu) : Prop :=
  etap e = nazwa ∧ (0 <= postęp e)%Q ∧ (postęp e <= 1)%Q.

(** A writer all of whose events satisfy [P]. *)
Definition Pisarz_z {A} (P : StatusPostępu → Prop)
    (m : ∀ S, option (StatusPostępu → S → S) → Stan S A) : Prop :=
  ∃ a zdarzenia, Forall P zdarzenia ∧ ∀ S cb s, m S cb s = (a, wykonaj cb zdarzenia s).

(** The event with which [przetwarzaj_folder] opens a stage, and the one
    with which it closes the run. *)
Definition początek_etapu (nazwa wiadomość : string) : StatusPostępu :=
  {| etap := nazwa; postęp := 0%Q; wiadomość := wiadomość; szczegóły := [] |}.

Definition koniec_przetwarzania : StatusPostępu :=
  {| etap := "zakończono"; postęp := 1%Q; wiadomość := "Przetwarzanie zakończone.";
     szczegóły := [] |}.

(** A directory in which discovery finds no file. *)
Definition ot_pusty : Otoczenie :=
  {| isdir := λ p, bool_decide (p = "/pusty");
     pliki_folderu := λ _ _, [];
     stat := λ _, None;
     fromtimestamp := λ t, Z.to_nat (Qfloor t);
     sha256 := λ _, None;
     sprawdz_oiiotool := λ p, (p, false);
     oiiotool := λ _, OIIO_błąd "oiiotool: brak";
     pil := λ _, PIL_wyjątek "cannot identify image file";
     kolejność_ukończenia := λ n, seq 0 n;
     zapisz_wyniki_do_json := λ _ _ _, [];
     przygotuj_folder_raportów := inr "/r/statystyki_tekstur.json";
     zapisz_statystyki := λ _ _, None;
     ŚCIEŻKA_OIIOTOOL := "oiiotool.exe" |}.

(** ** The image metadata stage, task by task *)

(** The answer of a task: (index, dictionary or [None], tool, error). *)
Definition OdpowiedźZadania : Type := nat * option MetadaneGraficzne * string * string.

(** What the collecting loop writes into the record of a file, given the
    answer of its task. *)
Definition po_analizie (wynik : OdpowiedźZadania) (m : MetadanePliku) : MetadanePliku :=
  let '(_, metadane, narzędzie, błąd) := wynik in
  match metadane with
  | Some d =>
      let m := z_narzędziem narzędzie (z_metadanymi d m) in
      if niepusty błąd then z_błędem błąd m else m
  | None => m
  end.

(** The task answered with a dictionary and the name of this tool. *)
Definition przez (narzędzie : string) (wynik : OdpowiedźZadania) : Prop :=
  is_Some wynik.1.1.2 ∧ wynik.1.2 = narzędzie.

(** [stats_narzędzia] with [błędy] under ["błąd"] and [poprawne] under
    ["formaty_oiiotool"]["poprawnie"], every other counter at zero. *)
Definition liczniki (błędy poprawne : nat) : StatsNarzędzia :=
  [("oiiotool", Liczba 0); ("PIL", Liczba 0); ("brak", Liczba 0);
   ("błąd", Liczba błędy);
   ("formaty_oiiotool", Podsłownik [("poprawnie", poprawne); ("niepoprawnie", 0)])].

(** The answers a task can give: no dictionary, or a dictionary with the
    name of the backend that built it and no error text. *)
Definition kształt_odpowiedzi (wynik : OdpowiedźZadania) : Prop :=
  wynik.1.1.2 = None
  ∨ (is_Some wynik.1.1.2 ∧ wynik.2 = "" ∧ (wynik.1.2 = "oiiotool" ∨ wynik.1.2 = "PIL")).

(** A record the image metadata stage has not written to. *)
Definition nieanalizowany (m : MetadanePliku) : Prop :=
  narzędzie_analizy m = "" ∧ błąd_analizy m = ""
  ∧ szerokość m = None ∧ wysokość m = None ∧ kanał_alpha m = None
  ∧ głębia_bitowa m = None ∧ profil_koloru m = None.

(** ** Identifiers as the specification words them

    The specification gives the identifier of a group as a number written
    in decimal, padded to two digits.  These definitions say what such a
    text is by reading it, without the formatting functions of the code. *)

(** Modelled from the spec: the value of a decimal digit, a character
    from ["0"] (code 48) to ["9"] (code 57). *)
Definition cyfra (c : ascii) : option nat :=
  let kod := nat_of_ascii c in
  if (48 <=? kod) && (kod <=? 57) then Some (kod - 48) else None.

(** Modelled from the spec: the number that digits denote when they follow
    digits already read as [acc]. *)
Fixpoint czytaj_od (acc : nat) (s : string) : option nat :=
  match s with
  | "" => Some acc
  | String c s' =>
      match cyfra c with
      | Some d => czytaj_od (10 * acc + d) s'
      | None => None
      end
  end.

(** Modelled from the spec: the number a non-empty text of decimal digits
    denotes. *)
Definition czytaj (s : string) : option nat :=
  match s with
  | "" => None
  | _ => czytaj_od 0 s
  end.

(** Modelled from the spec: [s] is the number [n] in decimal, with no zero
    before a longer numeral. *)
Definition zapis_dziesiętny (n : nat) (s : string) : Prop :=
  czytaj s = Some n ∧ (1 < String.length s → String.get 0 s ≠ Some "0"%char).

(** Modelled from the spec: [s] is the 2-digit-zero-padded number [n]: two
    digits while [n] fits in them, the plain numeral beyond. *)
Definition zapis_dwucyfrowy (n : nat) (s : string) : Prop :=
  czytaj s = Some n ∧ 2 ≤ String.length s
  ∧ (2 < String.length s → String.get 0 s ≠ Some "0"%char).

#[global] Instance zapis_dziesiętny_dec n s : Decision (zapis_dziesiętny n s).
Proof. unfold zapis_dziesiętny. apply _. Defined.

#[global] Instance zapis_dwucyfrowy_dec n s : Decision (zapis_dwucyfrowy n s).
Proof. unfold zapis_dwucyfrowy. apply _. Defined.

(** ** A directory across a change of the clock

    [b.png] and [c.png] share their bytes, [c.png] and [c.jpg] share a name.
    The local clock is set back by 30 seconds at the time stamp 60: [b.png],
    written at 50, carries the local time 80, and [c.png], written at 70,
    carries 70. *)
Definition ot_zmiana_czasu : Otoczenie :=
  {| isdir := λ p, bool_decide (p = "/t");
     pliki_folderu := λ _ _, ["/t/b.png"; "/t/c.png"; "/t/c.jpg"];
     stat := λ p,
       Some (1%Q,
             if bool_decide (p = "/t/b.png") then 50%Q
             else if bool_decide (p = "/t/c.png") then 70%Q else 5%Q,
             90%Q);
     fromtimestamp := λ t,
       let sekundy := Z.to_nat (Qfloor t) in
       if sekundy <? 60 then sekundy + 30 else sekundy;
     sha256 := λ p,
       if bool_decide (p ∈ ["/t/b.png"; "/t/c.png"]) then Some "bb" else Some p;
     sprawdz_oiiotool := λ p, (p, false);
     oiiotool := λ _, OIIO_błąd "oiiotool: brak";
     pil := λ _, PIL_obraz 4 4 "RGBA" false;
     kolejność_ukończenia := λ n, seq 0 n;
     zapisz_wyniki_do_json := λ _ _ _, [];
     przygotuj_folder_raportów := inr "/r/statystyki_tekstur.json";
     zapisz_statystyki := λ _ _, None;
     ŚCIEŻKA_OIIOTOOL := "oiiotool.exe" |}.

(** * Properties *)

(** ** A stage is a writer of progress events

    Whatever the callback does to its state, a stage returns the same value
    and hands the same events to it, in the same order. *)

Lemma wykonaj_app {S} (cb : option (StatusPostępu → S → S)) e1 e2 s :
  wykonaj cb (e1 ++ e2) s = wykonaj cb e2 (wykonaj cb e1 s).
Proof. unfold wykonaj. by rewrite fold_left_app. Qed.

Lemma wykonaj_rejestruj zdarzenia s : wykonaj rejestruj zdarzenia s = s ++ zdarzenia.
Proof.
  revert s. induction zdarzenia as [|e es IH]; intros s; simpl.
  - by rewrite app_nil_r.
  - rewrite IH. by rewrite <- app_assoc.
Qed.

Lemma wykonaj_None {S} zdarzenia (s : S) : wykonaj None zdarzenia s = s.
Proof. induction zdarzenia; simpl; auto. Qed.

Lemma Pisarz_zwróć {A} (a : A) : Pisarz (λ S _, @zwróć S A a).
Proof. exists a, []. reflexivity. Qed.

Lemma Pisarz_raportuj e p w sz :
  Pisarz (λ S cb, @_raportuj_status S cb e p w sz).
Proof.
  exists tt, [ {| etap := e; postęp := p; wiadomość := w; szczegóły := sz |} ].
  intros S [f|] s; reflexivity.
Qed.

Lemma Pisarz_potem {A B} (m : ∀ S, option (StatusPostępu → S → S) → Stan S A)
    (k : ∀ S, option (StatusPostępu → S → S) → A → Stan S B) :
  Pisarz m → (∀ a, Pisarz (λ S cb, k S cb a)) →
  Pisarz (λ S cb, potem (m S cb) (k S cb)).
Proof.
  intros (a & e1 & Hm) Hk. destruct (Hk a) as (b & e2 & Hb).
  exists b, (e1 ++ e2). intros S cb s.
  unfold potem. rewrite Hm, Hb. by rewrite wykonaj_app.
Qed.

Lemma Pisarz_gdy (c : bool) (m : ∀ S, option (StatusPostępu → S → S) → Stan S unit) :
  Pisarz m → Pisarz (λ S cb, gdy c (m S cb)).
Proof. destruct c; simpl; [done | intros _; apply Pisarz_zwróć]. Qed.

Lemma Pisarz_dla_każdego {A B}
    (ciało : ∀ S, option (StatusPostępu → S → S) → B → A → Stan S B) xs :
  (∀ b x, Pisarz (λ S cb, ciało S cb b x)) →
  ∀ b, Pisarz (λ S cb, dla_każdego (ciało S cb) xs b).
Proof.
  intros Hc. induction xs as [|x xs IH]; intros b; simpl.
  - apply Pisarz_zwróć.
  - apply (Pisarz_potem (λ S cb, ciało S cb b x)
             (λ S cb b', dla_każdego (ciało S cb) xs b')); auto.
Qed.

Lemma Pisarz_ext {A} (m m' : ∀ S, option (StatusPostępu → S → S) → Stan S A) :
  (∀ S cb s, m S cb s = m' S cb s) → Pisarz m → Pisarz m'.
Proof.
  intros He (a & es & Hm). exists a, es. intros. by rewrite <- He.
Qed.

(** The value and the events of a writer, read off two runs of it. *)
Lemma Pisarz_rozkład {A} (m : ∀ S, option (StatusPostępu → S → S) → Stan S A) :
  Pisarz m →
  ∀ S cb s, m S cb s = ((m unit None tt).1, wykonaj cb (m _ rejestruj []).2 s).
Proof.
  intros (a & es & Hm) S cb s.
  rewrite !Hm. simpl. by rewrite wykonaj_rejestruj.
Qed.

(** The value of a loop whose body's value does not depend on the state. *)
Lemma dla_każdego_wartość {S A B} (ciało : B → A → Stan S B) (g : B → A → B) :
  (∀ b x s, (ciało b x s).1 = g b x) →
  ∀ xs b s, (dla_każdego ciało xs b s).1 = fold_left g xs b.
Proof.
  intros Hc. induction xs as [|x xs IH]; intros b s; simpl; [done|].
  unfold potem. specialize (Hc b x s). destruct (ciało b x s) as [b' s'].
  simpl in Hc. subst b'. apply IH.
Qed.

Lemma potem_zwróć_wartość {S A B} (m : Stan S A) (b : B) s :
  (potem m (λ _, zwróć b) s).1 = b.
Proof. unfold potem. by destruct (m s). Qed.
(** ** The stable sort *)

Section Sortowanie_własności.
Context {A : Type} (klucz : A → nat) (poz : A → nat).

Lemma wstaw_perm x s : wstaw klucz x s ≡ₚ x :: s.
Proof.
  induction s as [|y s IH]; simpl; [done|].
  destruct (klucz y <? klucz x); [|done].
  rewrite IH. apply Permutation_swap.
Qed.

Lemma sortuj_perm g : sortuj klucz g ≡ₚ g.
Proof.
  induction g as [|x g IH]; simpl; [done|].
  rewrite wstaw_perm. by rewrite IH.
Qed.

Lemma length_sortuj g : length (sortuj klucz g) = length g.
Proof. by rewrite sortuj_perm. Qed.

Lemma wstaw_sorted x s :
  StronglySorted (wcześniej klucz poz) s → Forall (λ y, poz x < poz y) s →
  StronglySorted (wcześniej klucz poz) (wstaw klucz x s).
Proof.
  induction 1 as [|y s Hs IH Hy]; intros Hx; simpl.
  - repeat constructor.
  - apply Forall_cons in Hx as [Hxy Hx].
    destruct (Nat.ltb_spec (klucz y) (klucz x)) as [Hlt|Hge].
    + constructor; [by apply IH|].
      rewrite wstaw_perm. constructor; [by left | done].
    + constructor; [by constructor|].
      assert (wcześniej klucz poz x y) as Hw by (unfold wcześniej; lia).
      constructor; [done|].
      eapply Forall_impl; [apply Forall_and; split; [exact Hy | exact Hx]|].
      simpl. intros z [Hz Hpz]. unfold wcześniej in *. lia.
Qed.

Lemma sortuj_sorted g :
  StronglySorted (λ x y, poz x < poz y) g →
  StronglySorted (wcześniej klucz poz) (sortuj klucz g).
Proof.
  induction 1 as [|x g Hg IH Hx]; simpl; [constructor|].
  apply wstaw_sorted; [done|].
  by rewrite sortuj_perm.
Qed.
End Sortowanie_własności.

(** ** Lists *)

Lemma filter_brak {A} (P : A → Prop) `{∀ x, Decision (P x)} (l : list A) :
  (∀ x, x ∈ l → ¬ P x) → filter P l = [].
Proof.
  induction l as [|x l IH]; intros Hl; [done|].
  rewrite filter_cons_False; [|apply Hl; left].
  apply IH. intros y Hy. apply Hl. by right.
Qed.

(** ** Grouping into an insertion-ordered dictionary *)

Section Grupowanie.
Context {V : Type} (klucz : V → string).
Import Słownik.

Lemma grupuj_snoc xs x :
  grupuj klucz (xs ++ [x]) = dopisz (klucz x) x (grupuj klucz xs).
Proof. unfold grupuj. by rewrite fold_left_app. Qed.

Lemma dopisz_klucze k (v : V) d :
  (dopisz k v d).*1 = if decide (k ∈ d.*1) then d.*1 else d.*1 ++ [k].
Proof.
  induction d as [|[k' g] d IH]; csimpl.
  - destruct (decide (k ∈ [])) as [Hin|_]; [by apply elem_of_nil in Hin | done].
  - destruct (decide (k' = k)) as [->|Hne]; csimpl.
    + rewrite decide_True; [done | left].
    + rewrite IH. destruct (decide (k ∈ d.*1)) as [Hin|Hnin].
      * rewrite decide_True; [done | by right].
      * rewrite decide_False; [done|].
        intros Hin. apply elem_of_cons in Hin as [->|?]; done.
Qed.

Lemma dopisz_concat k (v : V) d :
  concat (dopisz k v d).*2 ≡ₚ v :: concat d.*2.
Proof.
  induction d as [|[k' g] d IH]; csimpl; [done|].
  destruct (decide (k' = k)); csimpl.
  - rewrite <- app_assoc. simpl.
    by rewrite <- Permutation_middle.
  - rewrite IH. by rewrite <- Permutation_middle.
Qed.

Lemma elem_of_dopisz k (v : V) d k' g' :
  NoDup d.*1 →
  (k', g') ∈ dopisz k v d →
  (k' ≠ k ∧ (k', g') ∈ d)
  ∨ (k' = k ∧ (∃ g, (k, g) ∈ d ∧ g' = g ++ [v]))
  ∨ (k' = k ∧ (k ∉ d.*1) ∧ g' = [v]).
Proof.
  induction d as [|[k0 g0] d IH]; csimpl; intros Hnd Hin.
  - apply list_elem_of_singleton in Hin. inversion Hin; subst.
    right; right. split_and!; [done | apply not_elem_of_nil | done].
  - apply NoDup_cons in Hnd as [Hk0 Hnd].
    destruct (decide (k0 = k)) as [->|Hne].
    + apply elem_of_cons in Hin as [Heq|Hin].
      * inversion Heq; subst. right; left. split; [done|].
        exists g0. split; [left | done].
      * left. split; [|by right].
        intros ->. apply Hk0. apply list_elem_of_fmap. by exists (k, g').
    + apply elem_of_cons in Hin as [Heq|Hin].
      * inversion Heq; subst. left. split; [done | left].
      * destruct (IH Hnd Hin) as [[? ?]|[[-> (g & Hg & ->)]|[-> [Hk ->]]]].
        -- left. split; [done | by right].
        -- right; left. split; [done|]. exists g. split; [by right | done].
        -- right; right. split_and!; [done| |done].
           intros Hin'. apply elem_of_cons in Hin' as [->|?]; done.
Qed.

(** What the grouping loop has built after it has gone through [xs]. *)
Lemma grupuj_własności xs :
  NoDup (grupuj klucz xs).*1
  ∧ (∀ k g, (k, g) ∈ grupuj klucz xs →
            g = filter (λ x, klucz x = k) xs ∧ g ≠ [])
  ∧ (∀ x, x ∈ xs → klucz x ∈ (grupuj klucz xs).*1).
Proof.
  induction xs as [|x xs (Hnd & Hg & Hk)] using rev_ind.
  - split_and!; [constructor | | ].
    + intros k g Hin. by apply elem_of_nil in Hin.
    + intros x Hin. by apply elem_of_nil in Hin.
  - rewrite grupuj_snoc. split_and!.
    + rewrite dopisz_klucze. destruct (decide _) as [|Hn]; [done|].
      apply NoDup_app. split_and!; [done | | apply NoDup_singleton].
      intros y Hy Hy'. apply list_elem_of_singleton in Hy'. by subst.
    + intros k g Hin. rewrite filter_app.
      apply elem_of_dopisz in Hin as [[Hne Hin]|[[-> (g0 & Hin & ->)]|[-> [Hnk ->]]]];
        [| | |done].
      * destruct (Hg _ _ Hin) as [-> Hnn]. split; [|done].
        rewrite (filter_cons_False _ x); [|by intros <-].
        rewrite filter_nil. by rewrite app_nil_r.
      * destruct (Hg _ _ Hin) as [-> Hnn]. split.
        -- by rewrite (filter_cons_True _ x).
        -- by destruct (filter _ xs).
      * split; [|done].
        rewrite (filter_cons_True _ x); [|done].
        rewrite filter_brak; [done|].
        intros y Hy Heq. apply Hnk. rewrite <- Heq. by apply Hk.
    + intros y Hy. rewrite dopisz_klucze.
      apply elem_of_app in Hy as [Hy|Hy].
      * destruct (decide _); [by apply Hk|].
        apply elem_of_app. left. by apply Hk.
      * apply list_elem_of_singleton in Hy as ->.
        destruct (decide _) as [|Hn]; [done|].
        apply elem_of_app. right. left.
Qed.

Lemma grupuj_concat xs : concat (grupuj klucz xs).*2 ≡ₚ xs.
Proof.
  induction xs as [|x xs IH] using rev_ind; [done|].
  rewrite grupuj_snoc, dopisz_concat, IH.
  by rewrite <- Permutation_cons_append.
Qed.
End Grupowanie.

(** ** Folds *)

Lemma fold_left_filter {A B} (P : A → Prop) `{∀ x, Decision (P x)}
    (f : B → A → B) (xs : list A) (b : B) :
  fold_left (λ b x, if decide (P x) then f b x else b) xs b
  = fold_left f (filter P xs) b.
Proof.
  revert b. induction xs as [|x xs IH]; intros b; [done|].
  rewrite filter_cons. simpl. destruct (decide (P x)); simpl; apply IH.
Qed.

Lemma fold_left_imap_snd {A B I} (f : B → A → B) (g : nat → I) (xs : list A) (b : B) :
  fold_left (λ b ix, f b ix.2) (imap (λ i x, (g i, x)) xs) b = fold_left f xs b.
Proof.
  revert g b. induction xs as [|x xs IH]; intros g b; [done|].
  simpl. apply (IH (g ∘ S)).
Qed.

Lemma fold_left_enumerate {A B} (f : B → A → B) (xs : list A) (b : B) :
  fold_left (λ b ix, f b ix.2) (enumerate xs) b = fold_left f xs b.
Proof. apply (fold_left_imap_snd f id). Qed.

Lemma fold_left_flat_map {A B C} (f : B → C → B) (g : A → list C) (xs : list A) (b : B) :
  fold_left f (flat_map g xs) b = fold_left (λ b x, fold_left f (g x) b) xs b.
Proof.
  revert b. induction xs as [|x xs IH]; intros b; [done|].
  simpl. rewrite fold_left_app. apply IH.
Qed.

Lemma fold_left_ext_eq {A B} (f g : B → A → B) (xs : list A) (b : B) :
  (∀ b x, f b x = g b x) → fold_left f xs b = fold_left g xs b.
Proof.
  intros Hfg. revert b. induction xs as [|x xs IH]; intros b; [done|].
  simpl. rewrite Hfg. apply IH.
Qed.

Lemma fold_left_fmap {A B C} (f : B → C → B) (h : A → C) (xs : list A) (b : B) :
  fold_left f (h <$> xs) b = fold_left (λ b x, f b (h x)) xs b.
Proof.
  revert b. induction xs as [|x xs IH]; intros b; [done|]. simpl. apply IH.
Qed.

Lemma potem_wartość {S A B} (m : Stan S A) (k : A → Stan S B) s :
  (potem m k s).1 = (k (m s).1 (m s).2).1.
Proof. unfold potem. by destruct (m s). Qed.

(** ** [enumerate] *)

Lemma elem_of_enumerate {A} (l : list A) i x :
  (i, x) ∈ enumerate l ↔ l !! i = Some x.
Proof.
  unfold enumerate. rewrite elem_of_lookup_imap. split.
  - intros (j & y & Heq & Hl). by inversion Heq; subst.
  - intros Hl. by exists i, x.
Qed.

Lemma imap_przesunięte_sorted {A} (l : list A) k :
  StronglySorted (λ x y : nat * A, x.1 < y.1) (imap (λ i x, (k + i, x)) l).
Proof.
  revert k. induction l as [|x l IH]; intros k; [constructor|].
  rewrite imap_cons.
  rewrite (imap_ext _ (λ i x, (S k + i, x))); [|intros; simpl; f_equal; lia].
  constructor; [apply IH|].
  apply Forall_forall. intros [j y] Hin.
  apply elem_of_lookup_imap in Hin as (i & z & Heq & _).
  inversion Heq; subst. simpl. lia.
Qed.

Lemma enumerate_rosnące {A} (l : list A) :
  StronglySorted (λ x y : nat * A, x.1 < y.1) (enumerate l).
Proof. apply (imap_przesunięte_sorted l 0). Qed.

Lemma StronglySorted_nodup {A} (f : A → nat) (l : list A) :
  StronglySorted (λ x y, f x < f y) l → NoDup (f <$> l).
Proof.
  induction 1 as [|x l Hl IH Hx]; csimpl; constructor; [|done].
  intros Hin. apply list_elem_of_fmap in Hin as (y & Heq & Hy).
  rewrite Forall_forall in Hx. specialize (Hx y Hy). lia.
Qed.

Lemma StronglySorted_filter {A} (R : A → A → Prop) (P : A → Prop)
    `{∀ x, Decision (P x)} (l : list A) :
  StronglySorted R l → StronglySorted R (filter P l).
Proof.
  induction 1 as [|x l Hl IH Hx]; [constructor|].
  rewrite filter_cons. destruct (decide (P x)); [|done].
  constructor; [done|].
  rewrite Forall_forall in *. intros y Hy. apply Hx.
  by apply list_elem_of_filter in Hy as [_ ?].
Qed.

Lemma enumerate_nodup {A} (l : list A) : NoDup (enumerate l).*1.
Proof. apply (StronglySorted_nodup fst), enumerate_rosnące. Qed.

(** ** The hash pass without its progress reports *)

Lemma oznacz_grupy_hash_krok hashe stan :
  oznacz_grupy_hash hashe stan = fold_left krok_hash hashe.*2 stan.
Proof.
  unfold oznacz_grupy_hash. rewrite fold_left_fmap.
  apply fold_left_ext_eq. by intros [c lst] [h g].
Qed.

Lemma _oznacz_dokładne_duplikaty_wartość {S} cb (l : list MetadanePliku) (s : S) :
  (_oznacz_dokładne_duplikaty cb l s).1 = (fold_left krok_hash (grupy_hash l) (0, l)).2.
Proof.
  unfold _oznacz_dokładne_duplikaty.
  rewrite potem_wartość.
  rewrite (dla_każdego_wartość _
             (λ d ix, if decide (niepusty (hash_sha256 ix.2) = true)
                      then Słownik.dopisz (rozszerzenie ix.2) ix d else d)).
  2:{ intros d [i meta] s'. rewrite potem_zwróć_wartość. simpl.
      by destruct (niepusty (hash_sha256 meta)). }
  rewrite (fold_left_filter (λ ix : nat * MetadanePliku, niepusty (hash_sha256 ix.2) = true)
             (λ d ix, Słownik.dopisz (rozszerzenie ix.2) ix d)).
  fold (Słownik.grupuj (λ x : nat * MetadanePliku, rozszerzenie x.2)
          (filter (λ x, niepusty (hash_sha256 x.2) = true) (enumerate l))).
  fold (kubełki l).
  rewrite potem_wartość. simpl.
  rewrite (dla_każdego_wartość _
             (λ stan ix, oznacz_grupy_hash
                           (Słownik.grupuj (λ x : nat * MetadanePliku, hash_sha256 x.2) ix.2.2)
                           stan)).
  2:{ intros stan [i [e p]] s'. by rewrite potem_zwróć_wartość. }
  rewrite (fold_left_enumerate
             (λ stan b, oznacz_grupy_hash
                          (Słownik.grupuj (λ x : nat * MetadanePliku, hash_sha256 x.2) b.2)
                          stan)).
  unfold grupy_hash. rewrite fold_left_flat_map.
  f_equal. apply fold_left_ext_eq. intros stan b. apply oznacz_grupy_hash_krok.
Qed.

(** ** Marking one group *)

Lemma lookup_ustaw_flagę_id idx f v (l : list MetadanePliku) i :
  ustaw_id_grupy idx v (ustaw_flagę idx f l) !! i
  = if decide (i = idx) then (λ m, z_id_grupy v (z_flagą f m)) <$> l !! i else l !! i.
Proof.
  unfold ustaw_id_grupy, ustaw_flagę.
  rewrite !list_lookup_alter.
  repeat case_decide; subst; try congruence; by destruct (l !! _).
Qed.

Lemma oznacz_duplikaty_spec pref (r : list (nat * MetadanePliku)) k lst :
  NoDup r.*1 →
  let out :=
    fold_left
      (λ lst '(j, (dup_idx, _)),
         ustaw_id_grupy dup_idx (pref +:+ "-D" +:+ dec (j + 1))
           (ustaw_flagę dup_idx DUPLIKAT lst))
      (imap (λ j x, (k + j, x)) r) lst in
  (∀ p i m, r !! p = Some (i, m) →
     out !! i = (λ m, z_id_grupy (pref +:+ "-D" +:+ dec (k + p + 1)) (z_flagą DUPLIKAT m))
                  <$> lst !! i)
  ∧ (∀ i, i ∉ r.*1 → out !! i = lst !! i).
Proof.
  revert k lst. induction r as [|[i0 m0] r IH]; intros k lst Hnd; csimpl.
  - split; [intros p i m Hp; by rewrite lookup_nil in Hp | done].
  - apply NoDup_cons in Hnd as [Hi0 Hnd].
    rewrite (imap_ext _ (λ j x, (S k + j, x))); [|intros; simpl; f_equal; lia].
    destruct (IH (S k) (ustaw_id_grupy i0 (pref +:+ "-D" +:+ dec (k + 0 + 1))
                          (ustaw_flagę i0 DUPLIKAT lst)) Hnd) as [IH1 IH2].
    split.
    + intros [|p] i m Hp; simpl in Hp.
      * inversion Hp; subst. rewrite IH2 by done.
        rewrite lookup_ustaw_flagę_id. by rewrite decide_True.
      * rewrite (IH1 p i m Hp). rewrite lookup_ustaw_flagę_id.
        rewrite decide_False.
        -- by replace (S k + p + 1) with (k + S p + 1) by lia.
        -- intros ->. apply Hi0. apply list_elem_of_fmap.
           exists (i0, m). split; [done|]. by eapply list_elem_of_lookup_2.
    + intros i Hi. apply not_elem_of_cons in Hi as [Hne Hi].
      rewrite IH2 by done. rewrite lookup_ustaw_flagę_id. by rewrite decide_False.
Qed.

Lemma oznacz_grupę_hash_spec n (g : list (nat * MetadanePliku)) lst :
  NoDup g.*1 →
  let out := oznacz_grupę_hash n g lst in
  (∀ p i m, sortuj klucz_daty g !! p = Some (i, m) → out !! i = rola n p <$> lst !! i)
  ∧ (∀ i, i ∉ g.*1 → out !! i = lst !! i).
Proof.
  intros Hnd. unfold oznacz_grupę_hash.
  assert (NoDup (sortuj klucz_daty g).*1) as Hnds by by rewrite sortuj_perm.
  assert (∀ i, i ∉ g.*1 → i ∉ (sortuj klucz_daty g).*1) as Hsub
    by (intros i; by rewrite sortuj_perm).
  destruct (sortuj klucz_daty g) as [|[org_idx m0] reszta]; simpl.
  - split; [intros p i m Hp; by rewrite lookup_nil in Hp | done].
  - apply NoDup_cons in Hnds as [Horg Hnds].
    destruct (oznacz_duplikaty_spec (format_02d n) reszta 0
                (ustaw_id_grupy org_idx (format_02d n +:+ "-o")
                   (ustaw_flagę org_idx ORYGINAŁ lst)) Hnds) as [H1 H2].
    change (enumerate reszta)
      with (imap (λ j (x : nat * MetadanePliku), (0 + j, x)) reszta).
    split.
    + intros [|p] i m Hp; simpl in Hp.
      * inversion Hp; subst.
        rewrite H2 by done. rewrite lookup_ustaw_flagę_id. by rewrite decide_True.
      * rewrite (H1 p i m Hp).
        rewrite lookup_ustaw_flagę_id.
        replace (0 + p + 1) with (S p) by lia.
        rewrite decide_False; [done|].
        intros ->. apply Horg. apply list_elem_of_fmap.
        exists (org_idx, m). split; [done|]. by eapply list_elem_of_lookup_2.
    + intros i Hi. apply Hsub in Hi. apply not_elem_of_cons in Hi as [Hne Hi].
      rewrite H2 by done.
      rewrite lookup_ustaw_flagę_id. by rewrite decide_False.
Qed.

(** ** Going through the groups *)

Lemma krok_hash_filter gs stan :
  fold_left krok_hash gs stan = fold_left krok_dokładny (filter (λ g, 1 < length g) gs) stan.
Proof.
  rewrite <- fold_left_filter. apply fold_left_ext_eq.
  intros st g. unfold krok_hash, krok_dokładny.
  destruct (Nat.ltb_spec 1 (length g)); case_decide; (done || lia).
Qed.

Lemma elem_of_concat_1 {A} (x : A) (g : list A) (gs : list (list A)) :
  g ∈ gs → x ∈ g → x ∈ concat gs.
Proof.
  induction 1 as [g gs | g g' gs Hin IH]; intros Hx; simpl; apply elem_of_app.
  - by left.
  - right. by apply IH.
Qed.

Lemma concat_filter_sublist {A} (P : list A → Prop) `{∀ g, Decision (P g)} gs :
  concat (filter P gs) `sublist_of` concat gs.
Proof.
  induction gs as [|g gs IH]; [done|].
  rewrite filter_cons. destruct (decide (P g)); simpl.
  - by apply sublist_app.
  - by apply sublist_inserts_l.
Qed.

Lemma sortuj_indeks (g : list (nat * MetadanePliku)) p i m :
  sortuj klucz_daty g !! p = Some (i, m) → (i, m) ∈ g.
Proof.
  intros Hp. apply list_elem_of_lookup_2 in Hp. by rewrite sortuj_perm in Hp.
Qed.

Lemma oznacz_grupy_spec gs c lst :
  NoDup (concat gs).*1 →
  let out := (fold_left krok_dokładny gs (c, lst)).2 in
  (∀ k g p i m, gs !! k = Some g → sortuj klucz_daty g !! p = Some (i, m) →
     out !! i = rola (c + k + 1) p <$> lst !! i)
  ∧ (∀ i, i ∉ (concat gs).*1 → out !! i = lst !! i).
Proof.
  revert c lst. induction gs as [|g gs IH]; intros c lst Hnd; simpl.
  - split; [intros k g p i m Hk; by rewrite lookup_nil in Hk | done].
  - simpl in Hnd. rewrite fmap_app in Hnd.
    apply NoDup_app in Hnd as (Hg & Hdis & Hgs).
    destruct (oznacz_grupę_hash_spec (c + 1) g lst Hg) as [G1 G2].
    destruct (IH (c + 1) (oznacz_grupę_hash (c + 1) g lst) Hgs) as [IH1 IH2].
    unfold krok_dokładny at 2. simpl. split.
    + intros [|k] g' p i m Hk Hp; simpl in Hk.
      * inversion Hk; subst g'.
        rewrite IH2.
        -- rewrite (G1 p i m Hp). by replace (c + 0 + 1) with (c + 1) by lia.
        -- apply Hdis. apply list_elem_of_fmap. exists (i, m).
           split; [done | by eapply sortuj_indeks].
      * rewrite (IH1 k g' p i m Hk Hp).
        replace (c + 1 + k + 1) with (c + S k + 1) by lia.
        rewrite G2; [done|].
        intros Hi. apply (Hdis i Hi).
        apply list_elem_of_fmap. exists (i, m). split; [done|].
        eapply elem_of_concat_1; [by eapply list_elem_of_lookup_2|].
        by eapply sortuj_indeks.
    + intros i Hi. rewrite fmap_app in Hi.
      apply not_elem_of_app in Hi as [Hi1 Hi2].
      rewrite IH2 by done. by apply G2.
Qed.

(** ** The groups of the hash pass *)

Lemma niepusty_true s : niepusty s = true ↔ s ≠ "".
Proof. by destruct s. Qed.

Lemma grupy_hash_concat l :
  concat (grupy_hash l)
  ≡ₚ filter (λ x, niepusty (hash_sha256 x.2) = true) (enumerate l).
Proof.
  unfold grupy_hash. rewrite <- (grupuj_concat (λ x, rozszerzenie x.2) (filter _ _)).
  fold (kubełki l). induction (kubełki l) as [|b bs IH]; [done|].
  csimpl. rewrite concat_app, IH. by rewrite grupuj_concat.
Qed.

Lemma grupy_hash_nodup l : NoDup (concat (grupy_hash l)).*1.
Proof.
  rewrite grupy_hash_concat.
  apply (sublist_NoDup _ (enumerate l).*1);
    [apply enumerate_nodup | apply fmap_sublist, sublist_filter].
Qed.

Lemma grupy_dokładne_nodup l : NoDup (concat (grupy_dokładne l)).*1.
Proof.
  apply (sublist_NoDup _ (concat (grupy_hash l)).*1);
    [apply grupy_hash_nodup | apply fmap_sublist, concat_filter_sublist].
Qed.

Lemma elem_of_grupy_hash l g :
  g ∈ grupy_hash l ↔ ∃ e h, h ≠ "" ∧ g = grupa_hash l e h ∧ g ≠ [].
Proof.
  unfold grupy_hash, grupa_hash.
  set (xs := filter (λ x : nat * MetadanePliku, niepusty (hash_sha256 x.2) = true) (enumerate l)).
  destruct (grupuj_własności (λ x : nat * MetadanePliku, rozszerzenie x.2) xs)
    as (_ & Hb & Hbk).
  fold (kubełki l) in Hb, Hbk.
  assert (∀ e h, h ≠ "" →
            filter (λ x : nat * MetadanePliku, hash_sha256 x.2 = h)
              (filter (λ x : nat * MetadanePliku, rozszerzenie x.2 = e) xs)
            = filter (λ x : nat * MetadanePliku, rozszerzenie x.2 = e ∧ hash_sha256 x.2 = h)
                (enumerate l)) as Hfilt.
  { intros e h Hh. unfold xs. clear -Hh. induction (enumerate l) as [|x ys IH]; [done|].
    rewrite !(filter_cons _ x).
    destruct (decide (niepusty (hash_sha256 x.2) = true)) as [Hn|Hn].
    - rewrite !(filter_cons _ x).
      destruct (decide (rozszerzenie x.2 = e)).
      + rewrite !(filter_cons _ x).
        destruct (decide (hash_sha256 x.2 = h)).
        * rewrite decide_True by done. by rewrite IH.
        * rewrite decide_False by tauto. done.
      + rewrite decide_False by tauto. done.
    - rewrite IH. destruct (decide _) as [[? ?]|]; [|done].
      exfalso. apply Hn. apply niepusty_true. congruence. }
  split.
  - intros Hin. apply list_elem_of_In, in_flat_map in Hin as ([e pliki] & Hb1 & Hg).
    apply list_elem_of_In in Hb1, Hg. simpl in Hg.
    apply list_elem_of_fmap in Hg as ([h g'] & -> & Hg).
    destruct (Hb _ _ Hb1) as [-> _].
    destruct (grupuj_własności (λ x : nat * MetadanePliku, hash_sha256 x.2)
                (filter (λ x : nat * MetadanePliku, rozszerzenie x.2 = e) xs))
      as (_ & Hh & _).
    destruct (Hh _ _ Hg) as [Heq Hne]. simpl.
    assert (h ≠ "") as Hh0.
    { destruct g' as [|x g'']; [done|].
      assert (x ∈ x :: g'') as Hx by left. rewrite Heq in Hx.
      apply list_elem_of_filter in Hx as [<- Hx].
      apply list_elem_of_filter in Hx as [_ Hx].
      apply list_elem_of_filter in Hx as [Hx _]. by apply niepusty_true. }
    exists e, h. split_and!; [done| |done].
    rewrite <- Hfilt by done. exact Heq.
  - intros (e & h & Hh & -> & Hne).
    rewrite <- Hfilt in * by done.
    destruct (filter _ (filter _ xs)) as [|x g''] eqn:Hg; [done|].
    assert (x ∈ x :: g'') as Hx by left. rewrite <- Hg in Hx.
    apply list_elem_of_filter in Hx as [Hxh Hx].
    pose proof Hx as Hx'.
    apply list_elem_of_filter in Hx as [Hxe Hx].
    apply Hbk in Hx. apply list_elem_of_fmap in Hx as ([e' pliki] & He' & Hb1).
    simpl in He'. rewrite Hxe in He'. subst e'.
    destruct (Hb _ _ Hb1) as [Hpl _].
    destruct (grupuj_własności (λ x : nat * MetadanePliku, hash_sha256 x.2) pliki)
      as (_ & Hhh & Hhk).
    rewrite <- Hpl in Hx'. apply Hhk in Hx'.
    apply list_elem_of_fmap in Hx' as ([h' g'] & Hh' & Hg').
    simpl in Hh'. rewrite Hxh in Hh'. subst h'.
    destruct (Hhh _ _ Hg') as [Hgeq _].
    apply list_elem_of_In, in_flat_map. exists (e, pliki).
    split; [by apply list_elem_of_In|]. apply list_elem_of_In. simpl.
    apply list_elem_of_fmap. exists (h, g'). split; [|done].
    simpl. rewrite Hgeq, Hpl. by rewrite Hg.
Qed.

(** ** What the hash pass leaves in the list *)

Lemma grupy_dokładne_elem l g :
  g ∈ grupy_dokładne l ↔ ∃ e h, h ≠ "" ∧ g = grupa_hash l e h ∧ 1 < length g.
Proof.
  unfold grupy_dokładne. rewrite list_elem_of_filter, elem_of_grupy_hash. split.
  - intros (Hlen & e & h & Hh & -> & _). by exists e, h.
  - intros (e & h & Hh & -> & Hlen). split; [done|]. exists e, h.
    split_and!; [done..|]. intros Heq. rewrite Heq in Hlen. simpl in Hlen. lia.
Qed.

Lemma elem_of_grupa_hash l e h i m :
  (i, m) ∈ grupa_hash l e h ↔ l !! i = Some m ∧ rozszerzenie m = e ∧ hash_sha256 m = h.
Proof.
  unfold grupa_hash. rewrite list_elem_of_filter, elem_of_enumerate. simpl. tauto.
Qed.

Lemma grupa_hash_rosnąca l e h :
  StronglySorted (λ x y : nat * MetadanePliku, x.1 < y.1) (grupa_hash l e h).
Proof. apply StronglySorted_filter, enumerate_rosnące. Qed.

Lemma hash_pass_spec {S} cb (l : list MetadanePliku) (s : S) :
  let out := (_oznacz_dokładne_duplikaty cb l s).1 in
  (∀ k g p i m, grupy_dokładne l !! k = Some g →
     sortuj klucz_daty g !! p = Some (i, m) →
     out !! i = Some (rola (k + 1) p m))
  ∧ (∀ i, i ∉ (concat (grupy_dokładne l)).*1 → out !! i = l !! i).
Proof.
  simpl. rewrite _oznacz_dokładne_duplikaty_wartość, krok_hash_filter.
  fold (grupy_dokładne l).
  destruct (oznacz_grupy_spec (grupy_dokładne l) 0 l (grupy_dokładne_nodup l)) as [H1 H2].
  split; [|exact H2].
  intros k g p i m Hk Hp. rewrite (H1 k g p i m Hk Hp). simpl.
  assert (l !! i = Some m) as ->; [|done].
  apply sortuj_indeks in Hp.
  apply list_elem_of_lookup_2, grupy_dokładne_elem in Hk as (e & h & _ & -> & _).
  by apply elem_of_grupa_hash in Hp as [? _].
Qed.

Lemma grupy_dokładne_rozłączne l k k' g g' i :
  grupy_dokładne l !! k = Some g → grupy_dokładne l !! k' = Some g' →
  i ∈ g.*1 → i ∈ g'.*1 → k = k'.
Proof.
  pose proof (grupy_dokładne_nodup l) as Hnd. revert Hnd k k'.
  induction (grupy_dokładne l) as [|g0 gs IH]; intros Hnd k k' Hk Hk' Hi Hi'.
  - by rewrite lookup_nil in Hk.
  - simpl in Hnd. rewrite fmap_app in Hnd. apply NoDup_app in Hnd as (_ & Hdis & Hgs).
    assert (∀ j gj, gs !! j = Some gj → i ∈ gj.*1 → i ∈ (concat gs).*1) as Hc.
    { intros j gj Hj Hij. apply list_elem_of_fmap in Hij as ([i1 m1] & -> & Hin).
      apply list_elem_of_fmap. exists (i1, m1). split; [done|].
      eapply elem_of_concat_1; [by eapply list_elem_of_lookup_2 | done]. }
    destruct k as [|k], k' as [|k']; simpl in Hk, Hk'.
    + done.
    + inversion Hk; subst. exfalso. apply (Hdis i Hi). by eapply Hc.
    + inversion Hk'; subst. exfalso. apply (Hdis i Hi'). by eapply Hc.
    + f_equal. by eapply IH.
Qed.

(** ** Texts of group identifiers *)

Lemma dec_inj n n' : dec n = dec n' → n = n'.
Proof.
  unfold dec. intros Heq.
  apply (f_equal NilEmpty.uint_of_string) in Heq.
  rewrite !NilEmpty.usu in Heq. inversion Heq as [Hu].
  apply (f_equal Nat.of_uint) in Hu. by rewrite !Unsigned.of_to in Hu.
Qed.

Lemma format_02d_inj n n' : format_02d n = format_02d n' → n = n'.
Proof.
  assert (∀ k, option_map Nat.of_uint (NilEmpty.uint_of_string (format_02d k)) = Some k)
    as Hparse.
  { intros k. unfold format_02d, dec.
    destruct (_ <? 2)%nat.
    - change ("0" +:+ ?s) with (String "0" s). cbn [NilEmpty.uint_of_string].
      rewrite NilEmpty.usu. simpl.
      exact (f_equal Some (Unsigned.of_to k)).
    - rewrite NilEmpty.usu. simpl. by rewrite Unsigned.of_to. }
  intros Heq. apply (f_equal (λ s, option_map Nat.of_uint (NilEmpty.uint_of_string s))) in Heq.
  rewrite !Hparse in Heq. by inversion Heq.
Qed.

Lemma przed_myślnikiem_cyfry d t :
  przed_myślnikiem (NilEmpty.string_of_uint d +:+ String "-" t)
  = NilEmpty.string_of_uint d.
Proof.
  induction d as [|d IH|d IH|d IH|d IH|d IH|d IH|d IH|d IH|d IH|d IH]; simpl;
    [done | by rewrite IH ..].
Qed.

Lemma przed_myślnikiem_format n t :
  przed_myślnikiem (format_02d n +:+ String "-" t) = format_02d n.
Proof.
  unfold format_02d, dec. destruct (_ <? 2)%nat.
  - change ("0" +:+ ?s) with (String "0" s). simpl.
    by rewrite przed_myślnikiem_cyfry.
  - apply przed_myślnikiem_cyfry.
Qed.

(** ** The fields of a marked record *)

Lemma flaga_rola n p m :
  flaga (rola n p m) = match p with 0 => ORYGINAŁ | S _ => DUPLIKAT end.
Proof. by destruct p. Qed.

Lemma id_grupy_rola n p m :
  id_grupy (rola n p m)
  = format_02d n +:+ match p with 0 => "-o" | S _ => "-D" +:+ dec p end.
Proof. by destruct p. Qed.

Lemma numer_rola n p m : przed_myślnikiem (id_grupy (rola n p m)) = format_02d n.
Proof. rewrite id_grupy_rola. destruct p; apply przed_myślnikiem_format. Qed.

Lemma id_grupy_rola_niepuste n p m : id_grupy (rola n p m) ≠ "".
Proof.
  intros Heq. pose proof (numer_rola n p m) as Hn. rewrite Heq in Hn.
  simpl in Hn. unfold format_02d in Hn. destruct (_ <? 2)%nat eqn:Hlen; [done|].
  rewrite <- Hn in Hlen. done.
Qed.

Lemma rola_pozostałe_pola n p m :
  ścieżka (rola n p m) = ścieżka m ∧ rozszerzenie (rola n p m) = rozszerzenie m
  ∧ hash_sha256 (rola n p m) = hash_sha256 m
  ∧ data_utworzenia (rola n p m) = data_utworzenia m.
Proof. by destruct p. Qed.

(** ** The name pass without its progress reports *)

Lemma _oznacz_możliwe_duplikaty_wartość {S} cb (l : list MetadanePliku) (s : S) :
  (_oznacz_możliwe_duplikaty cb l s).1
  = fold_left (λ lst g, oznacz_grupę_nazw g lst) (grupy_możliwe l) l.
Proof.
  unfold _oznacz_możliwe_duplikaty.
  rewrite potem_wartość.
  rewrite (dla_każdego_wartość _
             (λ d ix, Słownik.dopisz (nazwa_bez_rozszerzenia ix.2) ix d)).
  2:{ intros d [i meta] s'. by rewrite potem_zwróć_wartość. }
  fold (Słownik.grupuj (λ x : nat * MetadanePliku, nazwa_bez_rozszerzenia x.2) (enumerate l)).
  fold (grupy_nazw l).
  rewrite (dla_każdego_wartość _ (λ lst ix, krok_nazw lst ix.2.2)).
  2:{ intros lst [i [nazwa grupa]] s'. by rewrite potem_zwróć_wartość. }
  rewrite (fold_left_enumerate (λ lst b, krok_nazw lst b.2)).
  rewrite <- (fold_left_fmap krok_nazw snd).
  unfold grupy_możliwe. rewrite <- fold_left_filter.
  apply fold_left_ext_eq. intros lst g. unfold krok_nazw.
  destruct (Nat.ltb_spec 1 (length g)); case_decide; (done || lia).
Qed.

Lemma oznacz_możliwe_spec (r : list (nat * MetadanePliku)) lst :
  NoDup r.*1 →
  let out := fold_left (λ lst '(idx, _), ustaw_flagę idx MOŻLIWY_DUPLIKAT lst) r lst in
  (∀ p i m, r !! p = Some (i, m) → out !! i = z_flagą MOŻLIWY_DUPLIKAT <$> lst !! i)
  ∧ (∀ i, i ∉ r.*1 → out !! i = lst !! i).
Proof.
  revert lst. induction r as [|[i0 m0] r IH]; intros lst Hnd; csimpl.
  - split; [intros p i m Hp; by rewrite lookup_nil in Hp | done].
  - apply NoDup_cons in Hnd as [Hi0 Hnd].
    destruct (IH (ustaw_flagę i0 MOŻLIWY_DUPLIKAT lst) Hnd) as [IH1 IH2].
    unfold ustaw_flagę in *. split.
    + intros [|p] i m Hp; simpl in Hp.
      * inversion Hp; subst. rewrite IH2 by done.
        rewrite list_lookup_alter. by rewrite decide_True.
      * rewrite (IH1 p i m Hp). rewrite list_lookup_alter.
        rewrite decide_False; [done|].
        intros ->. apply Hi0. apply list_elem_of_fmap.
        exists (i, m). split; [done|]. by eapply list_elem_of_lookup_2.
    + intros i Hi. apply not_elem_of_cons in Hi as [Hne Hi].
      rewrite IH2 by done. rewrite list_lookup_alter. by rewrite decide_False.
Qed.

Lemma oznacz_grupę_nazw_spec (g : list (nat * MetadanePliku)) lst :
  NoDup g.*1 →
  let out := oznacz_grupę_nazw g lst in
  (∀ p i m, sortuj klucz_daty g !! p = Some (i, m) → out !! i = rola_nazw p <$> lst !! i)
  ∧ (∀ i, i ∉ g.*1 → out !! i = lst !! i).
Proof.
  intros Hnd. unfold oznacz_grupę_nazw.
  assert (NoDup (sortuj klucz_daty g).*1) as Hnds by by rewrite sortuj_perm.
  assert (∀ i, i ∉ g.*1 → i ∉ (sortuj klucz_daty g).*1) as Hsub
    by (intros i; by rewrite sortuj_perm).
  destruct (sortuj klucz_daty g) as [|[idx0 m0] reszta]; simpl.
  - split; [intros p i m Hp; by rewrite lookup_nil in Hp | done].
  - apply NoDup_cons in Hnds as [Horg Hnds].
    destruct (oznacz_możliwe_spec reszta (ustaw_flagę idx0 ORYGINAŁ lst) Hnds) as [H1 H2].
    unfold ustaw_flagę in *. split.
    + intros [|p] i m Hp; simpl in Hp.
      * inversion Hp; subst. rewrite H2 by done.
        rewrite list_lookup_alter. by rewrite decide_True.
      * rewrite (H1 p i m Hp). rewrite list_lookup_alter.
        rewrite decide_False; [done|].
        intros ->. apply Horg. apply list_elem_of_fmap.
        exists (i, m). split; [done|]. by eapply list_elem_of_lookup_2.
    + intros i Hi. apply Hsub in Hi. apply not_elem_of_cons in Hi as [Hne Hi].
      rewrite H2 by done. rewrite list_lookup_alter. by rewrite decide_False.
Qed.

Lemma oznacz_grupy_nazw_spec gs lst :
  NoDup (concat gs).*1 →
  let out := fold_left (λ lst g, oznacz_grupę_nazw g lst) gs lst in
  (∀ g p i m, g ∈ gs → sortuj klucz_daty g !! p = Some (i, m) →
     out !! i = rola_nazw p <$> lst !! i)
  ∧ (∀ i, i ∉ (concat gs).*1 → out !! i = lst !! i).
Proof.
  revert lst. induction gs as [|g gs IH]; intros lst Hnd; simpl.
  - split; [intros g p i m Hg; by apply elem_of_nil in Hg | done].
  - simpl in Hnd. rewrite fmap_app in Hnd.
    apply NoDup_app in Hnd as (Hg & Hdis & Hgs).
    destruct (oznacz_grupę_nazw_spec g lst Hg) as [G1 G2].
    destruct (IH (oznacz_grupę_nazw g lst) Hgs) as [IH1 IH2].
    split.
    + intros g' p i m Hin Hp. apply elem_of_cons in Hin as [->|Hin].
      * rewrite IH2; [exact (G1 p i m Hp)|].
        apply Hdis. apply list_elem_of_fmap. exists (i, m).
        split; [done | by eapply sortuj_indeks].
      * rewrite (IH1 g' p i m Hin Hp). rewrite G2; [done|].
        intros Hi. apply (Hdis i Hi).
        apply list_elem_of_fmap. exists (i, m). split; [done|].
        eapply elem_of_concat_1; [done | by eapply sortuj_indeks].
    + intros i Hi. rewrite fmap_app in Hi.
      apply not_elem_of_app in Hi as [Hi1 Hi2].
      rewrite IH2 by done. by apply G2.
Qed.

(** ** The groups of the name pass *)

Lemma elem_of_grupy_nazw l g :
  g ∈ (grupy_nazw l).*2 ↔ ∃ nazwa, g = grupa_nazw l nazwa ∧ g ≠ [].
Proof.
  unfold grupy_nazw, grupa_nazw.
  destruct (grupuj_własności (λ x : nat * MetadanePliku, nazwa_bez_rozszerzenia x.2)
              (enumerate l)) as (_ & Hg & Hk).
  split.
  - intros Hin. apply list_elem_of_fmap in Hin as ([nazwa g'] & -> & Hin).
    exists nazwa. by apply Hg.
  - intros (nazwa & -> & Hne).
    destruct (filter _ (enumerate l)) as [|x g''] eqn:Heq; [done|].
    assert (x ∈ x :: g'') as Hx by left. rewrite <- Heq in Hx.
    apply list_elem_of_filter in Hx as [Hxn Hx].
    apply Hk in Hx. apply list_elem_of_fmap in Hx as ([n' g'] & Hn' & Hin).
    simpl in Hn'. rewrite Hxn in Hn'. subst n'.
    destruct (Hg _ _ Hin) as [Hgeq _].
    apply list_elem_of_fmap. exists (nazwa, g'). split; [|done].
    simpl. by rewrite Hgeq, Heq.
Qed.

Lemma grupy_możliwe_elem l g :
  g ∈ grupy_możliwe l ↔ ∃ nazwa, g = grupa_nazw l nazwa ∧ 1 < length g.
Proof.
  unfold grupy_możliwe. rewrite list_elem_of_filter, elem_of_grupy_nazw. split.
  - intros (Hlen & nazwa & -> & _). by exists nazwa.
  - intros (nazwa & -> & Hlen). split; [done|]. exists nazwa.
    split; [done|]. intros Heq. rewrite Heq in Hlen. simpl in Hlen. lia.
Qed.

Lemma grupy_możliwe_nodup l : NoDup (concat (grupy_możliwe l)).*1.
Proof.
  apply (sublist_NoDup _ (concat (grupy_nazw l).*2).*1).
  - unfold grupy_nazw. rewrite grupuj_concat. apply enumerate_nodup.
  - apply fmap_sublist, concat_filter_sublist.
Qed.

Lemma elem_of_grupa_nazw l nazwa i m :
  (i, m) ∈ grupa_nazw l nazwa ↔ l !! i = Some m ∧ nazwa_bez_rozszerzenia m = nazwa.
Proof.
  unfold grupa_nazw. rewrite list_elem_of_filter, elem_of_enumerate. simpl. tauto.
Qed.

Lemma name_pass_spec {S} cb (l : list MetadanePliku) (s : S) :
  let out := (_oznacz_możliwe_duplikaty cb l s).1 in
  (∀ g p i m, g ∈ grupy_możliwe l → sortuj klucz_daty g !! p = Some (i, m) →
     out !! i = Some (rola_nazw p m))
  ∧ (∀ i, i ∉ (concat (grupy_możliwe l)).*1 → out !! i = l !! i).
Proof.
  simpl. rewrite _oznacz_możliwe_duplikaty_wartość.
  destruct (oznacz_grupy_nazw_spec (grupy_możliwe l) l (grupy_możliwe_nodup l)) as [H1 H2].
  split; [|exact H2].
  intros g p i m Hg Hp. rewrite (H1 g p i m Hg Hp).
  assert (l !! i = Some m) as ->; [|done].
  apply sortuj_indeks in Hp.
  apply grupy_możliwe_elem in Hg as (nazwa & -> & _).
  by apply elem_of_grupa_nazw in Hp as [? _].
Qed.

(** ** Updates by index *)

Lemma fmap_alter_stałe {A B} (g : A → B) (f : A → A) i (l : list A) :
  (∀ x, g (f x) = g x) → g <$> alter f i l = g <$> l.
Proof.
  intros Hg. revert i. induction l as [|x l IH]; intros [|i]; csimpl; [done..| |].
  - by rewrite Hg.
  - by rewrite IH.
Qed.

Lemma fold_alter_lookup {A X} (F : X → A → A) (idx : X → nat) (xs : list X) (lst : list A) :
  NoDup (idx <$> xs) →
  let out := fold_left (λ lst x, alter (F x) (idx x) lst) xs lst in
  (∀ x, x ∈ xs → out !! idx x = F x <$> lst !! idx x)
  ∧ (∀ i, i ∉ idx <$> xs → out !! i = lst !! i).
Proof.
  revert lst. induction xs as [|x0 xs IH]; intros lst Hnd; csimpl.
  - split; [intros x Hx; by apply elem_of_nil in Hx | done].
  - apply NoDup_cons in Hnd as [Hx0 Hnd].
    destruct (IH (alter (F x0) (idx x0) lst) Hnd) as [IH1 IH2]. split.
    + intros x Hx. apply elem_of_cons in Hx as [->|Hx].
      * rewrite IH2 by done. rewrite list_lookup_alter. by rewrite decide_True.
      * rewrite (IH1 x Hx). rewrite list_lookup_alter.
        rewrite decide_False; [done|].
        intros Heq. apply Hx0. rewrite Heq. apply list_elem_of_fmap. by exists x.
    + intros i Hi. apply not_elem_of_cons in Hi as [Hne Hi].
      rewrite IH2 by done. rewrite list_lookup_alter. by rewrite decide_False.
Qed.

(** ** The hashing stage *)

Lemma _oblicz_hashe_wartość {S} ot cb (l : list MetadanePliku) (s : S) :
  (_oblicz_hashe ot cb l s).1
  = fold_left (λ lst r, ustaw_hash r.1 r.2 lst) (oblicz_hash_pliku ot <$> enumerate l) l.
Proof.
  unfold _oblicz_hashe.
  rewrite (dla_każdego_wartość _ (λ lst ix, ustaw_hash ix.2.1 ix.2.2 lst)).
  2:{ intros lst [i [index h]] s'. by rewrite potem_zwróć_wartość. }
  by rewrite (fold_left_enumerate (λ lst r, ustaw_hash r.1 r.2 lst)).
Qed.

Lemma oblicz_hash_pliku_indeks ot (x : nat * MetadanePliku) :
  (oblicz_hash_pliku ot x).1 = x.1.
Proof. destruct x as [i m]. simpl. by destruct (sha256 ot (ścieżka m)). Qed.

Lemma _oblicz_hashe_lookup {S} ot cb (l : list MetadanePliku) (s : S) i m :
  l !! i = Some m →
  (_oblicz_hashe ot cb l s).1 !! i = Some (z_hashem (oblicz_hash_pliku ot (i, m)).2 m).
Proof.
  intros Hl. rewrite _oblicz_hashe_wartość.
  destruct (fold_alter_lookup (λ r : nat * string, z_hashem r.2) fst
              (oblicz_hash_pliku ot <$> enumerate l) l) as [H1 _].
  { rewrite <- list_fmap_compose.
    erewrite list_fmap_ext; [apply enumerate_nodup|].
    intros j x _. apply oblicz_hash_pliku_indeks. }
  specialize (H1 (oblicz_hash_pliku ot (i, m))).
  rewrite oblicz_hash_pliku_indeks in H1. simpl in H1.
  unfold ustaw_hash. rewrite H1; [by rewrite Hl|].
  apply list_elem_of_fmap. exists (i, m). split; [done|]. by apply elem_of_enumerate.
Qed.

Lemma _oblicz_hashe_length {S} ot cb (l : list MetadanePliku) (s : S) :
  length (_oblicz_hashe ot cb l s).1 = length l.
Proof.
  rewrite _oblicz_hashe_wartość. generalize (oblicz_hash_pliku ot <$> enumerate l).
  intros xs. revert l. induction xs as [|x xs IH]; intros l; simpl; [done|].
  rewrite IH. unfold ustaw_hash. apply length_alter.
Qed.

(** ** The image metadata stage *)

Lemma zbierz_wynik_oznaczenia stan wynik :
  oznaczenia <$> (zbierz_wynik stan wynik).1 = oznaczenia <$> stan.1.
Proof.
  destruct stan as [lst st], wynik as [[[index metadane] narzędzie] błąd].
  unfold zbierz_wynik. destruct metadane as [d|]; [|done].
  destruct (niepusty błąd).
  - destruct (Dict.dodaj_jeden _ _); simpl; by rewrite !fmap_alter_stałe.
  - destruct (if decide _ then _ else _); simpl; by rewrite !fmap_alter_stałe.
Qed.

Lemma _pobierz_metadane_graficzne_oznaczenia ot dostępny l :
  oznaczenia <$> (_pobierz_metadane_graficzne ot dostępny l).1 = oznaczenia <$> l.
Proof.
  unfold _pobierz_metadane_graficzne.
  generalize (_pobierz_metadane_graficzne_pliku ot dostępny <$> enumerate l) as futures.
  intros futures. generalize (kolejność_ukończenia ot (length futures)) as kol.
  generalize stats_początkowe as st.
  intros st kol.
  change l with (l, st).1 at 2. generalize (l, st) as stan.
  induction kol as [|k kol IH]; intros stan; simpl; [done|].
  rewrite IH. destruct (futures !! k); [apply zbierz_wynik_oznaczenia | done].
Qed.

(** ** Every stage is a writer *)

Ltac pisarz :=
  repeat first
    [ apply Pisarz_zwróć
    | apply Pisarz_raportuj
    | apply Pisarz_gdy
    | apply Pisarz_potem; [|intros ?]
    | apply Pisarz_dla_każdego; intros ? ?
    | progress cbn beta iota zeta
    | match goal with
      | |- context [match ?x with (_, _) => _ end] => is_var x; destruct x
      end ].

Lemma Pisarz_oznacz_dokładne l :
  Pisarz (λ S cb, @_oznacz_dokładne_duplikaty S cb l).
Proof. unfold _oznacz_dokładne_duplikaty. pisarz. Qed.

Lemma Pisarz_oznacz_możliwe l :
  Pisarz (λ S cb, @_oznacz_możliwe_duplikaty S cb l).
Proof. unfold _oznacz_możliwe_duplikaty. pisarz. Qed.

Lemma Pisarz_oblicz_hashe ot l :
  Pisarz (λ S cb, @_oblicz_hashe S ot cb l).
Proof. unfold _oblicz_hashe. pisarz. Qed.

Lemma Pisarz_utwórz ot d :
  Pisarz (λ S cb, @_utwórz_podstawowe_metadane S ot cb d).
Proof. unfold _utwórz_podstawowe_metadane. pisarz. Qed.

Lemma Pisarz_znajdź ot f r :
  Pisarz (λ S cb, @_znajdź_i_posortuj_pliki S ot cb f r).
Proof. unfold _znajdź_i_posortuj_pliki. pisarz. Qed.

Lemma Pisarz_przetwarzaj_folder ot p d f r :
  Pisarz (λ S cb, @przetwarzaj_folder S ot p cb d f r).
Proof.
  unfold przetwarzaj_folder.
  pisarz; try apply Pisarz_znajdź; try apply Pisarz_utwórz; try apply Pisarz_oznacz_możliwe;
    try apply Pisarz_oblicz_hashe; try apply Pisarz_oznacz_dokładne.
  destruct (_pobierz_metadane_graficzne _ _ _). pisarz.
Qed.

(** ** The orchestrator *)

Lemma potem_unit {A B} (m : Stan unit A) (k : A → Stan unit B) :
  potem m k tt = k (m tt).1 tt.
Proof. unfold potem. by destruct (m tt) as [a []]. Qed.

Lemma przetwarzaj_folder_rozkład {S} ot p cb d f r (s : S) :
  przetwarzaj_folder ot p cb d f r s
  = (wyniki_procesora ot p d f r, wykonaj cb (zdarzenia_procesora ot p d f r) s).
Proof. apply (Pisarz_rozkład _ (Pisarz_przetwarzaj_folder ot p d f r)). Qed.

Lemma wyniki_procesora_pliki ot p d f r :
  pliki (wyniki_procesora ot p d f r) = Some (rekordy_końcowe ot d f r).
Proof.
  unfold wyniki_procesora, przetwarzaj_folder. rewrite !potem_unit.
  unfold rekordy_końcowe, rekordy_po_duplikatach, rekordy_po_hashach, rekordy_po_nazwach,
    rekordy_podstawowe, pliki_wg_rozszerzeń.
  by destruct (_pobierz_metadane_graficzne _ _ _).
Qed.

Lemma wyniki_procesora_statystyki ot p d f r :
  statystyki (wyniki_procesora ot p d f r)
  = Some (_generuj_statystyki (rekordy_końcowe ot d f r)
            (_pobierz_metadane_graficzne ot d (rekordy_po_duplikatach ot f r)).2).
Proof.
  unfold wyniki_procesora, przetwarzaj_folder. rewrite !potem_unit.
  unfold rekordy_końcowe, rekordy_po_duplikatach, rekordy_po_hashach, rekordy_po_nazwach,
    rekordy_podstawowe, pliki_wg_rozszerzeń.
  by destruct (_pobierz_metadane_graficzne _ _ _).
Qed.

Lemma wyniki_procesora_sukces ot p d f r :
  sukces (wyniki_procesora ot p d f r) = None
  ∧ komunikat (wyniki_procesora ot p d f r) = None.
Proof.
  unfold wyniki_procesora, przetwarzaj_folder. rewrite !potem_unit.
  by destruct (_pobierz_metadane_graficzne _ _ _).
Qed.

(** ** Discovery and base metadata *)

Lemma fold_left_fst {A B C} (f : B → A → B) (g : C → A → C) xs b c :
  (fold_left (λ st x, (f st.1 x, g st.2 x)) xs (b, c)).1 = fold_left f xs b.
Proof.
  revert b c. induction xs as [|x xs IH]; intros b c; [done|]. simpl. apply IH.
Qed.

Lemma przetwórz_plik_ścieżka p : (przetwórz_plik p).2 = p.
Proof. done. Qed.

Lemma pliki_wg_rozszerzeń_wartość ot f r :
  pliki_wg_rozszerzeń ot f r = Słownik.grupuj kategoria (pliki_folderu ot f r).
Proof.
  unfold pliki_wg_rozszerzeń, _znajdź_i_posortuj_pliki. rewrite potem_unit. simpl.
  rewrite (dla_każdego_wartość _
             (λ st ix, (Słownik.dopisz ix.2.1 ix.2.2 st.1, st.2 + 1))).
  2:{ intros [d n] [i [k sc]] s'. by rewrite potem_zwróć_wartość. }
  rewrite (fold_left_enumerate
             (λ st (kp : string * string), (Słownik.dopisz kp.1 kp.2 st.1, st.2 + 1))).
  rewrite (fold_left_fst (λ d (kp : string * string), Słownik.dopisz kp.1 kp.2 d)
             (λ n _, n + 1)).
  by rewrite fold_left_fmap.
Qed.

Lemma fold_left_omap {A B} (f : A → option B) xs (acc : list B) :
  fold_left (λ acc o, match o with Some m => acc ++ [m] | None => acc end) (f <$> xs) acc
  = acc ++ omap f xs.
Proof.
  revert acc. induction xs as [|x xs IH]; intros acc; csimpl.
  - by rewrite app_nil_r.
  - rewrite IH. destruct (f x); [by rewrite <- app_assoc | done].
Qed.

(** [wszystkie_pliki] of the base metadata stage. *)
Lemma rekordy_podstawowe_wartość ot f r :
  rekordy_podstawowe ot f r
  = omap (utwórz_metadane_pliku ot)
      (flat_map (λ '(rozszerzenie, ścieżki), (λ ścieżka, (ścieżka, rozszerzenie)) <$> ścieżki)
                (pliki_wg_rozszerzeń ot f r)).
Proof.
  unfold rekordy_podstawowe, _utwórz_podstawowe_metadane.
  rewrite (dla_każdego_wartość _
             (λ acc ix, match ix.2 with Some m => acc ++ [m] | None => acc end)).
  2:{ intros acc [i o] s'. by rewrite potem_zwróć_wartość. }
  rewrite (fold_left_enumerate
             (λ acc (o : option MetadanePliku),
                match o with Some m => acc ++ [m] | None => acc end)).
  by rewrite fold_left_omap.
Qed.


Lemma rekordy_podstawowe_świeże ot f r m :
  m ∈ rekordy_podstawowe ot f r →
  flaga m = "" ∧ id_grupy m = "" ∧ hash_sha256 m = ""
  ∧ rozszerzenie m = kategoria (ścieżka m).
Proof.
  rewrite rekordy_podstawowe_wartość, pliki_wg_rozszerzeń_wartość.
  intros Hin. apply list_elem_of_omap in Hin as ([p e] & Hin & Hu).
  apply list_elem_of_In, in_flat_map in Hin as ([e' ps] & Hb & Hin).
  apply list_elem_of_In in Hb, Hin.
  apply list_elem_of_fmap in Hin as (p' & Heq & Hp). inversion Heq; subst p' e'.
  destruct (grupuj_własności kategoria (pliki_folderu ot f r)) as (_ & Hg & _).
  destruct (Hg _ _ Hb) as [-> _].
  apply list_elem_of_filter in Hp as [Hk _].
  unfold utwórz_metadane_pliku in Hu.
  destruct (stat ot p) as [[[? ?] ?]|]; [|done].
  inversion Hu; subst m. simpl. by rewrite Hk.
Qed.

(** ** From stage to stage *)

Lemma w_grupie (gs : list (list (nat * MetadanePliku))) i :
  i ∈ (concat gs).*1 →
  ∃ g p m, g ∈ gs ∧ sortuj klucz_daty g !! p = Some (i, m).
Proof.
  intros Hi. apply list_elem_of_fmap in Hi as ([i' m] & -> & Hin).
  apply list_elem_of_In, in_concat in Hin as (g & Hg & Hin).
  apply list_elem_of_In in Hg, Hin.
  rewrite <- (sortuj_perm klucz_daty g) in Hin.
  apply list_elem_of_lookup_1 in Hin as [p Hp]. by exists g, p, m.
Qed.

Lemma name_pass_rekord {S} cb (l : list MetadanePliku) (s : S) i m' :
  (_oznacz_możliwe_duplikaty cb l s).1 !! i = Some m' →
  ∃ m, l !! i = Some m
       ∧ (m' = m ∨ m' = z_flagą ORYGINAŁ m ∨ m' = z_flagą MOŻLIWY_DUPLIKAT m).
Proof.
  destruct (name_pass_spec cb l s) as [H1 H2]. intros Hout.
  destruct (decide (i ∈ (concat (grupy_możliwe l)).*1)) as [Hin|Hnin].
  - apply w_grupie in Hin as (g & p & m & Hg & Hp).
    rewrite (H1 g p i m Hg Hp) in Hout. inversion Hout; subst m'.
    exists m. split.
    + apply sortuj_indeks in Hp. apply grupy_możliwe_elem in Hg as (nazwa & -> & _).
      by apply elem_of_grupa_nazw in Hp as [? _].
    + destruct p; auto.
  - rewrite (H2 i Hnin) in Hout. exists m'. auto.
Qed.

Lemma hash_pass_rekord {S} cb (l : list MetadanePliku) (s : S) i m' :
  (_oznacz_dokładne_duplikaty cb l s).1 !! i = Some m' →
  ∃ m, l !! i = Some m ∧ (m' = m ∨ ∃ n p, m' = rola n p m).
Proof.
  destruct (hash_pass_spec cb l s) as [H1 H2]. intros Hout.
  destruct (decide (i ∈ (concat (grupy_dokładne l)).*1)) as [Hin|Hnin].
  - apply w_grupie in Hin as (g & p & m & Hg & Hp).
    apply list_elem_of_lookup_1 in Hg as [k Hk].
    rewrite (H1 k g p i m Hk Hp) in Hout. inversion Hout; subst m'.
    exists m. split; [|right; eauto].
    apply sortuj_indeks in Hp.
    apply list_elem_of_lookup_2, grupy_dokładne_elem in Hk as (e & h & _ & -> & _).
    by apply elem_of_grupa_hash in Hp as [? _].
  - rewrite (H2 i Hnin) in Hout. exists m'. auto.
Qed.

Lemma _oblicz_hashe_rekord {S} ot cb (l : list MetadanePliku) (s : S) i m' :
  (_oblicz_hashe ot cb l s).1 !! i = Some m' →
  ∃ m, l !! i = Some m ∧ m' = z_hashem (oblicz_hash_pliku ot (i, m)).2 m.
Proof.
  intros Hout. assert (i < length l) as Hlt.
  { rewrite <- (_oblicz_hashe_length ot cb l s). by eapply lookup_lt_Some. }
  apply lookup_lt_is_Some in Hlt as [m Hm]. exists m. split; [done|].
  rewrite (_oblicz_hashe_lookup ot cb l s i m Hm) in Hout. by inversion Hout.
Qed.

Lemma oznaczenia_lookup (l l' : list MetadanePliku) i m :
  oznaczenia <$> l' = oznaczenia <$> l → l !! i = Some m →
  ∃ m', l' !! i = Some m' ∧ oznaczenia m' = oznaczenia m.
Proof.
  intros Heq Hl. apply (f_equal (λ x, x !! i)) in Heq.
  rewrite !list_lookup_fmap, Hl in Heq. simpl in Heq.
  destruct (l' !! i) as [m'|]; [|done]. exists m'. split; [done|]. simpl in Heq. congruence.
Qed.

Lemma flagi_różne :
  ORYGINAŁ ≠ DUPLIKAT ∧ ORYGINAŁ ≠ MOŻLIWY_DUPLIKAT ∧ DUPLIKAT ≠ MOŻLIWY_DUPLIKAT
  ∧ ORYGINAŁ ≠ "" ∧ DUPLIKAT ≠ "" ∧ MOŻLIWY_DUPLIKAT ≠ "".
Proof. by split_and!. Qed.

Section Niezmienniki.
Variable ot : Otoczenie.
Variable dostępny : bool.
Variables (f : string) (r : bool).

Lemma rekordy_po_nazwach_bez_grupy m :
  m ∈ rekordy_po_nazwach ot f r → bez_grupy m ∧ hash_sha256 m = "".
Proof.
  unfold rekordy_po_nazwach. intros Hin.
  apply list_elem_of_lookup_1 in Hin as [i Hi].
  apply name_pass_rekord in Hi as (m0 & Hm0 & Hcase).
  apply list_elem_of_lookup_2, rekordy_podstawowe_świeże in Hm0 as (Hf & Hid & Hh & _).
  unfold bez_grupy. destruct Hcase as [-> | [-> | ->]]; simpl; auto.
Qed.

Lemma rekordy_po_hashach_bez_grupy m :
  m ∈ rekordy_po_hashach ot f r → bez_grupy m.
Proof.
  unfold rekordy_po_hashach. intros Hin.
  apply list_elem_of_lookup_1 in Hin as [i Hi].
  apply _oblicz_hashe_rekord in Hi as (m0 & Hm0 & ->).
  apply list_elem_of_lookup_2, rekordy_po_nazwach_bez_grupy in Hm0 as [Hb _].
  exact Hb.
Qed.

Lemma rekordy_po_duplikatach_rekord i m' :
  rekordy_po_duplikatach ot f r !! i = Some m' →
  ∃ m, rekordy_po_hashach ot f r !! i = Some m ∧ bez_grupy m
       ∧ (m' = m ∨ ∃ n p, m' = rola n p m).
Proof.
  unfold rekordy_po_duplikatach. intros Hi.
  apply hash_pass_rekord in Hi as (m & Hm & Hcase).
  exists m. split_and!; [done| |done].
  by eapply rekordy_po_hashach_bez_grupy, list_elem_of_lookup_2.
Qed.

Lemma rekordy_końcowe_oznaczenia :
  oznaczenia <$> rekordy_końcowe ot dostępny f r
  = oznaczenia <$> rekordy_po_duplikatach ot f r.
Proof. apply _pobierz_metadane_graficzne_oznaczenia. Qed.

Lemma rekordy_końcowe_rekord m' :
  m' ∈ rekordy_końcowe ot dostępny f r →
  ∃ m5, m5 ∈ rekordy_po_duplikatach ot f r ∧ oznaczenia m' = oznaczenia m5.
Proof.
  intros Hin. apply (list_elem_of_fmap_2 oznaczenia) in Hin.
  rewrite rekordy_końcowe_oznaczenia in Hin.
  apply list_elem_of_fmap in Hin as (m5 & Heq & Hm5). by exists m5.
Qed.
End Niezmienniki.

(** ** The formatting functions write decimal numerals *)

Lemma czytaj_od_string_of_uint (d : Decimal.uint) acc :
  czytaj_od acc (NilEmpty.string_of_uint d) = Some (Nat.of_uint_acc d acc).
Proof.
  revert acc. induction d as [|d IH|d IH|d IH|d IH|d IH|d IH|d IH|d IH|d IH|d IH];
    intros acc; [done|..];
    cbn [NilEmpty.string_of_uint czytaj_od Nat.of_uint_acc];
    match goal with
    | |- context [cyfra ?c] =>
        let v := eval vm_compute in (cyfra c) in change (cyfra c) with v
    end;
    cbv iota beta; rewrite IH, Nat.tail_mul_spec; do 2 f_equal; lia.
Qed.

Lemma to_uint_unorm n : Nat.to_uint n = Decimal.unorm (Nat.to_uint n).
Proof. by rewrite <- Unsigned.to_of, Unsigned.of_to. Qed.

Lemma dec_niepuste n : dec n ≠ "".
Proof.
  unfold dec. pose proof (to_uint_unorm n) as Hn.
  destruct (Nat.to_uint n); done.
Qed.

Lemma czytaj_dec n : czytaj (dec n) = Some n.
Proof.
  pose proof (dec_niepuste n) as Hne. unfold czytaj.
  destruct (dec n) eqn:E; [done|]. rewrite <- E. unfold dec.
  rewrite czytaj_od_string_of_uint. f_equal. apply Unsigned.of_to.
Qed.

Lemma dec_bez_zera n : 1 < String.length (dec n) → String.get 0 (dec n) ≠ Some "0"%char.
Proof.
  unfold dec. intros Hlen.
  pose proof (to_uint_unorm n) as Hn.
  unfold Decimal.unorm in Hn.
  pose proof (DecimalFacts.nzhead_nonzero (Nat.to_uint n)) as Hnz.
  destruct (Decimal.nzhead (Nat.to_uint n)) eqn:E;
    rewrite Hn in Hlen |- *; simpl in *; try done; try lia.
  by destruct (Hnz u).
Qed.

Lemma zapis_dec n : zapis_dziesiętny n (dec n).
Proof. split; [apply czytaj_dec | apply dec_bez_zera]. Qed.

Lemma zapis_format_02d n : zapis_dwucyfrowy n (format_02d n).
Proof.
  pose proof (czytaj_dec n) as Hcz. pose proof (dec_bez_zera n) as Hz.
  pose proof (dec_niepuste n) as Hne.
  unfold format_02d. cbv zeta.
  destruct (String.length (dec n) <? 2) eqn:Hlt.
  - apply Nat.ltb_lt in Hlt.
    destruct (dec n) as [|c [|c' t]] eqn:E; [done| |simpl in Hlt; lia].
    split_and!; [|simpl; lia|simpl; lia].
    unfold czytaj in *. cbn [String.append czytaj_od]. exact Hcz.
  - apply Nat.ltb_ge in Hlt. split_and!; [done|done|]. intros H. apply Hz. lia.
Qed.

(** A numeral is determined by the number it denotes. *)

Lemma cyfra_kod c d : cyfra c = Some d → nat_of_ascii c = 48 + d ∧ d < 10.
Proof.
  unfold cyfra. cbv zeta.
  destruct (48 <=? nat_of_ascii c) eqn:E1; [|done].
  destruct (nat_of_ascii c <=? 57) eqn:E2; [|done].
  apply Nat.leb_le in E1, E2. intros [= <-]. lia.
Qed.

Lemma cyfra_mała c d : cyfra c = Some d → d < 10.
Proof. intros H. by apply cyfra_kod in H as [_ H]. Qed.

Lemma cyfra_inj c c' d : cyfra c = Some d → cyfra c' = Some d → c = c'.
Proof.
  intros [H _]%cyfra_kod [H' _]%cyfra_kod.
  rewrite <- (ascii_nat_embedding c), <- (ascii_nat_embedding c'). by rewrite H, H'.
Qed.

Lemma czytaj_od_zakres s : ∀ acc v,
  czytaj_od acc s = Some v →
  acc * 10 ^ String.length s ≤ v < (acc + 1) * 10 ^ String.length s.
Proof.
  induction s as [|c s IH]; intros acc v H; simpl in H.
  - inversion H; subst. simpl. lia.
  - destruct (cyfra c) as [d|] eqn:Hc; [|done].
    apply cyfra_mała in Hc. apply IH in H.
    cbn [String.length]. rewrite Nat.pow_succ_r'. nia.
Qed.

Lemma czytaj_od_inj s : ∀ s' acc v,
  String.length s = String.length s' →
  czytaj_od acc s = Some v → czytaj_od acc s' = Some v → s = s'.
Proof.
  induction s as [|c s IH]; intros [|c' s'] acc v Hlen H H'; try done.
  simpl in H, H'.
  destruct (cyfra c) as [d|] eqn:Hc; [|done].
  destruct (cyfra c') as [d'|] eqn:Hc'; [|done].
  injection Hlen as Hlen.
  pose proof (czytaj_od_zakres _ _ _ H) as Hz.
  pose proof (czytaj_od_zakres _ _ _ H') as Hz'.
  rewrite <- Hlen in Hz'.
  assert (d = d') as <- by nia.
  f_equal; [by eapply cyfra_inj | by eapply IH].
Qed.

Lemma czytaj_zakres s v :
  czytaj s = Some v → v < 10 ^ String.length s.
Proof.
  intros H. assert (czytaj_od 0 s = Some v) as H' by by destruct s.
  apply czytaj_od_zakres in H'. lia.
Qed.

Lemma czytaj_bez_zera s v :
  czytaj s = Some v → String.get 0 s ≠ Some "0"%char →
  10 ^ (String.length s - 1) ≤ v.
Proof.
  destruct s as [|c s]; [done|]. unfold czytaj. cbn [czytaj_od String.get String.length].
  intros H Hz. destruct (cyfra c) as [d|] eqn:Hc; [|done].
  assert (0 < d) as Hd.
  { destruct d; [|lia]. exfalso. apply Hz. f_equal. by eapply cyfra_inj. }
  apply czytaj_od_zakres in H. replace (S (String.length s) - 1) with (String.length s) by lia.
  nia.
Qed.

Lemma czytaj_inj s s' v :
  String.length s = String.length s' →
  czytaj s = Some v → czytaj s' = Some v → s = s'.
Proof.
  intros Hlen H H'. apply (czytaj_od_inj s s' 0 v Hlen); by destruct s, s'.
Qed.

Lemma potęga_rośnie a b : a < b → 10 ^ a * 10 ≤ 10 ^ b.
Proof.
  intros Hab. replace b with (S a + (b - S a)) by lia.
  rewrite Nat.pow_add_r, Nat.pow_succ_r'.
  assert (0 < 10 ^ (b - S a)) by (apply Nat.neq_0_lt_0, Nat.pow_nonzero; lia).
  nia.
Qed.

(** The two-digit numeral of a number is unique. *)
Lemma zapis_dwucyfrowy_jedyny n s s' :
  zapis_dwucyfrowy n s → zapis_dwucyfrowy n s' → s = s'.
Proof.
  intros (Hc & H2 & Hz) (Hc' & H2' & Hz').
  apply (czytaj_inj s s' n); [|done..].
  pose proof (czytaj_zakres _ _ Hc) as Hg. pose proof (czytaj_zakres _ _ Hc') as Hg'.
  destruct (decide (String.length s = String.length s')) as [|Hne]; [done|exfalso].
  destruct (decide (String.length s < String.length s')) as [Hlt|Hge].
  - pose proof (czytaj_bez_zera _ _ Hc' (Hz' ltac:(lia))) as Hd.
    pose proof (potęga_rośnie (String.length s - 1) (String.length s' - 1) ltac:(lia)) as Hp.
    replace (String.length s) with (S (String.length s - 1)) in Hg by lia.
    rewrite Nat.pow_succ_r' in Hg. lia.
  - pose proof (czytaj_bez_zera _ _ Hc (Hz ltac:(lia))) as Hd.
    pose proof (potęga_rośnie (String.length s' - 1) (String.length s - 1) ltac:(lia)) as Hp.
    replace (String.length s') with (S (String.length s' - 1)) in Hg' by lia.
    rewrite Nat.pow_succ_r' in Hg'. lia.
Qed.

(** The decimal numeral of a number is unique. *)
Lemma zapis_dziesiętny_jedyny n s s' :
  zapis_dziesiętny n s → zapis_dziesiętny n s' → s = s'.
Proof.
  intros (Hc & Hz) (Hc' & Hz').
  apply (czytaj_inj s s' n); [|done..].
  pose proof (czytaj_zakres _ _ Hc) as Hg. pose proof (czytaj_zakres _ _ Hc') as Hg'.
  assert (0 < String.length s) as Hs by (destruct s; [done | simpl; lia]).
  assert (0 < String.length s') as Hs' by (destruct s'; [done | simpl; lia]).
  destruct (decide (String.length s = String.length s')) as [|Hne]; [done|exfalso].
  destruct (decide (String.length s < String.length s')) as [Hlt|Hge].
  - pose proof (czytaj_bez_zera _ _ Hc' (Hz' ltac:(lia))) as Hd.
    pose proof (potęga_rośnie (String.length s - 1) (String.length s' - 1) ltac:(lia)) as Hp.
    replace (String.length s) with (S (String.length s - 1)) in Hg by lia.
    rewrite Nat.pow_succ_r' in Hg. lia.
  - pose proof (czytaj_bez_zera _ _ Hc (Hz ltac:(lia))) as Hd.
    pose proof (potęga_rośnie (String.length s' - 1) (String.length s - 1) ltac:(lia)) as Hp.
    replace (String.length s') with (S (String.length s' - 1)) in Hg' by lia.
    rewrite Nat.pow_succ_r' in Hg'. lia.
Qed.

(** * The claims *)

(** C1. For every hash-duplicate group, that is for the records that share
    an extension bucket [e] and a non-empty hash [h] when there are at least
    two of them, the hash pass takes the number [k + 1], where [k] counts
    the groups marked before, and sorts the group ascending by
    [data_utworzenia], the earlier index first among equal dates.  The first
    member gets the flag ["oryginał"] and the identifier made of the
    two-digit, zero-padded number and ["-o"]; the member at position
    [p >= 1] gets the flag ["duplikat"] and the same number followed by
    ["-D"] and the numeral of [p]; this holds whatever flag the name pass had
    left there, and nothing else of these records changes.  When the list
    is the one the pipeline hands to the hash pass, the final result carries
    the same flag and identifier, so no member ends flagged
    ["możliwy duplikat"]. *)
Theorem C1_hash_pass_marks_groups :
  ∀ (St : Type) (cb : option (StatusPostępu → St → St)) (l : list MetadanePliku)
    (s : St) (e h : string),
    h ≠ "" → 1 < length (grupa_hash l e h) →
    ∃ k posortowana,
      let numer := format_02d (k + 1) in
      grupy_dokładne l !! k = Some (grupa_hash l e h)
      ∧ zapis_dwucyfrowy (k + 1) numer
      ∧ posortowana ≡ₚ grupa_hash l e h
      ∧ StronglySorted
          (λ x y, data_utworzenia x.2 < data_utworzenia y.2
                  ∨ (data_utworzenia x.2 = data_utworzenia y.2 ∧ x.1 < y.1))
          posortowana
      ∧ (∀ p i m, posortowana !! p = Some (i, m) →
           let flaga_p := match p with 0 => "oryginał" | S _ => "duplikat" end in
           let id_p := numer +:+ match p with 0 => "-o" | S _ => "-D" +:+ dec p end in
           zapis_dziesiętny p (dec p)
           ∧ l !! i = Some m
           ∧ (∃ m_i, (_oznacz_dokładne_duplikaty cb l s).1 !! i = Some m_i
                     ∧ flaga m_i = flaga_p ∧ id_grupy m_i = id_p
                     ∧ m_i = z_id_grupy id_p (z_flagą flaga_p m))
           ∧ ∀ ot dostępny f r, l = rekordy_po_hashach ot f r →
               ∃ m', rekordy_końcowe ot dostępny f r !! i = Some m'
                     ∧ flaga m' = flaga_p ∧ id_grupy m' = id_p
                     ∧ flaga m' ≠ "możliwy duplikat").
Proof.
  intros St cb l s e h Hh Hlen.
  assert (grupa_hash l e h ∈ grupy_dokładne l) as Hg
    by (apply grupy_dokładne_elem; by exists e, h).
  apply list_elem_of_lookup_1 in Hg as [k Hk].
  exists k, (sortuj klucz_daty (grupa_hash l e h)). cbv zeta.
  split_and!;
    [done | apply zapis_format_02d | apply sortuj_perm
    | apply (sortuj_sorted klucz_daty), grupa_hash_rosnąca |].
  intros p i m Hp.
  assert (z_id_grupy
            (format_02d (k + 1) +:+ match p with 0 => "-o" | S _ => "-D" +:+ dec p end)
            (z_flagą match p with 0 => "oryginał" | S _ => "duplikat" end m)
          = rola (k + 1) p m) as Hrola by by destruct p.
  split_and!.
  - apply zapis_dec.
  - apply sortuj_indeks in Hp. by apply elem_of_grupa_hash in Hp as (Hl & _).
  - exists (rola (k + 1) p m). rewrite Hrola.
    destruct (hash_pass_spec cb l s) as [H1 _].
    split_and!; [exact (H1 k _ p i m Hk Hp) | by destruct p | by destruct p | done].
  - intros ot dostępny f r ->.
    destruct (hash_pass_spec (S := unit) None (rekordy_po_hashach ot f r) tt) as [H1 _].
    specialize (H1 k _ p i m Hk Hp). fold (rekordy_po_duplikatach ot f r) in H1.
    destruct (oznaczenia_lookup _ _ i _ (rekordy_końcowe_oznaczenia ot dostępny f r) H1)
      as (m' & Hm' & Hozn).
    exists m'. unfold oznaczenia in Hozn.
    assert (flaga m' = flaga (rola (k + 1) p m)) as Hfl by congruence.
    assert (id_grupy m' = id_grupy (rola (k + 1) p m)) as Hid by congruence.
    rewrite Hfl, Hid. split_and!; [done | by destruct p | by destruct p | by destruct p].
Qed.

Lemma C1_hash_pass_marks_groups_witness :
  let ot := ot_zmiana_czasu in
  let l := rekordy_po_hashach ot "/t" false in
  "bb" ≠ "" ∧ 1 < length (grupa_hash l ".png" "bb")
  ∧ ścieżka <$> l = ["/t/b.png"; "/t/c.png"; "/t/c.jpg"]
  ∧ data_utworzenia <$> l = [80; 70; 35]
  ∧ flaga <$> l = [""; "możliwy duplikat"; "oryginał"]
  ∧ ∃ m0 m1,
      rekordy_końcowe ot false "/t" false !! 0 = Some m0
      ∧ flaga m0 = "duplikat" ∧ id_grupy m0 = "01-D1"
      ∧ rekordy_końcowe ot false "/t" false !! 1 = Some m1
      ∧ flaga m1 = "oryginał" ∧ id_grupy m1 = "01-o".
Proof.
  intros ot l.
  assert ("bb" ≠ "") as H1 by discriminate.
  assert (1 < length (grupa_hash l ".png" "bb")) as H2 by (vm_compute; lia).
  split; [exact H1|]. split; [exact H2|].
  split; [vm_compute; reflexivity|].
  split; [vm_compute; reflexivity|].
  split; [vm_compute; reflexivity|].
  destruct (C1_hash_pass_marks_groups unit None l tt ".png" "bb" H1 H2)
    as (k & posortowana & Hk & _ & Hperm & Hsort & Hrole).
  assert (k = 0) as ->.
  { apply lookup_lt_Some in Hk.
    assert (length (grupy_dokładne l) = 1) as Hjedna by (vm_compute; reflexivity).
    lia. }
  assert (∃ mb mc, grupa_hash l ".png" "bb" = [(0, mb); (1, mc)]
                   ∧ data_utworzenia mb = 80 ∧ data_utworzenia mc = 70)
    as (mb & mc & Hg & Hb & Hc)
    by (eexists _, _; split_and!; vm_compute; reflexivity).
  rewrite Hg in Hperm. symmetry in Hperm.
  apply Permutation_length_2_inv in Hperm as [-> | ->].
  { exfalso. apply StronglySorted_inv in Hsort as [_ Hf]. apply Forall_inv in Hf.
    cbn [fst snd] in Hf. rewrite Hb, Hc in Hf. lia. }
  destruct (Hrole 0 1 mc eq_refl) as (_ & _ & _ & Ho).
  destruct (Hrole 1 0 mb eq_refl) as (_ & _ & _ & Hd).
  destruct (Ho ot false "/t" false eq_refl) as (m1 & Hm1 & Hf1 & Hi1 & _).
  destruct (Hd ot false "/t" false eq_refl) as (m0 & Hm0 & Hf0 & Hi0 & _).
  exists m0, m1. split_and!; [exact Hm0 | exact Hf0 | exact Hi0 | exact Hm1 | exact Hf1 | exact Hi1].
Defined.

(** C9. A record whose hashing failed keeps an empty [hash_sha256]; the
    hash pass puts it in no group and leaves the whole record, its flag and
    its group identifier included, as the name pass left it.  So two files
    that could not be read are never marked as duplicates of each other. *)
Theorem C9_unhashed_records_untouched :
  ∀ (St : Type) (ot : Otoczenie) (cb : option (StatusPostępu → St → St))
    (l : list MetadanePliku) (s s' : St) (i : nat) (m : MetadanePliku),
    l !! i = Some m → sha256 ot (ścieżka m) = None →
    let po_hashach := (_oblicz_hashe ot cb l s).1 in
    po_hashach !! i = Some (z_hashem "" m)
    ∧ (∀ g, g ∈ grupy_hash po_hashach → i ∉ g.*1)
    ∧ (_oznacz_dokładne_duplikaty cb po_hashach s').1 !! i = Some (z_hashem "" m)
    ∧ flaga (z_hashem "" m) = flaga m ∧ id_grupy (z_hashem "" m) = id_grupy m.
Proof.
  intros St ot cb l s s' i m Hl Hsha po_hashach.
  assert (po_hashach !! i = Some (z_hashem "" m)) as Hi.
  { unfold po_hashach. rewrite (_oblicz_hashe_lookup ot cb l s i m Hl).
    simpl. by rewrite Hsha. }
  assert (∀ g, g ∈ grupy_hash po_hashach → i ∉ g.*1) as Hnot.
  { intros g Hg Hin. apply elem_of_grupy_hash in Hg as (e & h & Hh & -> & _).
    apply list_elem_of_fmap in Hin as ([i' m'] & -> & Hin).
    apply elem_of_grupa_hash in Hin as (Hm' & _ & Hhash). simpl in Hi.
    rewrite Hi in Hm'. inversion Hm'; subst m'. by apply Hh. }
  split_and!; [done | done | | done | done].
  destruct (hash_pass_spec cb po_hashach s') as [_ H2]. rewrite H2; [done|].
  intros Hin. apply w_grupie in Hin as (g & p & m' & Hg & Hp).
  apply sortuj_indeks in Hp.
  apply list_elem_of_filter in Hg as [_ Hg].
  apply (Hnot g Hg). apply list_elem_of_fmap. by exists (i, m').
Qed.

Lemma C9_unhashed_records_untouched_witness :
  let ot := {| isdir := isdir ot_przykład; pliki_folderu := pliki_folderu ot_przykład;
               stat := stat ot_przykład; fromtimestamp := fromtimestamp ot_przykład;
               sha256 := λ _, None;
               sprawdz_oiiotool := sprawdz_oiiotool ot_przykład;
               oiiotool := oiiotool ot_przykład; pil := pil ot_przykład;
               kolejność_ukończenia := kolejność_ukończenia ot_przykład;
               zapisz_wyniki_do_json := zapisz_wyniki_do_json ot_przykład;
               przygotuj_folder_raportów := przygotuj_folder_raportów ot_przykład;
               zapisz_statystyki := zapisz_statystyki ot_przykład;
               ŚCIEŻKA_OIIOTOOL := ŚCIEŻKA_OIIOTOOL ot_przykład |} in
  let m := nowe_MetadanePliku "/t/b.png" ".png" 1%Q 10 30 "" in
  let l := [m; nowe_MetadanePliku "/t/c.png" ".png" 1%Q 20 30 ""] in
  l !! 0 = Some m ∧ sha256 ot (ścieżka m) = None
  ∧ (_oznacz_dokładne_duplikaty (S := unit) None (_oblicz_hashe ot None l tt).1 tt).1 !! 0
    = Some (z_hashem "" m).
Proof.
  intros ot m l.
  assert (l !! 0 = Some m) as H1 by reflexivity.
  assert (sha256 ot (ścieżka m) = None) as H2 by reflexivity.
  split; [exact H1|]. split; [exact H2|].
  exact (proj1 (proj2 (proj2
           (C9_unhashed_records_untouched unit ot None l tt tt 0 m H1 H2)))).
Defined.

(** C10. The hash pass counts its groups with one counter that starts at
    zero and is not reset from bucket to bucket: the [k]-th group it marks,
    in the order in which it goes through the buckets and through the hashes
    of a bucket, gets the number [k + 1], written with at least two digits,
    and every member of that group carries that number before the dash of its
    identifier.  Numbers start at ["01"], and members of different groups,
    also of different buckets, never share a number. *)
Theorem C10_group_numbers_sequential_unique :
  ∀ (St : Type) (cb : option (StatusPostępu → St → St)) (l : list MetadanePliku) (s : St),
    let out := (_oznacz_dokładne_duplikaty cb l s).1 in
    grupy_dokładne l
      = filter (λ g, 1 < length g)
          (flat_map (λ b, (Słownik.grupuj (λ x, hash_sha256 x.2) b.2).*2) (kubełki l))
    ∧ format_02d (0 + 1) = "01"
    ∧ (∀ k g i m, grupy_dokładne l !! k = Some g → (i, m) ∈ g →
         ∃ m', out !! i = Some m'
               ∧ przed_myślnikiem (id_grupy m') = format_02d (k + 1))
    ∧ (∀ k k' g g' i i' m m' mo mo',
         grupy_dokładne l !! k = Some g → grupy_dokładne l !! k' = Some g' →
         (i, m) ∈ g → (i', m') ∈ g' →
         out !! i = Some mo → out !! i' = Some mo' →
         przed_myślnikiem (id_grupy mo) = przed_myślnikiem (id_grupy mo') →
         k = k').
Proof.
  intros St cb l s out.
  destruct (hash_pass_spec cb l s) as [H1 _]. fold out in H1.
  assert (∀ k g i m, grupy_dokładne l !! k = Some g → (i, m) ∈ g →
            ∃ p, out !! i = Some (rola (k + 1) p m)) as Hrola.
  { intros k g i m Hk Hin. rewrite <- (sortuj_perm klucz_daty g) in Hin.
    apply list_elem_of_lookup_1 in Hin as [p Hp]. exists p. by eapply H1. }
  split_and!; [done | done | |].
  - intros k g i m Hk Hin. destruct (Hrola k g i m Hk Hin) as [p Hp].
    eexists. split; [exact Hp | apply numer_rola].
  - intros k k' g g' i i' m m' mo mo' Hk Hk' Hin Hin' Ho Ho' Heq.
    destruct (Hrola k g i m Hk Hin) as [p Hp].
    destruct (Hrola k' g' i' m' Hk' Hin') as [p' Hp'].
    rewrite Ho in Hp. rewrite Ho' in Hp'. inversion Hp; inversion Hp'; subst mo mo'.
    rewrite !numer_rola in Heq. apply format_02d_inj in Heq. lia.
Qed.

Lemma C10_group_numbers_sequential_unique_witness :
  grupy_dokładne l_przykład !! 0 = Some (grupa_hash l_przykład ".png" "bb")
  ∧ grupy_dokładne l_przykład !! 1 = Some (grupa_hash l_przykład POZOSTAŁE "cc")
  ∧ (∃ m', (_oznacz_dokładne_duplikaty (S := unit) None l_przykład tt).1 !! 2 = Some m'
           ∧ przed_myślnikiem (id_grupy m') = format_02d (0 + 1))
  ∧ (∃ m', (_oznacz_dokładne_duplikaty (S := unit) None l_przykład tt).1 !! 5 = Some m'
           ∧ przed_myślnikiem (id_grupy m') = format_02d (1 + 1)).
Proof.
  assert (grupy_dokładne l_przykład !! 0 = Some (grupa_hash l_przykład ".png" "bb"))
    as H0 by (vm_compute; reflexivity).
  assert (grupy_dokładne l_przykład !! 1 = Some (grupa_hash l_przykład POZOSTAŁE "cc"))
    as H1 by (vm_compute; reflexivity).
  destruct (C10_group_numbers_sequential_unique unit None l_przykład tt)
    as (_ & _ & Hn & _).
  assert (∃ m, (2, m) ∈ grupa_hash l_przykład ".png" "bb") as [m2 Hm2].
  { eexists. apply elem_of_grupa_hash. split_and!; vm_compute; reflexivity. }
  assert (∃ m, (5, m) ∈ grupa_hash l_przykład POZOSTAŁE "cc") as [m5 Hm5].
  { eexists. apply elem_of_grupa_hash. split_and!; vm_compute; reflexivity. }
  split; [exact H0|]. split; [exact H1|]. split.
  - exact (Hn 0 _ 2 m2 H0 Hm2).
  - exact (Hn 1 _ 5 m5 H1 Hm5).
Defined.

Lemma rekordy_po_hashach_kategoria ot f r m :
  m ∈ rekordy_po_hashach ot f r → rozszerzenie m = kategoria (ścieżka m).
Proof.
  unfold rekordy_po_hashach. intros Hin.
  apply list_elem_of_lookup_1 in Hin as [i Hi].
  apply _oblicz_hashe_rekord in Hi as (m1 & Hm1 & ->).
  unfold rekordy_po_nazwach in Hm1.
  apply name_pass_rekord in Hm1 as (m0 & Hm0 & Hcase).
  apply list_elem_of_lookup_2, rekordy_podstawowe_świeże in Hm0 as (_ & _ & _ & Hk).
  destruct Hcase as [-> | [-> | ->]]; exact Hk.
Qed.

(** C5, as the code has it.  The hash pass groups inside extension buckets:
    two members of one of its groups have the same [rozszerzenie] (and the
    same hash).  For the records of the pipeline the bucket is the category
    of the path, namely the lower-cased extension when it is one of
    [GRAFICZNE_ROZSZERZENIA] and ["pozostałe"] otherwise, so files whose
    categories differ are never grouped together. *)
Theorem C5_no_grouping_across_buckets :
  ∀ (l : list MetadanePliku) (g : list (nat * MetadanePliku)) (i j : nat)
    (mi mj : MetadanePliku),
    g ∈ grupy_hash l → (i, mi) ∈ g → (j, mj) ∈ g →
    rozszerzenie mi = rozszerzenie mj ∧ hash_sha256 mi = hash_sha256 mj
    ∧ ∀ ot f r, l = rekordy_po_hashach ot f r →
        kategoria (ścieżka mi) = kategoria (ścieżka mj)
        ∧ kategoria (ścieżka mi)
          = (let rozszerzenie := lower (splitext (ścieżka mi)).2 in
             if bool_decide (rozszerzenie ∈ GRAFICZNE_ROZSZERZENIA)
             then rozszerzenie else POZOSTAŁE).
Proof.
  intros l g i j mi mj Hg Hi Hj.
  apply elem_of_grupy_hash in Hg as (e & h & _ & -> & _).
  apply elem_of_grupa_hash in Hi as (Hli & Hei & Hhi).
  apply elem_of_grupa_hash in Hj as (Hlj & Hej & Hhj).
  split_and!; [congruence | congruence |].
  intros ot f r ->. split; [|done].
  rewrite <- (rekordy_po_hashach_kategoria ot f r mi)
    by by eapply list_elem_of_lookup_2.
  rewrite <- (rekordy_po_hashach_kategoria ot f r mj)
    by by eapply list_elem_of_lookup_2.
  congruence.
Qed.

Lemma C5_no_grouping_across_buckets_witness :
  ∃ mi mj,
    grupa_hash l_przykład ".png" "bb" ∈ grupy_hash l_przykład
    ∧ (1, mi) ∈ grupa_hash l_przykład ".png" "bb"
    ∧ (2, mj) ∈ grupa_hash l_przykład ".png" "bb"
    ∧ rozszerzenie mi = rozszerzenie mj ∧ hash_sha256 mi = hash_sha256 mj.
Proof.
  assert (grupa_hash l_przykład ".png" "bb" ∈ grupy_hash l_przykład) as Hg.
  { apply elem_of_grupy_hash. exists ".png", "bb".
    split_and!; [discriminate | reflexivity | vm_compute; discriminate]. }
  assert (∃ m, (1, m) ∈ grupa_hash l_przykład ".png" "bb") as [mi Hi].
  { eexists. apply elem_of_grupa_hash. split_and!; vm_compute; reflexivity. }
  assert (∃ m, (2, m) ∈ grupa_hash l_przykład ".png" "bb") as [mj Hj].
  { eexists. apply elem_of_grupa_hash. split_and!; vm_compute; reflexivity. }
  exists mi, mj. split; [exact Hg|]. split; [exact Hi|]. split; [exact Hj|].
  destruct (C5_no_grouping_across_buckets l_przykład _ 1 2 mi mj Hg Hi Hj)
    as (He & Hh & _).
  split; [exact He | exact Hh].
Defined.

(** C5 as the specification words it fails: [x.txt] and [y.doc] have the same
    bytes and different extensions, and the hash pass marks them as one
    group, because both fall into the bucket ["pozostałe"]. *)
Lemma C5_counterexample :
  ∃ g mi mj,
    g ∈ grupy_dokładne l_przykład ∧ (4, mi) ∈ g ∧ (5, mj) ∈ g
    ∧ ścieżka mi = "/t/x.txt" ∧ ścieżka mj = "/t/y.doc"
    ∧ hash_sha256 mi = hash_sha256 mj
    ∧ (splitext (ścieżka mi)).2 ≠ (splitext (ścieżka mj)).2
    ∧ (λ m, (ścieżka m, flaga m, id_grupy m))
        <$> rekordy_końcowe ot_przykład false "/t" false
      = [("/t/a.png", ORYGINAŁ, ""); ("/t/b.png", ORYGINAŁ, "01-o");
         ("/t/c.png", DUPLIKAT, "01-D1"); ("/t/a.jpg", MOŻLIWY_DUPLIKAT, "");
         ("/t/x.txt", ORYGINAŁ, "02-o"); ("/t/y.doc", DUPLIKAT, "02-D1")].
Proof.
  exists (grupa_hash l_przykład POZOSTAŁE "cc").
  assert (∃ m, (4, m) ∈ grupa_hash l_przykład POZOSTAŁE "cc" ∧ ścieżka m = "/t/x.txt")
    as (mi & Hi & Hpi).
  { eexists. rewrite elem_of_grupa_hash. split_and!; vm_compute; reflexivity. }
  assert (∃ m, (5, m) ∈ grupa_hash l_przykład POZOSTAŁE "cc" ∧ ścieżka m = "/t/y.doc")
    as (mj & Hj & Hpj).
  { eexists. rewrite elem_of_grupa_hash. split_and!; vm_compute; reflexivity. }
  exists mi, mj. split_and!; [|done|done|done|done| | |].
  - apply grupy_dokładne_elem. exists POZOSTAŁE, "cc".
    split_and!; [discriminate | reflexivity | vm_compute; lia].
  - apply elem_of_grupa_hash in Hi as (_ & _ & ->).
    by apply elem_of_grupa_hash in Hj as (_ & _ & ->).
  - rewrite Hpi, Hpj. vm_compute. discriminate.
  - vm_compute. reflexivity.
Qed.

Lemma posortowana_głowa {A} (klucz poz : A → nat) (s : list A) x0 y :
  StronglySorted (wcześniej klucz poz) s → s !! 0 = Some x0 → y ∈ s →
  klucz x0 ≤ klucz y ∧ (klucz x0 = klucz y → poz x0 ≤ poz y).
Proof.
  intros Hs H0 Hy. destruct s as [|x s']; [done|]. inversion H0; subst x.
  apply StronglySorted_inv in Hs as [_ Hall].
  apply elem_of_cons in Hy as [->|Hy]; [lia|].
  rewrite Forall_forall in Hall. specialize (Hall y Hy).
  unfold wcześniej in Hall. lia.
Qed.

(** C2. The name pass groups the records by file name without extension.
    In a group of more than one record, sorted by creation date with the
    earlier position first among equal dates, the first record gets the flag
    ["oryginał"] and every later one ["możliwy duplikat"]; only the flag
    changes, the group identifier stays as it was (empty, for the records the
    pipeline has just built).  The record flagged ["oryginał"] has the least
    date of the group and, among the records with that date, the least
    position: the first seen wins.  A record that is alone in its group is
    left as it is, with the empty flag when it comes from the pipeline. *)
Theorem C2_name_pass_marks_groups :
  ∀ (St : Type) (cb : option (StatusPostępu → St → St)) (l : list MetadanePliku)
    (s : St) (nazwa : string),
    let g := grupa_nazw l nazwa in
    let out := (_oznacz_możliwe_duplikaty cb l s).1 in
    (1 < length g →
       ∃ posortowana,
         posortowana ≡ₚ g
         ∧ StronglySorted (wcześniej klucz_daty fst) posortowana
         ∧ (∀ p i m, posortowana !! p = Some (i, m) →
              let flaga_p := match p with 0 => ORYGINAŁ | S _ => MOŻLIWY_DUPLIKAT end in
              out !! i = Some (z_flagą flaga_p m)
              ∧ id_grupy (z_flagą flaga_p m) = id_grupy m
              ∧ ∀ ot f r, l = rekordy_podstawowe ot f r → id_grupy m = "")
         ∧ (∀ i0 m0 j mj, posortowana !! 0 = Some (i0, m0) → (j, mj) ∈ g →
              data_utworzenia m0 ≤ data_utworzenia mj
              ∧ (data_utworzenia m0 = data_utworzenia mj → i0 ≤ j)))
    ∧ (length g ≤ 1 →
       ∀ i m, (i, m) ∈ g →
         out !! i = Some m
         ∧ ∀ ot f r, l = rekordy_podstawowe ot f r → flaga m = "").
Proof.
  intros St cb l s nazwa g out.
  destruct (name_pass_spec cb l s) as [H1 H2]. fold out in H1, H2.
  split.
  - intros Hlen. exists (sortuj klucz_daty g).
    assert (g ∈ grupy_możliwe l) as Hg by (apply grupy_możliwe_elem; by exists nazwa).
    split_and!.
    + apply sortuj_perm.
    + apply sortuj_sorted. apply StronglySorted_filter, enumerate_rosnące.
    + intros p i m Hp flaga_p. split_and!.
      * rewrite (H1 g p i m Hg Hp). by destruct p.
      * done.
      * intros ot f r ->. apply sortuj_indeks in Hp.
        apply elem_of_grupa_nazw in Hp as [Hl _].
        by apply list_elem_of_lookup_2, rekordy_podstawowe_świeże in Hl as (_ & ? & _).
    + intros i0 m0 j mj H0 Hj.
      rewrite <- (sortuj_perm klucz_daty g) in Hj.
      apply (posortowana_głowa klucz_daty fst (sortuj klucz_daty g) (i0, m0) (j, mj));
        [|done|done].
      apply sortuj_sorted. apply StronglySorted_filter, enumerate_rosnące.
  - intros Hlen i m Hin. split.
    + apply elem_of_grupa_nazw in Hin as [Hl Hn]. rewrite H2; [done|].
      intros Hi. apply w_grupie in Hi as (g' & p & m' & Hg' & Hp).
      apply sortuj_indeks in Hp.
      apply grupy_możliwe_elem in Hg' as (nazwa' & -> & Hlen').
      apply elem_of_grupa_nazw in Hp as [Hl' Hn'].
      rewrite Hl in Hl'. inversion Hl'; subst m'.
      rewrite Hn in Hn'. subst nazwa'. unfold g in Hlen. lia.
    + intros ot f r ->. apply elem_of_grupa_nazw in Hin as [Hl _].
      by apply list_elem_of_lookup_2, rekordy_podstawowe_świeże in Hl as (? & _).
Qed.

Lemma C2_name_pass_marks_groups_witness :
  let l := rekordy_podstawowe ot_przykład "/t" false in
  1 < length (grupa_nazw l "a") ∧ length (grupa_nazw l "b") ≤ 1
  ∧ (∃ posortowana,
       posortowana ≡ₚ grupa_nazw l "a"
       ∧ StronglySorted (wcześniej klucz_daty fst) posortowana
       ∧ ∀ p i m, posortowana !! p = Some (i, m) →
           (_oznacz_możliwe_duplikaty (S := unit) None l tt).1 !! i
           = Some (z_flagą (match p with 0 => ORYGINAŁ | S _ => MOŻLIWY_DUPLIKAT end) m))
  ∧ (∀ i m, (i, m) ∈ grupa_nazw l "b" →
       (_oznacz_możliwe_duplikaty (S := unit) None l tt).1 !! i = Some m).
Proof.
  intros l.
  assert (1 < length (grupa_nazw l "a")) as Ha by (vm_compute; lia).
  assert (length (grupa_nazw l "b") ≤ 1) as Hb by (vm_compute; lia).
  split; [exact Ha|]. split; [exact Hb|]. split.
  - destruct (proj1 (C2_name_pass_marks_groups unit None l tt "a") Ha)
      as (posortowana & Hperm & Hsort & Hflagi & _).
    exists posortowana. split; [exact Hperm|]. split; [exact Hsort|].
    intros p i m Hp. exact (proj1 (Hflagi p i m Hp)).
  - intros i m Hin.
    exact (proj1 (proj2 (C2_name_pass_marks_groups unit None l tt "b") Hb i m Hin)).
Defined.

Lemma przetwarzaj_folder_pliki {St} ot p cb d f r (s : St) :
  pliki (przetwarzaj_folder ot p cb d f r s).1 = Some (rekordy_końcowe ot d f r).
Proof. rewrite przetwarzaj_folder_rozkład. apply wyniki_procesora_pliki. Qed.

(** C3, as the code has it.  In the result of the pipeline a record that
    carries a group identifier is flagged ["oryginał"] or ["duplikat"], a
    record flagged ["duplikat"] carries a group identifier, and a record
    that is unflagged or flagged ["możliwy duplikat"] carries none.  (A record
    flagged ["oryginał"] carries one when the hash pass flagged it and none
    when only the name pass did.) *)
Theorem C3_group_id_and_flag :
  ∀ (St : Type) (ot : Otoczenie) (ścieżka_oiiotool : string)
    (cb : option (StatusPostępu → St → St)) (dostępny : bool) (f : string) (r : bool)
    (s : St) (rekordy : list MetadanePliku) (m : MetadanePliku),
    pliki (przetwarzaj_folder ot ścieżka_oiiotool cb dostępny f r s).1 = Some rekordy →
    m ∈ rekordy →
    (id_grupy m ≠ "" → flaga m = ORYGINAŁ ∨ flaga m = DUPLIKAT)
    ∧ (flaga m = DUPLIKAT → id_grupy m ≠ "")
    ∧ (flaga m = MOŻLIWY_DUPLIKAT → id_grupy m = "")
    ∧ (flaga m = "" → id_grupy m = "").
Proof.
  intros St ot p cb d f r s rekordy m Hpliki Hin.
  rewrite przetwarzaj_folder_pliki in Hpliki. inversion Hpliki; subst rekordy.
  apply rekordy_końcowe_rekord in Hin as (m5 & Hm5 & Hozn).
  assert (flaga m = flaga m5) as -> by (unfold oznaczenia in Hozn; congruence).
  assert (id_grupy m = id_grupy m5) as -> by (unfold oznaczenia in Hozn; congruence).
  apply list_elem_of_lookup_1 in Hm5 as [i Hi].
  apply rekordy_po_duplikatach_rekord in Hi as (m4 & _ & [Hid Hfl] & Hcase).
  destruct Hcase as [-> | (n & q & ->)].
  - rewrite Hid. split_and!; [done| |done|done].
    intros Hd. rewrite Hd in Hfl. destruct Hfl as [Hfl | [Hfl | Hfl]]; by compute in Hfl.
  - pose proof (id_grupy_rola_niepuste n q m4) as Hne.
    rewrite flaga_rola. split_and!; [|done| |].
    + intros _. destruct q; auto.
    + intros Hf. destruct q; by compute in Hf.
    + intros Hf. destruct q; by compute in Hf.
Qed.

Lemma C3_group_id_and_flag_witness :
  ∃ rekordy m,
    pliki (przetwarzaj_folder (S := unit) ot_przykład "oiiotool" None false "/t" false tt).1
      = Some rekordy
    ∧ m ∈ rekordy
    ∧ ((id_grupy m ≠ "" → flaga m = ORYGINAŁ ∨ flaga m = DUPLIKAT)
       ∧ (flaga m = DUPLIKAT → id_grupy m ≠ "")
       ∧ (flaga m = MOŻLIWY_DUPLIKAT → id_grupy m = "")
       ∧ (flaga m = "" → id_grupy m = "")).
Proof.
  pose proof (przetwarzaj_folder_pliki (St := unit) ot_przykład "oiiotool" None false
                "/t" false tt) as Hp.
  assert (∃ m, rekordy_końcowe ot_przykład false "/t" false !! 2 = Some m) as [m Hm]
    by (eexists; vm_compute; reflexivity).
  apply list_elem_of_lookup_2 in Hm.
  exists (rekordy_końcowe ot_przykład false "/t" false), m.
  split; [exact Hp|]. split; [exact Hm|].
  exact (C3_group_id_and_flag unit ot_przykład "oiiotool" None false "/t" false tt _ m Hp Hm).
Defined.

(** C3 as the specification words it fails: [a.png], older than [a.jpg] of
    the same name and with bytes of its own, ends flagged ["oryginał"] by the
    name pass and has no group identifier. *)
Lemma C3_counterexample :
  ∃ rekordy m,
    pliki (przetwarzaj_folder (S := unit) ot_przykład "oiiotool" None false "/t" false tt).1
      = Some rekordy
    ∧ m ∈ rekordy ∧ ścieżka m = "/t/a.png"
    ∧ flaga m = ORYGINAŁ ∧ id_grupy m = ""
    ∧ ¬ (id_grupy m ≠ "" ↔ flaga m ≠ "").
Proof.
  assert (∃ m, rekordy_końcowe ot_przykład false "/t" false !! 0 = Some m
               ∧ ścieżka m = "/t/a.png" ∧ flaga m = ORYGINAŁ ∧ id_grupy m = "")
    as (m & Hm & Hp & Hf & Hid)
    by (eexists; split_and!; vm_compute; reflexivity).
  exists (rekordy_końcowe ot_przykład false "/t" false), m.
  split_and!; [apply przetwarzaj_folder_pliki | by eapply list_elem_of_lookup_2
              | done | done | done |].
  rewrite Hf, Hid. intros [_ H]. by apply H.
Qed.

(** * Further properties *)

(** ** Progress events, stage by stage *)

Lemma iloraz_zakres a b :
  a ≤ b → 0 < b → (0 <= iloraz a b)%Q ∧ (iloraz a b <= 1)%Q.
Proof.
  intros Hab Hb. unfold iloraz.
  assert (0 < inject_Z (Z.of_nat b))%Q as Hpos.
  { change 0%Q with (inject_Z 0). rewrite <- Zlt_Qlt. lia. }
  split.
  - apply Qle_shift_div_l; [done|]. rewrite Qmult_0_l.
    change 0%Q with (inject_Z 0). rewrite <- Zle_Qle. lia.
  - apply Qle_shift_div_r; [done|]. rewrite Qmult_1_l. rewrite <- Zle_Qle. lia.
Qed.

Lemma Pisarz_z_zwróć {A} P (a : A) : Pisarz_z P (λ S _, @zwróć S A a).
Proof. exists a, []. split; [constructor | reflexivity]. Qed.

Lemma Pisarz_z_raportuj (P : StatusPostępu → Prop) e p w sz :
  P {| etap := e; postęp := p; wiadomość := w; szczegóły := sz |} →
  Pisarz_z P (λ S cb, @_raportuj_status S cb e p w sz).
Proof.
  intros HP.
  exists tt, [ {| etap := e; postęp := p; wiadomość := w; szczegóły := sz |} ].
  split; [by repeat constructor|]. intros S [f|] s; reflexivity.
Qed.

Lemma Pisarz_z_potem {A B} P (m : ∀ S, option (StatusPostępu → S → S) → Stan S A)
    (k : ∀ S, option (StatusPostępu → S → S) → A → Stan S B) :
  Pisarz_z P m → (∀ a, Pisarz_z P (λ S cb, k S cb a)) →
  Pisarz_z P (λ S cb, potem (m S cb) (k S cb)).
Proof.
  intros (a & e1 & H1 & Hm) Hk. destruct (Hk a) as (b & e2 & H2 & Hb).
  exists b, (e1 ++ e2). split; [by apply Forall_app|]. intros S cb s.
  unfold potem. rewrite Hm, Hb. by rewrite wykonaj_app.
Qed.

Lemma Pisarz_z_gdy P (c : bool) (m : ∀ S, option (StatusPostępu → S → S) → Stan S unit) :
  Pisarz_z P m → Pisarz_z P (λ S cb, gdy c (m S cb)).
Proof. destruct c; simpl; [done | intros _; apply Pisarz_z_zwróć]. Qed.

Lemma Pisarz_z_dla_każdego {A B} P
    (ciało : ∀ S, option (StatusPostępu → S → S) → B → A → Stan S B) xs :
  (∀ b x, x ∈ xs → Pisarz_z P (λ S cb, ciało S cb b x)) →
  ∀ b, Pisarz_z P (λ S cb, dla_każdego (ciało S cb) xs b).
Proof.
  induction xs as [|x xs IH]; intros Hc b; simpl.
  - apply Pisarz_z_zwróć.
  - apply (Pisarz_z_potem P (λ S cb, ciało S cb b x)
             (λ S cb b', dla_każdego (ciało S cb) xs b')).
    + apply Hc. left.
    + intros b'. apply IH. intros b'' y Hy. apply Hc. by right.
Qed.

Lemma enumerate_indeks {A} (l : list A) i x : (i, x) ∈ enumerate l → i < length l.
Proof. intros Hin. apply elem_of_enumerate in Hin. by eapply lookup_lt_Some. Qed.

Lemma length_enumerate {A} (l : list A) : length (enumerate l) = length l.
Proof. apply length_imap. Qed.

Lemma w_etapie_iloraz nazwa i n w sz :
  i < n →
  w_etapie nazwa {| etap := nazwa; postęp := iloraz (i + 1) n;
                    wiadomość := w; szczegóły := sz |}.
Proof.
  intros Hi. destruct (iloraz_zakres (i + 1) n) as [H0 H1]; [lia..|].
  by split_and!.
Qed.

Lemma Pisarz_z_znajdź ot f r :
  Pisarz_z (w_etapie "wyszukiwanie") (λ S cb, @_znajdź_i_posortuj_pliki S ot cb f r).
Proof.
  unfold _znajdź_i_posortuj_pliki.
  apply Pisarz_z_potem; [|intros ?; apply Pisarz_z_zwróć].
  apply Pisarz_z_dla_każdego. intros [d n] [i [k sc]] Hin. cbn beta iota zeta.
  apply enumerate_indeks in Hin. rewrite length_fmap in Hin.
  apply Pisarz_z_potem; [|intros ?; apply Pisarz_z_zwróć].
  apply Pisarz_z_gdy, Pisarz_z_raportuj.
  destruct (Nat.ltb_spec 0 (length (pliki_folderu ot f r))); [|lia].
  by apply w_etapie_iloraz.
Qed.

Lemma Pisarz_z_utwórz ot d :
  Pisarz_z (w_etapie "metadane_podstawowe")
    (λ S cb, @_utwórz_podstawowe_metadane S ot cb d).
Proof.
  unfold _utwórz_podstawowe_metadane.
  apply Pisarz_z_dla_każdego. intros acc [i o] Hin. cbn beta iota zeta.
  apply enumerate_indeks in Hin. rewrite length_fmap in Hin.
  apply Pisarz_z_potem; [|intros ?; apply Pisarz_z_zwróć].
  apply Pisarz_z_gdy, Pisarz_z_raportuj.
  match goal with |- context [0 <? ?n] => destruct (Nat.ltb_spec 0 n); [|lia] end.
  by apply w_etapie_iloraz.
Qed.

Lemma Pisarz_z_oblicz_hashe ot l :
  Pisarz_z (w_etapie "hash") (λ S cb, @_oblicz_hashe S ot cb l).
Proof.
  unfold _oblicz_hashe.
  apply Pisarz_z_dla_każdego. intros acc [i [index h]] Hin. cbn beta iota zeta.
  apply enumerate_indeks in Hin. rewrite length_fmap, length_enumerate in Hin.
  apply Pisarz_z_potem; [|intros ?; apply Pisarz_z_zwróć].
  apply Pisarz_z_gdy, Pisarz_z_raportuj.
  by apply w_etapie_iloraz.
Qed.

Lemma w_etapie_część nazwa i n (a b : Q) w sz :
  i < n → (0 <= a)%Q → (0 <= b)%Q → (a + b == 1)%Q →
  w_etapie nazwa {| etap := nazwa; postęp := (a + iloraz (i + 1) n * b)%Q;
                    wiadomość := w; szczegóły := sz |}.
Proof.
  intros Hi Ha Hb Hab. destruct (iloraz_zakres (i + 1) n) as [H0 H1]; [lia..|].
  split_and!; [done | simpl; nra | simpl; nra].
Qed.

Lemma w_etapie_ułamek nazwa i n (b : Q) w sz :
  i < n → (0 <= b)%Q → (b <= 1)%Q →
  w_etapie nazwa {| etap := nazwa; postęp := (iloraz (i + 1) n * b)%Q;
                    wiadomość := w; szczegóły := sz |}.
Proof.
  intros Hi Hb Hb1. destruct (iloraz_zakres (i + 1) n) as [H0 H1]; [lia..|].
  split_and!; [done | simpl; nra | simpl; nra].
Qed.

Lemma Pisarz_z_oznacz_możliwe l :
  Pisarz_z (w_etapie "możliwe_duplikaty") (λ S cb, @_oznacz_możliwe_duplikaty S cb l).
Proof.
  unfold _oznacz_możliwe_duplikaty.
  apply Pisarz_z_potem.
  - apply Pisarz_z_dla_każdego. intros d [i meta] Hin. cbn beta iota zeta.
    apply enumerate_indeks in Hin.
    apply Pisarz_z_potem; [|intros ?; apply Pisarz_z_zwróć].
    apply Pisarz_z_gdy, Pisarz_z_raportuj.
    by apply w_etapie_ułamek.
  - intros grupy. cbn beta iota zeta.
    apply Pisarz_z_dla_każdego. intros lst [i [nazwa grupa]] Hin. cbn beta iota zeta.
    apply enumerate_indeks in Hin.
    apply Pisarz_z_potem; [|intros ?; apply Pisarz_z_zwróć].
    apply Pisarz_z_gdy, Pisarz_z_raportuj.
    by apply w_etapie_część.
Qed.

Lemma Pisarz_z_oznacz_dokładne l :
  Pisarz_z (w_etapie "dokładne_duplikaty") (λ S cb, @_oznacz_dokładne_duplikaty S cb l).
Proof.
  unfold _oznacz_dokładne_duplikaty.
  apply Pisarz_z_potem.
  - apply Pisarz_z_dla_każdego. intros d [i meta] Hin. cbn beta iota zeta.
    apply enumerate_indeks in Hin.
    apply Pisarz_z_potem; [|intros ?; apply Pisarz_z_zwróć].
    apply Pisarz_z_gdy, Pisarz_z_raportuj.
    by apply w_etapie_ułamek.
  - intros kubły. cbn beta iota zeta.
    apply Pisarz_z_potem; [|intros ?; apply Pisarz_z_zwróć].
    apply Pisarz_z_dla_każdego. intros stan [i [e pliki]] Hin. cbn beta iota zeta.
    apply enumerate_indeks in Hin.
    apply Pisarz_z_potem; [|intros ?; apply Pisarz_z_zwróć].
    apply Pisarz_z_raportuj.
    by apply w_etapie_część.
Qed.

(** The events of a whole run: the opening event of each stage followed by
    the events of that stage, and the closing event. *)
Lemma zdarzenia_procesora_rozkład ot p d f r :
  ∃ z1 z2 z3 z4 z5,
    zdarzenia_procesora ot p d f r
    = początek_etapu "wyszukiwanie" "Rozpoczęcie wyszukiwania plików..." :: z1
      ++ początek_etapu "metadane_podstawowe" "Tworzenie podstawowych metadanych..." :: z2
      ++ początek_etapu "możliwe_duplikaty"
           "Wykrywanie możliwych duplikatów na podstawie nazwy..." :: z3
      ++ początek_etapu "hash" "Obliczanie hash'y plików..." :: z4
      ++ początek_etapu "dokładne_duplikaty" "Wykrywanie dokładnych duplikatów..." :: z5
      ++ [początek_etapu "metadane_graficzne"
            "Pobieranie szczegółowych metadanych graficznych...";
          koniec_przetwarzania]
    ∧ Forall (w_etapie "wyszukiwanie") z1
    ∧ Forall (w_etapie "metadane_podstawowe") z2
    ∧ Forall (w_etapie "możliwe_duplikaty") z3
    ∧ Forall (w_etapie "hash") z4
    ∧ Forall (w_etapie "dokładne_duplikaty") z5.
Proof.
  destruct (Pisarz_z_znajdź ot f r) as (a1 & z1 & F1 & H1).
  destruct (Pisarz_z_utwórz ot a1) as (a2 & z2 & F2 & H2).
  destruct (Pisarz_z_oznacz_możliwe a2) as (a3 & z3 & F3 & H3).
  destruct (Pisarz_z_oblicz_hashe ot a3) as (a4 & z4 & F4 & H4).
  destruct (Pisarz_z_oznacz_dokładne a4) as (a5 & z5 & F5 & H5).
  exists z1, z2, z3, z4, z5. split; [|done].
  unfold zdarzenia_procesora, przetwarzaj_folder, potem.
  cbn [_raportuj_status rejestruj]. rewrite H1.
  cbn [_raportuj_status rejestruj]. rewrite H2.
  cbn [_raportuj_status rejestruj]. rewrite H3.
  cbn [_raportuj_status rejestruj]. rewrite H4.
  cbn [_raportuj_status rejestruj]. rewrite H5.
  destruct (_pobierz_metadane_graficzne ot d a5) as [lst st].
  cbn [_raportuj_status rejestruj zwróć snd].
  rewrite !wykonaj_rejestruj. simpl. rewrite <- !app_assoc. simpl.
  repeat (f_equal; try (rewrite <- !app_assoc; simpl)).
Qed.

Lemma w_etapie_zakres nazwa z :
  Forall (w_etapie nazwa) z →
  Forall (λ e, (0 <= postęp e)%Q ∧ (postęp e <= 1)%Q) z
  ∧ etap <$> z = replicate (length z) nazwa.
Proof.
  induction 1 as [|e z (He & H0 & H1) _ [IH1 IH2]]; [by split|].
  split; [by constructor|]. csimpl. by rewrite He, IH2.
Qed.

(** Every progress value the callback of a run is given lies between 0
    and 1, whatever the directory holds; the events are the same for every
    callback. *)
Theorem progress_within_bounds :
  ∀ (St : Type) (ot : Otoczenie) (ścieżka_oiiotool : string) (oiiotool_dostępny : bool)
    (ścieżka_folderu : string) (przeszukuj_podfoldery : bool)
    (cb : option (StatusPostępu → St → St)) (s : St),
    let zdarzenia :=
      zdarzenia_procesora ot ścieżka_oiiotool oiiotool_dostępny ścieżka_folderu
        przeszukuj_podfoldery in
    (przetwarzaj_folder ot ścieżka_oiiotool cb oiiotool_dostępny ścieżka_folderu
       przeszukuj_podfoldery s).2
    = wykonaj cb zdarzenia s
    ∧ Forall (λ e, (0 <= postęp e)%Q ∧ (postęp e <= 1)%Q) zdarzenia.
Proof.
  intros St ot p d f r cb s zdarzenia. split.
  - by rewrite przetwarzaj_folder_rozkład.
  - unfold zdarzenia.
    destruct (zdarzenia_procesora_rozkład ot p d f r)
      as (z1 & z2 & z3 & z4 & z5 & -> & F1 & F2 & F3 & F4 & F5).
    apply w_etapie_zakres in F1 as [F1 _], F2 as [F2 _], F3 as [F3 _],
      F4 as [F4 _], F5 as [F5 _].
    repeat first
      [ apply Forall_nil_2
      | apply Forall_cons; split; [by split|]
      | apply Forall_app; split; [assumption|] ].
Qed.

(** The stages are reported in the order of the pipeline, each at least
    once: the run opens with ["wyszukiwanie"] at progress 0 and closes with
    ["zakończono"] at progress 1, and no stage is reported again once a later
    one has been. *)
Theorem stages_reported_in_order :
  ∀ (ot : Otoczenie) (ścieżka_oiiotool : string) (oiiotool_dostępny : bool)
    (ścieżka_folderu : string) (przeszukuj_podfoldery : bool),
    let zdarzenia :=
      zdarzenia_procesora ot ścieżka_oiiotool oiiotool_dostępny ścieżka_folderu
        przeszukuj_podfoldery in
    (∃ n1 n2 n3 n4 n5,
       etap <$> zdarzenia
       = replicate (S n1) "wyszukiwanie" ++ replicate (S n2) "metadane_podstawowe"
         ++ replicate (S n3) "możliwe_duplikaty" ++ replicate (S n4) "hash"
         ++ replicate (S n5) "dokładne_duplikaty"
         ++ ["metadane_graficzne"; "zakończono"])
    ∧ head zdarzenia
      = Some (początek_etapu "wyszukiwanie" "Rozpoczęcie wyszukiwania plików...")
    ∧ last zdarzenia = Some koniec_przetwarzania.
Proof.
  intros ot p d f r zdarzenia. unfold zdarzenia.
  destruct (zdarzenia_procesora_rozkład ot p d f r)
    as (z1 & z2 & z3 & z4 & z5 & -> & F1 & F2 & F3 & F4 & F5).
  apply w_etapie_zakres in F1 as [_ F1], F2 as [_ F2], F3 as [_ F3],
    F4 as [_ F4], F5 as [_ F5].
  split_and!.
  - exists (length z1), (length z2), (length z3), (length z4), (length z5).
    repeat (rewrite fmap_cons || rewrite fmap_app).
    rewrite F1, F2, F3, F4, F5. reflexivity.
  - reflexivity.
  - rewrite !app_comm_cons, !app_assoc.
    change [?a; ?b] with ([a] ++ [b]). rewrite !app_assoc. apply last_snoc.
Qed.

(** ** A directory without files *)

Lemma _pobierz_metadane_graficzne_nil ot d :
  _pobierz_metadane_graficzne ot d [] = ([], stats_początkowe).
Proof.
  unfold _pobierz_metadane_graficzne. simpl.
  induction (kolejność_ukończenia ot 0) as [|k kol IH]; [done|].
  simpl. by rewrite ?lookup_nil.
Qed.

(** When discovery finds no file, the run reports the opening event of each
    of the six stages and the closing event, nothing else, and returns no
    record, no bucket and statistics that are all zero. *)
Theorem empty_directory :
  ∀ (ot : Otoczenie) (ścieżka_oiiotool : string) (oiiotool_dostępny : bool)
    (ścieżka_folderu : string) (przeszukuj_podfoldery : bool),
    pliki_folderu ot ścieżka_folderu przeszukuj_podfoldery = [] →
    let wynik :=
      wyniki_procesora ot ścieżka_oiiotool oiiotool_dostępny ścieżka_folderu
        przeszukuj_podfoldery in
    zdarzenia_procesora ot ścieżka_oiiotool oiiotool_dostępny ścieżka_folderu
      przeszukuj_podfoldery
    = [początek_etapu "wyszukiwanie" "Rozpoczęcie wyszukiwania plików...";
       początek_etapu "metadane_podstawowe" "Tworzenie podstawowych metadanych...";
       początek_etapu "możliwe_duplikaty"
         "Wykrywanie możliwych duplikatów na podstawie nazwy...";
       początek_etapu "hash" "Obliczanie hash'y plików...";
       początek_etapu "dokładne_duplikaty" "Wykrywanie dokładnych duplikatów...";
       początek_etapu "metadane_graficzne"
         "Pobieranie szczegółowych metadanych graficznych...";
       koniec_przetwarzania]
    ∧ pliki wynik = Some []
    ∧ pliki_według_rozszerzeń wynik = Some []
    ∧ statystyki wynik
      = Some {| liczba_plików_ogółem := 0; liczba_plików_graficznych := 0;
                liczba_pozostałych_plików := 0; liczba_oryginałów := 0;
                liczba_duplikatów := 0; liczba_możliwych_duplikatów := 0;
                liczba_grup_duplikatów := 0; rozszerzenia := [];
                narzędzia_analizy := stats_początkowe;
                liczba_plików_specjalistycznych := 0;
                rozszerzenia_z_błędami := [] |}.
Proof.
  intros ot p d f r Hpuste wynik. unfold wynik.
  unfold zdarzenia_procesora, wyniki_procesora, przetwarzaj_folder, potem,
    _znajdź_i_posortuj_pliki, potem.
  rewrite Hpuste. simpl. rewrite !_pobierz_metadane_graficzne_nil. by simpl.
Qed.

Lemma empty_directory_witness :
  pliki_folderu ot_pusty "/pusty" false = []
  ∧ length (zdarzenia_procesora ot_pusty "oiiotool" false "/pusty" false) = 7
  ∧ pliki (wyniki_procesora ot_pusty "oiiotool" false "/pusty" false) = Some [].
Proof.
  assert (pliki_folderu ot_pusty "/pusty" false = []) as H by reflexivity.
  split; [exact H|].
  destruct (empty_directory ot_pusty "oiiotool" false "/pusty" false H)
    as (Hz & Hp & _).
  split; [by rewrite Hz | exact Hp].
Defined.

(** ** Statistics *)

Lemma length_filter_podział {A} (P : A → Prop) `{∀ x, Decision (P x)} (l : list A) :
  length (filter (λ x, ¬ P x) l) + length (filter P l) = length l.
Proof.
  induction l as [|x l IH]; [done|].
  rewrite !filter_cons. destruct (decide (P x)) as [HP|HP].
  - rewrite decide_False by tauto. simpl. lia.
  - rewrite decide_True by done. simpl. lia.
Qed.

Lemma length_filter_wynika {A} (P Q : A → Prop) `{∀ x, Decision (P x)}
    `{∀ x, Decision (Q x)} (l : list A) :
  (∀ x, P x → Q x) → length (filter P l) ≤ length (filter Q l).
Proof.
  intros HPQ. induction l as [|x l IH]; [done|].
  rewrite !filter_cons. destruct (decide (P x)) as [HP|HP].
  - rewrite decide_True by auto. simpl. lia.
  - destruct (decide (Q x)); simpl; lia.
Qed.

Lemma zwiększ_dopisz {V} (k : string) (v : V) (d : Słownik.t V) :
  Słownik.zwiększ k ((λ kg, (kg.1, length kg.2)) <$> d)
  = (λ kg, (kg.1, length kg.2)) <$> Słownik.dopisz k v d.
Proof.
  induction d as [|[k' g] d IH]; csimpl; [done|].
  destruct (decide (k' = k)); csimpl.
  - by rewrite length_app, Nat.add_1_r.
  - by rewrite IH.
Qed.

(** The counting loop builds the sizes of the groups of the grouping loop. *)
Lemma histogram_grupuj {V} (klucz : V → string) (xs : list V) :
  fold_left (λ d x, Słownik.zwiększ (klucz x) d) xs []
  = (λ kg, (kg.1, length kg.2)) <$> Słownik.grupuj klucz xs.
Proof.
  induction xs as [|x xs IH] using rev_ind; [done|].
  rewrite fold_left_app, grupuj_snoc. simpl. rewrite IH. apply zwiększ_dopisz.
Qed.

(** What a histogram holds: one entry for each key that occurs, with the
    number of its occurrences. *)
Lemma histogram_własności {V} (klucz : V → string) (xs : list V) :
  let h := fold_left (λ d x, Słownik.zwiększ (klucz x) d) xs [] in
  NoDup h.*1
  ∧ (∀ e n, (e, n) ∈ h ↔ n = length (filter (λ x, klucz x = e) xs) ∧ 0 < n)
  ∧ sum_list h.*2 = length xs.
Proof.
  simpl. rewrite histogram_grupuj.
  destruct (grupuj_własności klucz xs) as (Hnd & Hg & Hk).
  assert (((λ kg : string * list V, (kg.1, length kg.2)) <$> Słownik.grupuj klucz xs).*1
          = (Słownik.grupuj klucz xs).*1) as Hklucze.
  { rewrite <- list_fmap_compose. by apply list_fmap_ext. }
  split_and!.
  - by rewrite Hklucze.
  - intros e n. split.
    + intros Hin. apply list_elem_of_fmap in Hin as ([e' g] & Heq & Hin).
      inversion Heq; subst e n. simpl. destruct (Hg _ _ Hin) as [Hgf Hne].
      split; [by rewrite <- Hgf|]. destruct g; [done | simpl; lia].
    + intros [-> Hpos].
      destruct (filter (λ x, klucz x = e) xs) as [|x g] eqn:Hf; [simpl in Hpos; lia|].
      assert (x ∈ filter (λ x, klucz x = e) xs) as Hx by (rewrite Hf; left).
      apply list_elem_of_filter in Hx as [Hxe Hx].
      apply Hk in Hx. rewrite Hxe in Hx.
      apply list_elem_of_fmap in Hx as ([e' g'] & He' & Hin). simpl in He'. subst e'.
      destruct (Hg _ _ Hin) as [Hgf _].
      apply list_elem_of_fmap. exists (e, g'). split; [|done].
      simpl. by rewrite Hgf, Hf.
  - rewrite <- list_fmap_compose.
    rewrite <- (grupuj_concat klucz xs) at 2. clear.
    induction (Słownik.grupuj klucz xs) as [|[e g] d IH]; [done|].
    csimpl. rewrite length_app. by rewrite IH.
Qed.

(** The counters of the statistics add up: every record is either a
    graphic file or one of the others, a record carries at most one of the
    three flags, and the specialised formats are among the graphic ones. *)
Theorem statistics_counts_add_up :
  ∀ (metadane_plików : list MetadanePliku) (stats_narzędzia : StatsNarzędzia),
    let s := _generuj_statystyki metadane_plików stats_narzędzia in
    liczba_plików_ogółem s = length metadane_plików
    ∧ liczba_plików_graficznych s + liczba_pozostałych_plików s = liczba_plików_ogółem s
    ∧ liczba_oryginałów s + liczba_duplikatów s + liczba_możliwych_duplikatów s
      ≤ liczba_plików_ogółem s
    ∧ liczba_plików_specjalistycznych s ≤ liczba_plików_graficznych s
    ∧ narzędzia_analizy s = stats_narzędzia.
Proof.
  intros l st s. unfold s, _generuj_statystyki. clear s. simpl.
  split_and!; [done| | | |done].
  - apply (length_filter_podział (λ m, rozszerzenie m = POZOSTAŁE)).
  - induction l as [|m l IH]; [done|].
    rewrite !filter_cons.
    destruct (decide (flaga m = ORYGINAŁ)) as [H1|H1],
             (decide (flaga m = DUPLIKAT)) as [H2|H2],
             (decide (flaga m = MOŻLIWY_DUPLIKAT)) as [H3|H3];
      try (rewrite H1 in H2; discriminate H2);
      try (rewrite H1 in H3; discriminate H3);
      try (rewrite H2 in H3; discriminate H3);
      simpl; lia.
  - apply length_filter_wynika. intros m Hin Heq. rewrite Heq in Hin.
    unfold FORMATY_OIIOTOOL in Hin. rewrite !elem_of_cons, elem_of_nil in Hin.
    destruct Hin as [H|[H|[H|[]]]]; discriminate H.
Qed.

(** The per-extension counts of the statistics: one entry for each
    extension bucket that occurs among the records, holding the number of
    records of that bucket; the entries add up to the number of records.  The
    counts of analysis errors are built the same way from the records whose
    tool is ["błąd"]. *)
Theorem extension_histogram :
  ∀ (metadane_plików : list MetadanePliku) (stats_narzędzia : StatsNarzędzia),
    let s := _generuj_statystyki metadane_plików stats_narzędzia in
    NoDup (rozszerzenia s).*1
    ∧ (∀ e n, (e, n) ∈ rozszerzenia s ↔
         n = length (filter (λ m, rozszerzenie m = e) metadane_plików) ∧ 0 < n)
    ∧ sum_list (rozszerzenia s).*2 = liczba_plików_ogółem s
    ∧ NoDup (rozszerzenia_z_błędami s).*1
    ∧ (∀ e n, (e, n) ∈ rozszerzenia_z_błędami s ↔
         n = length (filter (λ m, rozszerzenie m = e)
                       (filter (λ m, narzędzie_analizy m = "błąd") metadane_plików))
         ∧ 0 < n).
Proof.
  intros l st s. unfold s, _generuj_statystyki. simpl.
  destruct (histogram_własności rozszerzenie l) as (H1 & H2 & H3).
  rewrite (fold_left_filter (λ m, narzędzie_analizy m = "błąd")
             (λ d m, Słownik.zwiększ (rozszerzenie m) d)).
  destruct (histogram_własności rozszerzenie
              (filter (λ m, narzędzie_analizy m = "błąd") l)) as (H4 & H5 & _).
  by split_and!.
Qed.

(** ** The image metadata stage, task by task *)

Lemma alter_alter {A} (f g : A → A) i (l : list A) :
  alter f i (alter g i l) = alter (f ∘ g) i l.
Proof.
  revert i. induction l as [|x l IH]; intros [|i]; simpl; [done..|].
  f_equal. apply IH.
Qed.

Lemma zbierz_wynik_rekordy lst st (w : OdpowiedźZadania) :
  (zbierz_wynik (lst, st) w).1 = alter (po_analizie w) w.1.1.1 lst.
Proof.
  destruct w as [[[i metadane] narzędzie] błąd]. unfold zbierz_wynik, po_analizie. simpl.
  destruct metadane as [d|]; [|by rewrite list_alter_id].
  destruct (niepusty błąd).
  - destruct (Dict.dodaj_jeden _ _); simpl; by rewrite !alter_alter.
  - destruct (if decide _ then _ else _); simpl; by rewrite !alter_alter.
Qed.

Lemma stats_początkowe_liczniki : stats_początkowe = liczniki 0 0.
Proof. reflexivity. Qed.

Lemma dodaj_błąd a b : Dict.dodaj_jeden "błąd" (liczniki a b) = Some (liczniki (a + 1) b).
Proof. reflexivity. Qed.

Lemma dodaj_poprawnie a b :
  Dict.dodaj_jeden_w "formaty_oiiotool" "poprawnie" (liczniki a b)
  = Some (liczniki a (b + 1)).
Proof. reflexivity. Qed.

(** The key the generic decoder's successes are counted under is missing. *)
Lemma brak_formaty_pil a b :
  Dict.szukaj "formaty_pil" (liczniki a b) = None
  ∧ Dict.dodaj_jeden_w "formaty_pil" "poprawnie" (liczniki a b) = None.
Proof. by split. Qed.

Lemma po_wyjątku_liczniki a b : po_wyjątku (liczniki a b) = liczniki (a + 1) b.
Proof. reflexivity. Qed.

Lemma zbierz_wynik_liczniki lst a b (w : OdpowiedźZadania) :
  kształt_odpowiedzi w →
  (zbierz_wynik (lst, liczniki a b) w).2
  = liczniki (a + (if decide (przez "PIL" w) then 1 else 0))
      (b + (if decide (przez "oiiotool" w) then 1 else 0)).
Proof.
  destruct w as [[[i metadane] narzędzie] błąd]. unfold kształt_odpowiedzi, przez. simpl.
  intros [-> | ([d ->] & -> & [-> | ->])].
  - destruct (decide (is_Some None ∧ narzędzie = "PIL")) as [[[? ?] _]|_]; [done|].
    destruct (decide (is_Some None ∧ narzędzie = "oiiotool")) as [[[? ?] _]|_]; [done|].
    simpl. by rewrite !Nat.add_0_r.
  - destruct (decide (is_Some (Some d) ∧ "oiiotool" = "PIL")) as [[_ ?]|_]; [done|].
    destruct (decide (is_Some (Some d) ∧ "oiiotool" = "oiiotool")) as [_|Hn];
      [|destruct Hn; split; [by eexists | done]].
    simpl. by rewrite Nat.add_0_r.
  - destruct (decide (is_Some (Some d) ∧ "PIL" = "PIL")) as [_|Hn];
      [|destruct Hn; split; [by eexists | done]].
    destruct (decide (is_Some (Some d) ∧ "PIL" = "oiiotool")) as [[_ ?]|_]; [done|].
    simpl. by rewrite Nat.add_0_r.
Qed.

Lemma zbieranie_rekordy (ws : list OdpowiedźZadania) lst st :
  (fold_left zbierz_wynik ws (lst, st)).1
  = fold_left (λ lst w, alter (po_analizie w) w.1.1.1 lst) ws lst.
Proof.
  revert lst st. induction ws as [|w ws IH]; intros lst st; cbn [fold_left]; [done|].
  rewrite <- (zbierz_wynik_rekordy lst st w).
  destruct (zbierz_wynik (lst, st) w) as [lst' st']. apply IH.
Qed.

Lemma zbieranie_liczniki (ws : list OdpowiedźZadania) :
  Forall kształt_odpowiedzi ws →
  ∀ lst a b,
    (fold_left zbierz_wynik ws (lst, liczniki a b)).2
    = liczniki (a + length (filter (przez "PIL") ws))
        (b + length (filter (przez "oiiotool") ws)).
Proof.
  induction 1 as [|w ws Hw _ IH]; intros lst a b; cbn [fold_left].
  - simpl. by rewrite !Nat.add_0_r.
  - pose proof (zbierz_wynik_liczniki lst a b w Hw) as Hst.
    destruct (zbierz_wynik (lst, liczniki a b) w) as [lst' st']. simpl in Hst. subst st'.
    rewrite IH. rewrite !filter_cons.
    destruct (decide (przez "PIL" w)), (decide (przez "oiiotool" w)); simpl;
      f_equal; lia.
Qed.

(** The loop over the completed futures is the loop over their answers. *)
Lemma zbieranie_omap (futures : list OdpowiedźZadania) kol stan :
  fold_left
    (λ stan k, match futures !! k with Some wynik => zbierz_wynik stan wynik | None => stan end)
    kol stan
  = fold_left zbierz_wynik (omap (λ k, futures !! k) kol) stan.
Proof.
  revert stan. induction kol as [|k kol IH]; intros stan; csimpl; [done|].
  rewrite IH. by destruct (futures !! k).
Qed.

Lemma omap_seq_lookup {A} (pre fs : list A) :
  omap (λ k, (pre ++ fs) !! k) (seq (length pre) (length fs)) = fs.
Proof.
  revert pre. induction fs as [|x fs IH]; intros pre; [done|].
  csimpl. rewrite list_lookup_middle by done. f_equal.
  specialize (IH (pre ++ [x])). rewrite <- app_assoc, length_app in IH. simpl in IH.
  by rewrite Nat.add_1_r in IH.
Qed.

Lemma omap_lookup_permutacja {A} (fs : list A) kol :
  kol ≡ₚ seq 0 (length fs) → omap (λ k, fs !! k) kol ≡ₚ fs.
Proof. intros ->. by rewrite <- (omap_seq_lookup [] fs) at 2. Qed.

(** *** The answers of the tasks *)

Lemma _pobierz_metadane_pil_kształt ot m :
  let w := _pobierz_metadane_pil ot m in
  (w.1.1 = None ∧ w.1.2 ≠ "PIL") ∨ (is_Some w.1.1 ∧ w.1.2 = "PIL" ∧ w.2 = "").
Proof.
  unfold _pobierz_metadane_pil. destruct (pil ot (ścieżka m)); simpl.
  - right. split_and!; [by eexists | done..].
  - by left.
  - by left.
Qed.

Lemma _pobierz_metadane_graficzne_pliku_indeks ot d (x : nat * MetadanePliku) :
  (_pobierz_metadane_graficzne_pliku ot d x).1.1.1 = x.1.
Proof.
  destruct x as [i m]. unfold _pobierz_metadane_graficzne_pliku.
  destruct (decide _) as [|_]; [done|].
  destruct (_pobierz_metadane_pil ot m) as [[md n] b].
  destruct d; [|done].
  destruct (_pobierz_metadane_oiiotool ot m) as [[md' n'] b']. by destruct md'.
Qed.

Lemma _pobierz_metadane_graficzne_pliku_kształt ot d (x : nat * MetadanePliku) :
  kształt_odpowiedzi (_pobierz_metadane_graficzne_pliku ot d x).
Proof.
  destruct x as [i m]. unfold _pobierz_metadane_graficzne_pliku, kształt_odpowiedzi.
  destruct (decide _) as [|_]; [by left|].
  pose proof (_pobierz_metadane_pil_kształt ot m) as Hpil.
  destruct (_pobierz_metadane_pil ot m) as [[md n] b]. simpl in Hpil.
  assert (md = None ∨ is_Some md ∧ b = "" ∧ (n = "oiiotool" ∨ n = "PIL")) as Hp.
  { destruct Hpil as [[-> _] | (? & -> & ->)]; [by left | right; auto]. }
  destruct d; [|exact Hp].
  unfold _pobierz_metadane_oiiotool. destruct (oiiotool ot (ścieżka m)) as [dd|k]; simpl.
  - right. split_and!; [by eexists | done | by left].
  - exact Hp.
Qed.

(** *** The stage *)

Lemma _pobierz_metadane_graficzne_zbieranie ot d l :
  _pobierz_metadane_graficzne ot d l
  = fold_left zbierz_wynik
      (omap (λ k, (_pobierz_metadane_graficzne_pliku ot d <$> enumerate l) !! k)
         (kolejność_ukończenia ot (length l)))
      (l, stats_początkowe).
Proof.
  unfold _pobierz_metadane_graficzne. rewrite zbieranie_omap.
  by rewrite length_fmap, length_enumerate.
Qed.

Lemma length_filter_fmap {A B} (P : B → Prop) `{∀ y, Decision (P y)} (f : A → B)
    (xs : list A) :
  length (filter P (f <$> xs)) = length (filter (λ x, P (f x)) xs).
Proof.
  induction xs as [|x xs IH]; [done|]. csimpl. rewrite !filter_cons.
  destruct (decide (P (f x))); simpl; by rewrite IH.
Qed.


Lemma _pobierz_metadane_graficzne_rekordy ot d l :
  kolejność_ukończenia ot (length l) ≡ₚ seq 0 (length l) →
  (_pobierz_metadane_graficzne ot d l).1
  = imap (λ i m, po_analizie (_pobierz_metadane_graficzne_pliku ot d (i, m)) m) l.
Proof.
  intros Hperm.
  rewrite _pobierz_metadane_graficzne_zbieranie, zbieranie_rekordy.
  set (futures := _pobierz_metadane_graficzne_pliku ot d <$> enumerate l).
  set (ws := omap (λ k, futures !! k) (kolejność_ukończenia ot (length l))).
  assert (ws ≡ₚ futures) as Hws.
  { apply omap_lookup_permutacja. unfold futures.
    by rewrite length_fmap, length_enumerate. }
  assert ((λ w : OdpowiedźZadania, w.1.1.1) <$> futures = (enumerate l).*1) as Hidx.
  { unfold futures. rewrite <- list_fmap_compose. apply list_fmap_ext.
    intros j x _. apply _pobierz_metadane_graficzne_pliku_indeks. }
  destruct (fold_alter_lookup po_analizie (λ w : OdpowiedźZadania, w.1.1.1) ws l)
    as [H1 H2].
  { rewrite Hws, Hidx. apply enumerate_nodup. }
  apply list_eq. intros i. rewrite list_lookup_imap.
  destruct (l !! i) as [m|] eqn:Hl; simpl.
  - assert (_pobierz_metadane_graficzne_pliku ot d (i, m) ∈ ws) as Hin.
    { rewrite Hws. apply list_elem_of_fmap. exists (i, m).
      split; [done | by apply elem_of_enumerate]. }
    specialize (H1 _ Hin).
    rewrite _pobierz_metadane_graficzne_pliku_indeks in H1. simpl in H1.
    by rewrite H1, Hl.
  - rewrite H2, Hl; [done|]. rewrite Hws, Hidx.
    intros Hin. apply list_elem_of_fmap in Hin as ([j m] & -> & Hin).
    apply elem_of_enumerate in Hin. simpl in Hl. congruence.
Qed.

Lemma _pobierz_metadane_graficzne_liczniki ot d l :
  kolejność_ukończenia ot (length l) ≡ₚ seq 0 (length l) →
  (_pobierz_metadane_graficzne ot d l).2
  = liczniki
      (length (filter (λ x, przez "PIL" (_pobierz_metadane_graficzne_pliku ot d x))
                 (enumerate l)))
      (length (filter (λ x, przez "oiiotool" (_pobierz_metadane_graficzne_pliku ot d x))
                 (enumerate l))).
Proof.
  intros Hperm.
  rewrite _pobierz_metadane_graficzne_zbieranie, stats_początkowe_liczniki.
  set (futures := _pobierz_metadane_graficzne_pliku ot d <$> enumerate l).
  set (ws := omap (λ k, futures !! k) (kolejność_ukończenia ot (length l))).
  assert (ws ≡ₚ futures) as Hws.
  { apply omap_lookup_permutacja. unfold futures.
    by rewrite length_fmap, length_enumerate. }
  rewrite zbieranie_liczniki.
  2:{ rewrite Hws. apply Forall_fmap, Forall_forall. intros x _.
      apply _pobierz_metadane_graficzne_pliku_kształt. }
  rewrite Hws. unfold futures. by rewrite !length_filter_fmap.
Qed.

Lemma _pobierz_metadane_graficzne_pliku_ext ot ot' d x :
  (∀ p, pil ot' p = pil ot p) → (∀ p, oiiotool ot' p = oiiotool ot p) →
  _pobierz_metadane_graficzne_pliku ot' d x = _pobierz_metadane_graficzne_pliku ot d x.
Proof.
  intros Hpil Hoiio. destruct x as [i m].
  unfold _pobierz_metadane_graficzne_pliku, _pobierz_metadane_pil,
    _pobierz_metadane_oiiotool.
  by rewrite Hpil, Hoiio.
Qed.

(** Writing by index: when every future completes once, in whatever order,
    the stage leaves in the place of each record what the answer of its own
    task makes of it, so neither the records nor the counters depend on the
    order in which the futures complete. *)
Theorem metadata_written_by_index :
  ∀ (ot : Otoczenie) (oiiotool_dostępny : bool) (metadane_plików : list MetadanePliku),
    kolejność_ukończenia ot (length metadane_plików) ≡ₚ seq 0 (length metadane_plików) →
    (_pobierz_metadane_graficzne ot oiiotool_dostępny metadane_plików).1
    = imap (λ i m, po_analizie
                     (_pobierz_metadane_graficzne_pliku ot oiiotool_dostępny (i, m)) m)
        metadane_plików
    ∧ ∀ ot' : Otoczenie,
        (∀ p, pil ot' p = pil ot p) → (∀ p, oiiotool ot' p = oiiotool ot p) →
        kolejność_ukończenia ot' (length metadane_plików)
          ≡ₚ seq 0 (length metadane_plików) →
        _pobierz_metadane_graficzne ot' oiiotool_dostępny metadane_plików
        = _pobierz_metadane_graficzne ot oiiotool_dostępny metadane_plików.
Proof.
  intros ot d l Hperm. split; [by apply _pobierz_metadane_graficzne_rekordy|].
  intros ot' Hpil Hoiio Hperm'.
  rewrite (surjective_pairing (_pobierz_metadane_graficzne ot' d l)),
    (surjective_pairing (_pobierz_metadane_graficzne ot d l)).
  rewrite !_pobierz_metadane_graficzne_rekordy, !_pobierz_metadane_graficzne_liczniki
    by done.
  f_equal.
  - apply imap_ext. intros i m _.
    by rewrite (_pobierz_metadane_graficzne_pliku_ext ot ot') by done.
  - f_equal; f_equal; apply list_filter_iff; intros x;
      by rewrite (_pobierz_metadane_graficzne_pliku_ext ot ot') by done.
Qed.

Lemma metadata_written_by_index_witness :
  kolejność_ukończenia ot_przykład 6 ≡ₚ seq 0 6
  ∧ narzędzie_analizy
      <$> (_pobierz_metadane_graficzne ot_przykład false
             (rekordy_po_duplikatach ot_przykład "/t" false)).1
    = ["PIL"; "PIL"; "PIL"; ""; ""; ""].
Proof.
  assert (kolejność_ukończenia ot_przykład
            (length (rekordy_po_duplikatach ot_przykład "/t" false))
          ≡ₚ seq 0 (length (rekordy_po_duplikatach ot_przykład "/t" false))) as H
    by reflexivity.
  split; [exact H|].
  rewrite (proj1 (metadata_written_by_index ot_przykład false _ H)).
  vm_compute. reflexivity.
Defined.

(** ** The result of a run: records and statistics *)

Lemma rekordy_podstawowe_nieanalizowane ot f r m :
  m ∈ rekordy_podstawowe ot f r → nieanalizowany m.
Proof.
  rewrite rekordy_podstawowe_wartość. intros Hin.
  apply list_elem_of_omap in Hin as ([p e] & _ & Hu).
  unfold utwórz_metadane_pliku in Hu. destruct (stat ot p) as [[[? ?] ?]|]; [|done].
  inversion Hu; subst m. by repeat split.
Qed.

Lemma rekordy_po_duplikatach_nieanalizowane ot f r m :
  m ∈ rekordy_po_duplikatach ot f r → nieanalizowany m.
Proof.
  intros Hin. apply list_elem_of_lookup_1 in Hin as [i Hi].
  apply rekordy_po_duplikatach_rekord in Hi as (m4 & Hm4 & _ & Hcase).
  unfold rekordy_po_hashach in Hm4.
  apply _oblicz_hashe_rekord in Hm4 as (m3 & Hm3 & ->).
  unfold rekordy_po_nazwach in Hm3.
  apply name_pass_rekord in Hm3 as (m2 & Hm2 & Hcase3).
  apply list_elem_of_lookup_2, rekordy_podstawowe_nieanalizowane in Hm2.
  assert (nieanalizowany m3) as Hm3 by (by destruct Hcase3 as [-> | [-> | ->]]).
  destruct Hcase as [-> | (n & p & ->)]; [done|]. by destruct p.
Qed.

Lemma zbieranie_niezmiennik (Q : MetadanePliku → Prop) (ws : list OdpowiedźZadania) lst :
  (∀ w m, w ∈ ws → Q m → Q (po_analizie w m)) → Forall Q lst →
  Forall Q (fold_left (λ lst w, alter (po_analizie w) w.1.1.1 lst) ws lst).
Proof.
  revert lst. induction ws as [|w ws IH]; intros lst Hw Hlst; simpl; [done|].
  apply IH.
  - intros w' m Hin. apply Hw. by right.
  - apply Forall_alter; [done|]. intros m _. apply Hw. left.
Qed.




(** A failed analysis leaves no trace.  Whatever the backends answer and in
    whatever order the futures complete, no record of the result of a run
    carries an error text or the tool ["błąd"]: both backends return their
    error together with [None] in the place of the dictionary, and the
    collecting loop writes to a record only when there is a dictionary.  So
    the per-extension error counts of the statistics are always empty. *)
Theorem analysis_failures_leave_no_trace :
  ∀ (ot : Otoczenie) (ścieżka_oiiotool : string) (oiiotool_dostępny : bool)
    (ścieżka_folderu : string) (przeszukuj_podfoldery : bool),
    let wynik :=
      wyniki_procesora ot ścieżka_oiiotool oiiotool_dostępny ścieżka_folderu
        przeszukuj_podfoldery in
    ∃ rekordy st,
      pliki wynik = Some rekordy ∧ statystyki wynik = Some st
      ∧ (∀ m, m ∈ rekordy →
           błąd_analizy m = ""
           ∧ (narzędzie_analizy m = "" ∨ narzędzie_analizy m = "PIL"
              ∨ narzędzie_analizy m = "oiiotool"))
      ∧ rozszerzenia_z_błędami st = [].
Proof.
  intros ot p d f r wynik. unfold wynik.
  eexists _, _. split; [apply wyniki_procesora_pliki|].
  split; [apply wyniki_procesora_statystyki|].
  set (Q := λ m, błąd_analizy m = ""
                 ∧ (narzędzie_analizy m = "" ∨ narzędzie_analizy m = "PIL"
                    ∨ narzędzie_analizy m = "oiiotool")).
  assert (Forall Q (rekordy_końcowe ot d f r)) as HQ.
  { unfold rekordy_końcowe.
    rewrite _pobierz_metadane_graficzne_zbieranie, zbieranie_rekordy.
    apply zbieranie_niezmiennik.
    - intros w m Hw Hm. apply list_elem_of_omap in Hw as (k & _ & Hk).
      apply list_elem_of_lookup_2, list_elem_of_fmap in Hk as (x & -> & _).
      pose proof (_pobierz_metadane_graficzne_pliku_kształt ot d x) as Hk.
      destruct (_pobierz_metadane_graficzne_pliku ot d x) as [[[i md] t] b].
      unfold kształt_odpowiedzi in Hk. simpl in Hk. unfold po_analizie.
      destruct Hk as [-> | ([dd ->] & -> & Ht)]; [done|].
      destruct Hm as [Hb _]. split; [exact Hb|]. simpl. tauto.
    - apply Forall_forall. intros m Hm.
      apply rekordy_po_duplikatach_nieanalizowane in Hm as (Hn & Hb & _).
      split; [done | by left]. }
  rewrite Forall_forall in HQ. split; [exact HQ|].
  unfold _generuj_statystyki. simpl.
  rewrite (fold_left_filter (λ m, narzędzie_analizy m = "błąd")
             (λ d m, Słownik.zwiększ (rozszerzenie m) d)).
  rewrite filter_brak; [done|].
  intros m Hm Heq. destruct (HQ m Hm) as [_ [H | [H | H]]]; rewrite Heq in H; done.
Qed.



(** ** Paths from stage to stage *)






(** ** Counting groups and files *)

Lemma fmap_filter_fmap {A B} (f : A → B) (P : B → Prop) `{∀ y, Decision (P y)}
    (l : list A) :
  f <$> filter (λ x, P (f x)) l = filter P (f <$> l).
Proof.
  induction l as [|x l IH]; [done|]. csimpl. rewrite !filter_cons.
  destruct (decide (P (f x))); csimpl; by rewrite IH.
Qed.

Lemma numery_w_rekordach (l : list MetadanePliku) :
  (λ m, przed_myślnikiem (id_grupy m)) <$> filter (λ m, id_grupy m ≠ "") l
  = przed_myślnikiem <$> filter (λ t, t ≠ "") (id_grupy <$> l).
Proof.
  rewrite <- (fmap_filter_fmap id_grupy (λ t, t ≠ "")).
  by rewrite <- list_fmap_compose.
Qed.

Lemma rekordy_końcowe_id_grupy ot d f r :
  id_grupy <$> rekordy_końcowe ot d f r = id_grupy <$> rekordy_po_duplikatach ot f r.
Proof.
  pose proof (rekordy_końcowe_oznaczenia ot d f r) as Heq.
  apply (f_equal (fmap (λ t : string * string * string * string * string * nat,
                          t.1.1.2))) in Heq.
  by rewrite <- !list_fmap_compose in Heq.
Qed.

(** The numbers that occur in the group identifiers after the hash pass
    are those of the groups it marked. *)
Lemma numery_grup (l : list MetadanePliku) s :
  Forall bez_grupy l →
  s ∈ przed_myślnikiem
        <$> filter (λ t, t ≠ "")
              (id_grupy <$> (_oznacz_dokładne_duplikaty (S := unit) None l tt).1)
  ↔ s ∈ (λ k, format_02d (k + 1)) <$> seq 0 (length (grupy_dokładne l)).
Proof.
  intros Hbez. destruct (hash_pass_spec (S := unit) None l tt) as [H1 H2].
  cbv zeta in H1, H2.
  set (out := (_oznacz_dokładne_duplikaty (S := unit) None l tt).1) in *.
  rewrite !list_elem_of_fmap. split.
  - intros (t & -> & Ht). apply list_elem_of_filter in Ht as [Hne Ht].
    apply list_elem_of_fmap in Ht as (m' & -> & Hm').
    apply list_elem_of_lookup_1 in Hm' as [i Hi].
    destruct (decide (i ∈ (concat (grupy_dokładne l)).*1)) as [Hin|Hnin].
    + apply w_grupie in Hin as (g & p & m & Hg & Hp).
      apply list_elem_of_lookup_1 in Hg as [k Hk].
      rewrite (H1 k g p i m Hk Hp) in Hi. inversion Hi; subst m'.
      exists k. split; [apply numer_rola|].
      apply elem_of_seq. apply lookup_lt_Some in Hk. lia.
    + rewrite (H2 i Hnin) in Hi.
      rewrite Forall_forall in Hbez.
      apply list_elem_of_lookup_2, Hbez in Hi as [Hid _]. done.
  - intros (k & -> & Hk). apply elem_of_seq in Hk as [_ Hk]. simpl in Hk.
    apply lookup_lt_is_Some in Hk as [g Hg].
    pose proof Hg as Hlen.
    apply list_elem_of_lookup_2, grupy_dokładne_elem in Hlen as (_ & _ & _ & _ & Hlen).
    assert (0 < length (sortuj klucz_daty g)) as H0 by (rewrite length_sortuj; lia).
    apply lookup_lt_is_Some in H0 as [[i m] Hp].
    pose proof (H1 k g 0 i m Hg Hp) as Hi.
    exists (id_grupy (rola (k + 1) 0 m)). split; [by rewrite numer_rola|].
    apply list_elem_of_filter. split; [apply id_grupy_rola_niepuste|].
    apply list_elem_of_fmap. exists (rola (k + 1) 0 m).
    split; [done | by eapply list_elem_of_lookup_2].
Qed.

(** The number of duplicate groups in the statistics of a run is the number
    of groups the hash pass marked: the sets of at least two records that
    share an extension bucket and a non-empty hash. *)
Theorem duplicate_group_count :
  ∀ (ot : Otoczenie) (ścieżka_oiiotool : string) (oiiotool_dostępny : bool)
    (ścieżka_folderu : string) (przeszukuj_podfoldery : bool),
    let wynik :=
      wyniki_procesora ot ścieżka_oiiotool oiiotool_dostępny ścieżka_folderu
        przeszukuj_podfoldery in
    let l := rekordy_po_hashach ot ścieżka_folderu przeszukuj_podfoldery in
    ∃ st,
      statystyki wynik = Some st
      ∧ liczba_grup_duplikatów st = length (grupy_dokładne l)
      ∧ (∀ g, g ∈ grupy_dokładne l ↔
              ∃ e h, h ≠ "" ∧ g = grupa_hash l e h ∧ 1 < length g).
Proof.
  intros ot p d f r wynik l. unfold wynik.
  eexists. split; [apply wyniki_procesora_statystyki|].
  split; [|intros g; apply grupy_dokładne_elem].
  unfold _generuj_statystyki. cbn [liczba_grup_duplikatów].
  rewrite numery_w_rekordach, rekordy_końcowe_id_grupy. unfold rekordy_po_duplikatach. fold l.
  apply eq_trans
    with (length ((λ k, format_02d (k + 1)) <$> seq 0 (length (grupy_dokładne l))));
    [|by rewrite length_fmap, length_seq].
  apply Permutation_length, NoDup_Permutation.
  - apply NoDup_remove_dups.
  - apply NoDup_fmap_2; [|apply NoDup_seq].
    intros k k' Heq. apply format_02d_inj in Heq. lia.
  - intros s. rewrite elem_of_remove_dups. apply numery_grup.
    apply Forall_forall. intros m Hm. by eapply rekordy_po_hashach_bez_grupy.
Qed.


